(* ===== verification/_CoqProject ===== *)
-Q . S2P
Prelude.v
JsString.v
Model.v
IdbStore.v
Db.v
DataManagement.v
StableSort.v
Dates.v
Projection.v
Page.v
CollectionSpec.v
TaskItem.v
Controls.v
UseTasks.v
Render.v
Widgets.v
App.v
