(* ===== verification/Prelude.v ===== *)
(** * A verification development for the To-do app (Mahdirnj/To-do-app)

    ** The program

    A Next.js client.  [src/app/lib/db.ts] keeps tasks and categories in
    two IndexedDB object stores keyed by [id].  The page component
    [Home] of [src/app/page.tsx] loads both stores into React state once,
    calls db.ts from its handlers and updates its arrays when a call
    succeeds, and derives the displayed list from its state by filtering
    and sorting.  Child components call back into the page: [AddTaskModal]
    (add), [TaskItem] (check off, edit, delete; it keeps a local edit
    copy), [CategoryManager] (add, recolour, delete, select), [SearchBar],
    [LanguageToggle], [ThemeToggle].  [DataManagement] exports the stores
    and imports a file by calling db.ts directly.  A second, older layer
    that no file renders ([useTasks] over [localStorage], with the
    components [AddTask], [CategoryList], [TaskList]) is modelled too.

    ** The files

    - [Prelude] (this file): the [result] type of promises with its
      [let!] notation (scope [todo_scope]), the [invc] and
      [destruct_binds] tactics, the hint databases [todo] and [todo_rw],
      and the keyed-list library shared by the page and the stores
      ([to_map], [find_by_key], [replace_by_key], [remove_by_key]: the
      [find], [map] and [filter] calls of page.tsx) with its lemmas.
    - [JsString]: the string built-ins the code calls ([trim],
      [toLowerCase], [includes], truthiness) and [Date.now().toString()]
      ([number_to_string], with its decimal round trip and injectivity).
    - [Model]: [Task], [Category], [SortOption], [Language] and the object
      spreads [{ ...task, id }] and [{ ...task, ...updates }].
    - [IdbStore]: the contract of an IndexedDB object store as the class
      [ObjectStore] (get, put, delete, getAll, and an abstraction to a
      [gmap]); [os_add] is [store.add] (a [ConstraintError] on a taken
      key).  The instance [sorted_store], a list sorted by key, discharges
      the contract: the refinement every theorem above it relies on.
    - [Db]: db.ts, one definition per exported function, written against
      the contract.  The browser enters as two inputs: [ok] (whether the
      requests complete) and [now] ([Date.now()]).  [db_step] is any call.
    - [DataManagement]: [exportData], the file input's handler
      [handleFileChange], the two import loops, the status line, and the
      component's two controls ([dm_step]).
    - [StableSort]: [Array.prototype.sort] as a stable insertion sort, with
      the theorem that a stable sorted permutation is unique for a
      consistent comparator (so the engine's algorithm does not matter).
    - [Dates]: [getDaysRemaining] (page.tsx 121-126): [parseISO] on
      ["YYYY-MM-DD"], days from the civil date, [differenceInDays] as
      [Z.quot] by [ms_per_day]; [toISODate], the date part of
      [toISOString], through [civil_from_days], proved to invert
      [days_from_civil] and to print dates [parse_iso_date] reads back.
    - [Projection]: the filter effect (page.tsx 72-119) as
      [filteredTasks] and line 197 as [displayedTasks]; JS numbers with
      infinities for the day comparators; [localeCompare] as the class
      [Collator].
    - [Page]: the page's state ([PageState]), the load effect split at its
      [await] ([loadRead], [loadFinish]), every handler, the child
      callbacks, and three relations: [user_step] (the events the rendered
      page wires), [seq_step] (one operation at a time) and [step]
      (everything, including a load interleaved with other events, failed
      reads, and imports).  [Sys] pairs the stores with the page.
    - [CollectionSpec]: the specification's Collection State as a step
      relation on two [gmap]s ([spec_step]: add under a fresh key, merge
      keeping the key, delete, or nothing) and the page's [view] of its
      arrays; the refinement theorem [page_refines_spec].
    - [TaskItem]: the card's local state, its buttons (check, edit,
      cancel, save, delete) paired with the page as [Card], and what it
      shows ([card_view], with [formatDate]).
    - [Controls]: the local state and the events of [AddTaskModal]
      ([modal_step] and its [shouldRender] flag), [CategoryManager]
      ([cm_step]) and [LanguageToggle] ([toggleLanguage]), each calling
      the page's handlers.
    - [UseTasks]: the hook [useTasks] (module [Hook]), unused by the page:
      its state, its two [localStorage] effects ([mount], [save]) and its
      four operations, one render per operation ([run_ops]) or several
      from one handler ([batch]).
    - [Render]: the filter effect as React runs it: after a commit whose
      dependencies changed ([render]), with the render its
      [setFilteredTasks] schedules; [render_loop] runs commits with fuel.
    - [Widgets]: [ThemeToggle] with the document's class, [localStorage]
      and its icon, the root layout ([RootLayout]: language, direction,
      fonts, metadata) and the page load it gives, [SearchBar], and the
      hook-based [AddTask], [CategoryList] (with the buttons it renders)
      and [TaskList] with the hook's operations as their callbacks.
    - [App]: the composition: Home's rendered tree with every child's
      state ([App]), the events of rendered elements only ([app_event]:
      the modal while open, the manager once loaded, a card for each
      displayed task, the selects, search, toggles, export and import),
      and React's commit after each event ([commit]: the filter effect,
      keyed card reconciliation [reconcile], the modal's effect).

    ** The theorems

    - Store/UI consistency: [page_consistent_sequential] (the invariant
      [sys_inv], proved for each handler); refinement of the
      specification's Collection State, one step at a time
      ([page_refines_spec]: once loading is over, each step of a
      sequential run from a well-formed database is one [spec_step] of
      the page's view, and the view stays the stores' view).
    - Export and import: the round trip ([export_import_roundtrip]: a
      fresh database gets every record back, up to order and
      identifiers); the loop stops at the first rejected [addTask] and
      rolls nothing back ([import_tasks_stops_at_failure]: the store it
      leaves is the one the successful calls before it built); two
      records within one millisecond ([importData_same_millisecond_partial]);
      and the category links a round trip breaks
      ([import_breaks_category_links]: categories get the timestamps of
      their calls as identifiers while tasks keep the old ones).
    - Composition: after any import-free run of the rendered application
      from a loaded consistent state, each further import-free event keeps
      the page equal to the stores and is one step of the specification
      ([app_refines_spec]), through the lemma that each of its events is
      one [user_step] of the page or none ([app_event_user_step]); the
      modal's default due date is the day the page mounted
      ([modal_draft_from_mount]).
    - Liveness and termination: loading finishes in at most two steps
      from any reachable state and stays finished ([loading_completes]);
      the filter effect's renders stop after two commits
      ([render_loop_terminates]).
    - db.ts behaviour on every branch: [addTask_same_millisecond],
      [updateTask_only_given_fields], [updateTask_moves_key],
      [updateTask_not_found], [deleteTask_absent_noop],
      [updateCategory_ignores_id].
    - The projection: membership ([filteredTasks_elem]), the sort options
      and where undated tasks go ([daysAsc_undated_last],
      [daysDesc_undated_first]), independence of the engine's sort
      ([sortTasks_engine_independent]), line 197 ignoring the sort option
      ([displayedTasks_unsorted_without_filter]), and the spec's scenarios
      evaluated by [vm_compute] (among them a query with a trailing space,
      which [filteredTasks_elem] explains: the query is not trimmed).
    - Dates: [getDaysRemaining_calendar] (exact count),
      [daysBadge_tomorrow_hidden], and [modal_default_due_overdue] (the
      modal's default due date is the UTC day).
    - Failures: [handlers_fail_atomic] (a handler whose db.ts call
      rejects changes nothing, on a working or a failing browser), the
      two forms
      that lose their input when the store rejects
      ([modal_submit_loses_draft_on_failure],
      [category_submit_loses_name_on_failure]).
    - Controls, widgets and the hook: [category_submit_adds],
      [language_toggle_in_sync], [theme_not_persisted],
      [run_ops_categories_persist], [addTask_same_millisecond_duplicates],
      [batch_loses_first_add], [TaskList_throws].
    - What the code does not promise: a task added between the initial
      reads and their [setTasks] is stored but not shown
      ([load_race_hides_added_task]); a failed initial read shows an empty
      list over a non-empty store ([failed_load_hides_stored_tasks]); an
      import is not reflected ([import_not_reflected]); a blank title is
      reachable ([blank_title_reachable]); toggling then saving a card
      reverts the toggle ([toggle_then_save_reverts]).
    Each theorem with hypotheses has a witness that applies it to concrete
    stores, evaluated by [reflexivity] or [vm_compute].

    ** Bounds and fuel

    Only [render_loop] takes fuel, standing for React's commit loop, which
    has none: [render_loop_terminates] shows that a fuel of two always
    reaches the settled state, so any larger fuel gives the same result.
    Every other recursion is structural (on lists, strings and the
    iteration count of [toggle_times]).  Timestamps and
    day counts are unbounded integers: [Date.now()] stays far below 2^53,
    so JS number arithmetic on them is exact.  Dates are the
    ["YYYY-MM-DD"] strings the app writes; [toISOString] prints four-digit
    years only for the years 0 to 9999, the bound the ISO-date lemmas
    assume; local time is UTC plus a fixed offset (no daylight-saving
    shifts).

    ** Not modelled

    Styling and animation (framer-motion variants and transitions, CSS
    classes): what is shown is modelled only where the code decides it
    (the card's view, the modal's [shouldRender], the toggles' icons and
    rotations, the category list's highlight, the import status).  JSON
    text, [FileReader], [Blob] and the download link of DataManagement are
    I/O: records arrive typed and the downloaded file is the exported
    value.  date-fns [parseISO] accepts more ISO 8601 forms than the
    ["YYYY-MM-DD"] strings the date inputs write; only those are
    modelled, so a due date of another form imported from a file is read
    as invalid (the Due dates component is partly modelled).
    [lib/translations] is imported but not among the sources.  Imports,
    type declarations and props interfaces have no behaviour to
    translate.  React compares the [tasks] dependency by reference;
    Render compares it by value, which changes no computed list.
    Asynchrony is modelled where it matters (the initial load as two
    steps); the other handlers complete in one step. *)

From stdpp Require Export base list option gmap strings.
From Stdlib Require Export ZArith Lia.

(** ** Results of fallible operations *)

(** A JavaScript promise that resolves ([Ok]) or rejects ([Err]). *)
Inductive result (E A : Type) : Type :=
| Ok (a : A)
| Err (e : E).
Arguments Ok {E A} a.
Arguments Err {E A} e.

Definition result_bind {E A B} (r : result E A) (k : A -> result E B) : result E B :=
  match r with
  | Ok a => k a
  | Err e => Err e
  end.

Definition result_map {E A B} (f : A -> B) (r : result E A) : result E B :=
  result_bind r (fun a => Ok (f a)).

Definition is_ok {E A} (r : result E A) : bool :=
  match r with Ok _ => true | Err _ => false end.

Declare Scope todo_scope.
Delimit Scope todo_scope with todo.
Notation "'let!' x ':=' c 'in' k" := (result_bind c (fun x => k))
  (at level 100, x name, c at level 100, k at level 100) : todo_scope.
Notation "c '>>=!' k" := (result_bind c k) (at level 60, right associativity) : todo_scope.
Open Scope todo_scope.

Lemma result_bind_Ok {E A B} (r : result E A) (k : A -> result E B) b :
  result_bind r k = Ok b <-> exists a, r = Ok a /\ k a = Ok b.
Proof. destruct r; simpl; split; [eauto|by intros (?&[=->]&?)|done|by intros (?&?&?)]. Qed.

Lemma result_bind_Err {E A B} (r : result E A) (k : A -> result E B) e :
  result_bind r k = Err e <-> r = Err e \/ exists a, r = Ok a /\ k a = Err e.
Proof.
  destruct r; simpl; split.
  - eauto.
  - by intros [?|(?&[=->]&?)].
  - intros [=->]. by left.
  - by intros [[=->]|(?&?&?)].
Qed.

(** ** Tactics shared by the development *)

Ltac invc H := inversion H; subst; clear H.

(** Split every [result_bind] equation in the hypotheses. *)
Ltac destruct_binds :=
  repeat match goal with
  | H : result_bind _ _ = Ok _ |- _ =>
      apply result_bind_Ok in H as (?&?&?)
  end.

Create HintDb todo discriminated.
Create Rewrite HintDb todo_rw.

(** ** Lists of records keyed by a string field *)

(** The source keeps tasks and categories in arrays and finds them by their
    [id] field; IndexedDB stores them under the same field.  [to_map] views
    such an array as the finite map from key to the first record with that
    key, which is what [Array.prototype.find] returns. *)
Section keyed.
Context {V : Type} (key : V -> string).

Definition keys (l : list V) : list string := key <$> l.

Definition to_map (l : list V) : gmap string V :=
  list_to_map ((fun v => (key v, v)) <$> l).

(** [arr.filter((x) => x.id !== k)] *)
Definition remove_by_key (k : string) (l : list V) : list V :=
  filter (fun w => key w <> k) l.

(** [arr.map((x) => (x.id === k ? v : x))] *)
Definition replace_by_key (k : string) (v : V) (l : list V) : list V :=
  (fun w => if decide (key w = k) then v else w) <$> l.

(** [arr.find((x) => x.id === k)] *)
Definition find_by_key (k : string) (l : list V) : option V :=
  head (filter (fun w => key w = k) l).

Lemma to_map_cons v l : to_map (v :: l) = <[key v := v]> (to_map l).
Proof. reflexivity. Qed.

Lemma lookup_to_map l k : to_map l !! k = find_by_key k l.
Proof.
  unfold find_by_key. induction l as [|w l IH]; [done|].
  rewrite to_map_cons, filter_cons, lookup_insert.
  by case_decide.
Qed.

Lemma lookup_to_map_None l k : to_map l !! k = None <-> k ∉ keys l.
Proof.
  induction l as [|w l IH]; [split; [intros _; apply not_elem_of_nil|done]|].
  rewrite to_map_cons, lookup_insert_None, IH. unfold keys.
  rewrite fmap_cons, not_elem_of_cons. naive_solver.
Qed.

Lemma lookup_to_map_Some l k v : to_map l !! k = Some v -> k ∈ keys l.
Proof.
  intros Hk. destruct (decide (k ∈ keys l)) as [?|Hn]; [done|].
  apply lookup_to_map_None in Hn. congruence.
Qed.

Lemma find_by_key_Some k l v : find_by_key k l = Some v -> v ∈ l /\ key v = k.
Proof.
  unfold find_by_key. intros Hh.
  assert (v ∈ filter (fun w => key w = k) l) as Hv.
  { destruct (filter _ l); simpl in Hh; [done|]. injection Hh as ->. left. }
  apply list_elem_of_filter in Hv. naive_solver.
Qed.

Lemma to_map_keyed l : map_Forall (fun k v => key v = k) (to_map l).
Proof.
  induction l as [|w l IH]; [apply map_Forall_empty|].
  rewrite to_map_cons. by apply map_Forall_insert_2.
Qed.

Lemma elem_of_keys k l : k ∈ keys l <-> exists v, v ∈ l /\ key v = k.
Proof. unfold keys. rewrite list_elem_of_fmap. naive_solver. Qed.

Lemma to_map_snoc v l :
  key v ∉ keys l -> to_map (l ++ [v]) = <[key v := v]> (to_map l).
Proof.
  induction l as [|w l IH]; intros Hk; [done|].
  unfold keys in Hk; rewrite fmap_cons, elem_of_cons in Hk.
  simpl app. rewrite !to_map_cons, IH by (unfold keys; naive_solver).
  apply insert_insert_ne. naive_solver.
Qed.

Lemma to_map_remove k l : to_map (remove_by_key k l) = delete k (to_map l).
Proof.
  unfold remove_by_key. induction l as [|w l IH].
  - symmetry. apply delete_empty.
  - rewrite filter_cons, to_map_cons. case_decide as Hw.
    + rewrite to_map_cons, IH, delete_insert_ne; congruence.
    + assert (key w = k) as -> by (destruct (decide (key w = k)); tauto).
      by rewrite delete_insert_eq.
Qed.

Lemma replace_by_key_notin k v l : k ∉ keys l -> replace_by_key k v l = l.
Proof.
  unfold replace_by_key. intros Hk. rewrite <- (list_fmap_id l) at 2.
  apply list_fmap_ext. intros i w Hw. case_decide; [|done].
  destruct Hk. apply elem_of_keys. exists w. split; [|done].
  by eapply list_elem_of_lookup_2.
Qed.

Lemma to_map_replace k v l :
  key v = k -> k ∈ keys l -> to_map (replace_by_key k v l) = <[k := v]> (to_map l).
Proof.
  intros Hv. induction l as [|w l IH]; intros Hin.
  - by apply elem_of_nil in Hin.
  - unfold replace_by_key; rewrite fmap_cons, to_map_cons, to_map_cons.
    fold (replace_by_key k v l). unfold keys in Hin.
    rewrite fmap_cons, elem_of_cons in Hin. case_decide as Hw.
    + rewrite Hv, Hw, insert_insert_eq.
      destruct (decide (k ∈ keys l)) as [Hl|Hl].
      * by rewrite IH, insert_insert_eq.
      * by rewrite replace_by_key_notin.
    + rewrite IH by naive_solver. apply insert_insert_ne. congruence.
Qed.

Lemma keys_replace k v l : key v = k -> keys (replace_by_key k v l) = keys l.
Proof.
  intros Hv. unfold keys, replace_by_key. rewrite <- list_fmap_compose.
  apply list_fmap_ext. intros i w _. simpl. case_decide; congruence.
Qed.

Lemma keys_remove k l : keys (remove_by_key k l) = filter (fun j => j <> k) (keys l).
Proof.
  unfold keys, remove_by_key. induction l as [|w l IH]; [done|].
  rewrite fmap_cons, !filter_cons. case_decide; by rewrite ?fmap_cons, IH.
Qed.

Lemma NoDup_keys_remove k l : NoDup (keys l) -> NoDup (keys (remove_by_key k l)).
Proof. rewrite keys_remove. apply NoDup_filter. Qed.

Lemma NoDup_keys_snoc v l :
  NoDup (keys l) -> key v ∉ keys l -> NoDup (keys (l ++ [v])).
Proof.
  intros Hnd Hk. unfold keys in *. rewrite fmap_app, NoDup_app. simpl.
  split; [done|]. split; [|apply NoDup_singleton].
  intros j Hj ->%list_elem_of_singleton. done.
Qed.

(** Two arrays without duplicate keys that find the same record under
    every key hold the same records, in some order. *)
Lemma to_map_perm l1 l2 :
  NoDup (keys l1) -> NoDup (keys l2) -> to_map l1 = to_map l2 -> l1 ≡ₚ l2.
Proof.
  intros H1 H2 Heq.
  assert (forall l, NoDup (keys l) -> map_to_list (to_map l) ≡ₚ (fun v => (key v, v)) <$> l) as Hm.
  { intros l Hl. apply map_to_list_to_map. by rewrite <- list_fmap_compose. }
  assert (forall l : list V, (snd <$> ((fun v => (key v, v)) <$> l) : list V) = l) as Hs.
  { intros l. rewrite <- list_fmap_compose. apply list_fmap_id. }
  rewrite <- (Hs l1), <- (Hs l2), <- (Hm l1 H1), <- (Hm l2 H2), Heq. done.
Qed.
End keyed.

#[export] Hint Resolve NoDup_keys_remove NoDup_keys_snoc : todo.
#[export] Hint Rewrite @to_map_cons @to_map_remove @keys_remove : todo_rw.

(** ** Filters *)

Section filters.
Context {A : Type}.

(** [arr.filter(f)] with a boolean test is Stdlib's [List.filter]. *)
Lemma elem_of_filter_bool (f : A -> bool) (l : list A) x :
  x ∈ List.filter f l <-> x ∈ l /\ f x = true.
Proof. rewrite !list_elem_of_In. apply filter_In. Qed.

Lemma filter_bool_sublist (f : A -> bool) (l : list A) : sublist (List.filter f l) l.
Proof.
  induction l as [|x l IH]; simpl; [constructor|].
  destruct (f x); [by apply sublist_skip|by apply sublist_cons].
Qed.

Lemma filter_none (P : A -> Prop) `{!forall x, Decision (P x)} (l : list A) :
  (forall y, y ∈ l -> ~ P y) -> filter P l = [].
Proof.
  induction l as [|x l IH]; intros Hl; [done|]. rewrite filter_cons, decide_False.
  - apply IH. intros y Hy. apply Hl. by right.
  - apply Hl. by left.
Qed.

Lemma filter_all (P : A -> Prop) `{!forall x, Decision (P x)} (l : list A) :
  (forall y, y ∈ l -> P y) -> filter P l = l.
Proof.
  induction l as [|x l IH]; intros Hl; [done|]. rewrite filter_cons, decide_True.
  - f_equal. apply IH. intros y Hy. apply Hl. by right.
  - apply Hl. by left.
Qed.

(** A list in which no element outside [P] precedes an element of [P]
    is its [P]-part followed by the rest. *)
Lemma filter_split_no_inversion (P : A -> Prop) `{!forall x, Decision (P x)} (l : list A) :
  (forall l1 x l2 y, l = l1 ++ x :: l2 -> y ∈ l2 -> ~ P x -> ~ P y) ->
  l = filter P l ++ filter (fun x => ~ P x) l.
Proof.
  induction l as [|x l IH]; intros Hinv; [done|].
  assert (l = filter P l ++ filter (fun x => ~ P x) l) as Hl.
  { apply IH. intros l1 y l2 z -> Hz Hy. by apply (Hinv (x :: l1) y l2 z). }
  rewrite !filter_cons. case_decide as Hx.
  - rewrite decide_False by tauto. simpl. by f_equal.
  - rewrite decide_True by done.
    rewrite filter_none by (intros y Hy; by apply (Hinv [] x l y)).
    simpl. f_equal. symmetry. apply filter_all. intros y Hy. by apply (Hinv [] x l y).
Qed.
End filters.
