(* ===== verification/JsString.v ===== *)
(** * JavaScript string primitives used by the app

    The page filters with [String.prototype.trim], [toLowerCase] and
    [includes] (src/app/page.tsx, lines 85-88), tests strings for truthiness
    ([if (selectedCategory)], [if (!dateStr)]), and builds record identifiers
    with [Date.now().toString()] (src/app/lib/db.ts, lines 34 and 84).
    IndexedDB orders string keys by code unit.  Strings are modelled as
    [String.string]: sequences of code units below 256 (Latin-1), which is
    the part of UTF-16 these functions treat uniformly. *)

From S2P Require Import Prelude.
From Stdlib Require Import Ascii DecimalString DecimalN DecimalPos.

Local Open Scope string_scope.

(** ** Whitespace and [trim] *)

(** The characters of [WhiteSpace] and [LineTerminator] below 256:
    TAB, LF, VT, FF, CR, SPACE and NO-BREAK SPACE. *)
Definition is_ws (c : ascii) : bool :=
  bool_decide (N_of_ascii c ∈ [9; 10; 11; 12; 13; 32; 160]%N).

Fixpoint trim_start (s : string) : string :=
  match s with
  | EmptyString => EmptyString
  | String c s' => if is_ws c then trim_start s' else s
  end.

Fixpoint trim_end (s : string) : string :=
  match s with
  | EmptyString => EmptyString
  | String c s' =>
      let r := trim_end s' in
      if is_ws c && bool_decide (r = "") then "" else String c r
  end.

(** [s.trim()] *)
Definition trim (s : string) : string := trim_end (trim_start s).

(** Truthiness of a string value: only [""] is falsy. *)
Definition truthy (s : string) : bool := bool_decide (s <> "").

(** ** [toLowerCase] *)

(** Lower-casing of a code unit below 256: [A-Z] and the Latin-1 capitals
    [U+00C0-U+00DE] except the multiplication sign [U+00D7] move up by 32;
    every other unit is unchanged. *)
Definition to_lower_char (c : ascii) : ascii :=
  let n := N_of_ascii c in
  if bool_decide ((65 <= n <= 90)%N \/ ((192 <= n <= 222)%N /\ n <> 215%N))
  then ascii_of_N (n + 32) else c.

Fixpoint to_lower (s : string) : string :=
  match s with
  | EmptyString => EmptyString
  | String c s' => String (to_lower_char c) (to_lower s')
  end.

(** ** [includes] *)

(** [s.includes(q)]: [q] occurs in [s] at some position. *)
Fixpoint includes (s q : string) : bool :=
  String.prefix q s ||
  match s with
  | EmptyString => false
  | String _ s' => includes s' q
  end.

(** ** [Number.prototype.toString] on a non-negative integer *)

(** [Date.now()] is a non-negative integer number of milliseconds;
    [toString()] prints it in decimal without leading zeros. *)
Definition number_to_string (n : N) : string :=
  NilEmpty.string_of_uint (N.to_uint n).

(** The inverse parse, used only to state the round trip. *)
Definition parse_decimal (s : string) : option N :=
  N.of_uint <$> NilEmpty.uint_of_string s.

(** ** IndexedDB key order on strings: code-unit lexicographic order *)

Definition key_lt (a b : string) : Prop := String.compare a b = Lt.

#[export] Instance key_lt_dec : RelDecision key_lt.
Proof. intros a b. unfold key_lt. apply _. Defined.

(** * Properties *)

Lemma append_cons c a b : String c a +:+ b = String c (a +:+ b).
Proof. reflexivity. Qed.

Lemma append_nil_l b : "" +:+ b = b.
Proof. reflexivity. Qed.

Lemma prefix_spec q s : String.prefix q s = true <-> exists post, s = q +:+ post.
Proof.
  revert s. induction q as [|c q IH]; intros [|d s]; simpl.
  - split; eauto.
  - split; eauto.
  - split; [done|]. by intros [? ?].
  - destruct (ascii_dec c d) as [->|Hne].
    + rewrite IH. split; intros [post Hp]; exists post; rewrite ?append_cons in *; congruence.
    + split; [done|]. intros [post [=]]. congruence.
Qed.

(** [includes] is substring search: [s.includes(q)] holds exactly when [s]
    splits as [pre ++ q ++ post]. *)
Lemma includes_nil q : includes "" q = String.prefix q "".
Proof. simpl. by rewrite orb_false_r. Qed.

Lemma includes_cons c s q :
  includes (String c s) q = String.prefix q (String c s) || includes s q.
Proof. reflexivity. Qed.

Lemma includes_spec s q :
  includes s q = true <-> exists pre post, s = pre +:+ q +:+ post.
Proof.
  induction s as [|c s IH].
  - rewrite includes_nil, prefix_spec. split.
    + intros [post Hp]. by exists "", post.
    + intros [[|??] [post Hp]]; [by exists post|done].
  - rewrite includes_cons, orb_true_iff, prefix_spec, IH. split.
    + intros [[post Hp]|(pre&post&Hp)].
      * by exists "", post.
      * exists (String c pre), post. by rewrite Hp.
    + intros [[|d pre] [post Hp]]; [left; by exists post|].
      rewrite append_cons in Hp. injection Hp as -> ->. right. by exists pre, post.
Qed.

Lemma includes_empty s : includes s "" = true.
Proof. destruct s; reflexivity. Qed.

Lemma to_lower_char_idem c : to_lower_char (to_lower_char c) = to_lower_char c.
Proof. destruct c as [[] [] [] [] [] [] [] []]; reflexivity. Qed.

Lemma to_lower_idem s : to_lower (to_lower s) = to_lower s.
Proof. induction s as [|c s IH]; simpl; [done|]. by rewrite to_lower_char_idem, IH. Qed.

Lemma to_lower_app s1 s2 : to_lower (s1 +:+ s2) = to_lower s1 +:+ to_lower s2.
Proof. induction s1 as [|c s1 IH]; simpl; [done|]. by rewrite IH. Qed.

(** Lower-casing preserves substrings, so a query matches a title whose
    lower-cased form contains it. *)
Lemma includes_to_lower s q :
  includes s q = true -> includes (to_lower s) (to_lower q) = true.
Proof.
  rewrite !includes_spec. intros (pre&post&->).
  exists (to_lower pre), (to_lower post). by rewrite !to_lower_app.
Qed.

Lemma trim_start_all_ws s :
  trim_start s = "" <-> Forall (fun c => is_ws c = true) (String.list_ascii_of_string s).
Proof.
  induction s as [|c s IH]; simpl; [split; auto|].
  rewrite Forall_cons. destruct (is_ws c) eqn:Hc.
  - rewrite IH. tauto.
  - split; [done|]. by intros [? _].
Qed.

Lemma trim_end_empty s : trim_end s = "" -> trim_start s = "".
Proof.
  induction s as [|c s IH]; simpl; [done|].
  destruct (is_ws c), (bool_decide_reflect (trim_end s = "")); simpl; naive_solver.
Qed.

Lemma trim_end_of_empty s : trim_start s = "" -> trim_end s = "".
Proof.
  induction s as [|c s IH]; simpl; [done|].
  destruct (is_ws c); [|done]. intros Hs. rewrite IH by done. done.
Qed.

Lemma trim_start_idem s : trim_start (trim_start s) = trim_start s.
Proof.
  induction s as [|c s IH]; simpl; [done|].
  destruct (is_ws c) eqn:Hc; [done|]. simpl. by rewrite Hc.
Qed.

(** [s.trim()] is empty exactly when every code unit of [s] is whitespace:
    this is the test [if (searchQuery.trim())] of the page. *)
Lemma trim_empty_iff s :
  trim s = "" <-> Forall (fun c => is_ws c = true) (String.list_ascii_of_string s).
Proof.
  rewrite <- trim_start_all_ws. unfold trim. split.
  - intros H%trim_end_empty. by rewrite trim_start_idem in H.
  - intros ->. done.
Qed.

Lemma parse_number_to_string n : parse_decimal (number_to_string n) = Some n.
Proof.
  unfold parse_decimal, number_to_string. rewrite NilEmpty.usu. simpl.
  by rewrite DecimalN.Unsigned.of_to.
Qed.

(** Two timestamps give the same identifier only if they are equal. *)
#[export] Instance number_to_string_inj : Inj (=) (=) number_to_string.
Proof.
  intros n m H. apply (f_equal parse_decimal) in H.
  rewrite !parse_number_to_string in H. congruence.
Qed.

Lemma number_to_string_nonempty n : number_to_string n <> "".
Proof.
  unfold number_to_string. destruct n as [|p]; [done|]. simpl.
  pose proof (DecimalPos.Unsigned.to_uint_nonnil p) as Hp.
  destruct (Pos.to_uint p); done.
Qed.

Lemma key_lt_irrefl a : ~ key_lt a a.
Proof.
  unfold key_lt. induction a as [|c a IH]; simpl; [done|].
  unfold Ascii.compare. by rewrite N.compare_refl.
Qed.

Lemma key_lt_ne a b : key_lt a b -> a <> b.
Proof. intros H ->. by apply key_lt_irrefl in H. Qed.

Lemma key_lt_ne' a b : key_lt a b -> b <> a.
Proof. intros H ->. by apply key_lt_irrefl in H. Qed.

(** Close [a <> b] from a strict comparison in the context. *)
Ltac key_neq :=
  solve [eapply key_lt_ne; eassumption | eapply key_lt_ne'; eassumption].

Lemma key_lt_trans a b c : key_lt a b -> key_lt b c -> key_lt a c.
Proof.
  unfold key_lt. revert b c.
  induction a as [|x a IH]; intros [|y b] [|z c]; simpl; try done.
  unfold Ascii.compare.
  destruct (N.compare_spec (N_of_ascii x) (N_of_ascii y)),
    (N.compare_spec (N_of_ascii y) (N_of_ascii z)),
    (N.compare_spec (N_of_ascii x) (N_of_ascii z)); intros; try done; try lia.
  eauto.
Qed.

Lemma key_lt_total a b : key_lt a b \/ a = b \/ key_lt b a.
Proof.
  unfold key_lt. rewrite (String.compare_antisym b a).
  destruct (String.compare a b) eqn:E; simpl; auto.
  right; left. by apply String.compare_eq_iff.
Qed.

Lemma compare_refl a : String.compare a a = Eq.
Proof.
  induction a as [|c a IH]; simpl; [done|]. unfold Ascii.compare. by rewrite N.compare_refl.
Qed.

Lemma compare_not_gt a b : String.compare a b <> Gt <-> key_lt a b \/ a = b.
Proof.
  unfold key_lt. split.
  - destruct (String.compare a b) eqn:E; [right; by apply String.compare_eq_iff|by left|done].
  - intros [H | ->]; [by rewrite H|by rewrite compare_refl].
Qed.

#[export] Hint Resolve key_lt_irrefl key_lt_ne key_lt_trans number_to_string_nonempty : todo.
