(* ===== verification/Model.v ===== *)
(** * The data model of the app

    The records the page keeps and stores: [Task] (src/app/page.tsx,
    lines 27-34), [Category] with its preset colour
    (src/app/components/CategoryManager.tsx, lines 7-20), the sort options
    (page.tsx, line 42), and the object spreads the code uses to build and
    update records: [{ ...task, id }] (db.ts, lines 35 and 85) and
    [{ ...task, ...updates }] (db.ts, line 51; page.tsx, line 173).
    A [Partial<Task>] is a record of options: a field is either present
    (and then overrides) or absent. *)

From S2P Require Import Prelude JsString.

Local Open Scope string_scope.

(** ** Tasks *)

Module Task.
Record t := mk {
  id : string;
  title : string;
  description : string;
  category : string;
  dueDate : string;
  completed : bool
}.

#[global] Instance eq_dec : EqDecision t.
Proof. solve_decision. Defined.
End Task.

(** [Omit<Task, "id">]: what [AddTaskModal] submits and [db.addTask]
    receives. *)
Module NewTask.
Record t := mk {
  title : string;
  description : string;
  category : string;
  dueDate : string;
  completed : bool
}.
End NewTask.

(** [Partial<Task>]: the update payload of [updateTask]. *)
Module TaskPatch.
Record t := mk {
  id : option string;
  title : option string;
  description : option string;
  category : option string;
  dueDate : option string;
  completed : option bool
}.

Definition empty : t := mk None None None None None None.
End TaskPatch.

(** [{ ...task, id }] *)
Definition task_with_id (n : NewTask.t) (id : string) : Task.t :=
  Task.mk id (NewTask.title n) (NewTask.description n) (NewTask.category n)
    (NewTask.dueDate n) (NewTask.completed n).

(** A task read back as the fields of [Omit<Task, "id">]: what the import
    loop passes to [addTask] (its [id] is then overwritten). *)
Definition omit_id (t : Task.t) : NewTask.t :=
  NewTask.mk (Task.title t) (Task.description t) (Task.category t)
    (Task.dueDate t) (Task.completed t).

(** [{ ...task, ...updates }]: every field present in [updates] wins. *)
Definition spread_task (t : Task.t) (u : TaskPatch.t) : Task.t :=
  Task.mk (default (Task.id t) (TaskPatch.id u))
    (default (Task.title t) (TaskPatch.title u))
    (default (Task.description t) (TaskPatch.description u))
    (default (Task.category t) (TaskPatch.category u))
    (default (Task.dueDate t) (TaskPatch.dueDate u))
    (default (Task.completed t) (TaskPatch.completed u)).

(** A whole task passed as the update payload, as [TaskItem] does
    ([{ ...task, completed: !task.completed }] and [editedTask]). *)
Definition patch_of_task (t : Task.t) : TaskPatch.t :=
  TaskPatch.mk (Some (Task.id t)) (Some (Task.title t)) (Some (Task.description t))
    (Some (Task.category t)) (Some (Task.dueDate t)) (Some (Task.completed t)).

(** ** Categories *)

(** The keys of [PRESET_COLORS]. *)
Inductive preset_color := red | green | blue | purple | orange | teal.

#[export] Instance preset_color_eq_dec : EqDecision preset_color.
Proof. solve_decision. Defined.

(** [PRESET_COLORS[color]]: the colour's hex code. *)
Definition PRESET_COLORS (c : preset_color) : string :=
  match c with
  | red => "#FF6B6B"
  | green => "#4ECB71"
  | blue => "#4A9FFF"
  | purple => "#9B6DFF"
  | orange => "#FFB84D"
  | teal => "#4FD1C5"
  end.

Module Category.
Record t := mk {
  id : string;
  name : string;
  color : preset_color
}.

#[global] Instance eq_dec : EqDecision t.
Proof. solve_decision. Defined.
End Category.

(** [Omit<Category, "id">]: what [CategoryManager] submits. *)
Module NewCategory.
Record t := mk { name : string; color : preset_color }.
End NewCategory.

(** [Partial<Category>] *)
Module CategoryPatch.
Record t := mk {
  id : option string;
  name : option string;
  color : option preset_color
}.
End CategoryPatch.

Definition category_with_id (n : NewCategory.t) (id : string) : Category.t :=
  Category.mk id (NewCategory.name n) (NewCategory.color n).

Definition omit_category_id (c : Category.t) : NewCategory.t :=
  NewCategory.mk (Category.name c) (Category.color c).

Definition spread_category (c : Category.t) (u : CategoryPatch.t) : Category.t :=
  Category.mk (default (Category.id c) (CategoryPatch.id u))
    (default (Category.name c) (CategoryPatch.name u))
    (default (Category.color c) (CategoryPatch.color u)).

(** ** Options of the page *)

(** [type SortOption = "none" | "daysAsc" | "daysDesc" | "alphaAsc" | "alphaDesc"] *)
Inductive SortOption := none | daysAsc | daysDesc | alphaAsc | alphaDesc.

#[export] Instance SortOption_eq_dec : EqDecision SortOption.
Proof. solve_decision. Defined.

(** [type Language = "en" | "fa"] *)
Inductive Language := en | fa.

#[export] Instance Language_eq_dec : EqDecision Language.
Proof. solve_decision. Defined.

(** * Properties of the spreads *)

Lemma spread_task_empty t : spread_task t TaskPatch.empty = t.
Proof. by destruct t. Qed.

Lemma spread_task_whole t t' : spread_task t (patch_of_task t') = t'.
Proof. by destruct t'. Qed.

Lemma task_with_id_omit t : task_with_id (omit_id t) (Task.id t) = t.
Proof. by destruct t. Qed.

Lemma omit_id_task_with_id n i : omit_id (task_with_id n i) = n.
Proof. by destruct n. Qed.

Lemma omit_category_id_with_id n i : omit_category_id (category_with_id n i) = n.
Proof. by destruct n. Qed.

Lemma task_with_id_id n i : Task.id (task_with_id n i) = i.
Proof. reflexivity. Qed.

Lemma category_with_id_id n i : Category.id (category_with_id n i) = i.
Proof. reflexivity. Qed.

(** The merge keeps the identifier unless the payload carries one. *)
Lemma spread_task_id t u :
  Task.id (spread_task t u) = default (Task.id t) (TaskPatch.id u).
Proof. reflexivity. Qed.

Lemma spread_category_id c u :
  Category.id (spread_category c u) = default (Category.id c) (CategoryPatch.id u).
Proof. reflexivity. Qed.

#[export] Hint Rewrite spread_task_empty spread_task_whole task_with_id_id
  category_with_id_id spread_task_id spread_category_id : todo_rw.
