(* ===== verification/IdbStore.v ===== *)
(** * IndexedDB object stores with an in-line key

    [initDB] (src/app/lib/db.ts, lines 6-18) creates two object stores,
    ["tasks"] and ["categories"], both with [keyPath: "id"]: a record is
    stored under the value of its own [id] field.  The operations db.ts uses
    are [get], [getAll], [add] (fails with a [ConstraintError] when the key
    is taken), [put] (insert or overwrite) and [delete] (no error when the
    key is absent).

    [ObjectStore] is the contract of such a store, stated against its
    abstraction as a finite map from key to record; the client lemmas of
    section [store_client] (used by Db.v) are proved from the contract
    alone.  [sorted_store] implements it the way IndexedDB keeps a store: a
    list of records in strictly increasing key order (code-unit order on
    strings), so [getAll] returns records sorted by key. *)

From S2P Require Import Prelude JsString.
From Stdlib Require Import Sorted.

(** Why a database request can reject. *)
Inductive DbError :=
| ConstraintError        (** [add] with a key already in the store *)
| StorageError           (** the request failed in the browser: open, quota, I/O *)
| TaskNotFound.          (** [throw new Error("Task not found")] in [updateTask] *)

#[export] Instance DbError_eq_dec : EqDecision DbError.
Proof. solve_decision. Defined.

(** ** The contract of an object store *)

Class ObjectStore (S V : Type) (key : V -> string) := {
  os_empty : S;
  os_get : string -> S -> option V;
  os_put : V -> S -> S;
  os_delete : string -> S -> S;
  os_getAll : S -> list V;
  os_wf : S -> Prop;
  os_abs : S -> gmap string V;
  os_wf_empty : os_wf os_empty;
  os_wf_put v s : os_wf s -> os_wf (os_put v s);
  os_wf_delete k s : os_wf s -> os_wf (os_delete k s);
  os_abs_empty : os_abs os_empty = ∅;
  os_get_abs k s : os_wf s -> os_get k s = os_abs s !! k;
  os_abs_put v s : os_wf s -> os_abs (os_put v s) = <[key v := v]> (os_abs s);
  os_abs_delete k s : os_wf s -> os_abs (os_delete k s) = delete k (os_abs s);
  os_getAll_abs s : os_wf s -> to_map key (os_getAll s) = os_abs s;
  os_getAll_nodup s : os_wf s -> NoDup (keys key (os_getAll s))
}.
Arguments os_empty {S V} key {_}.

(** [store.add(v)] *)
Definition os_add {St V : Type} {key : V -> string} `{!ObjectStore St V key}
    (v : V) (s : St) : result DbError St :=
  match os_get (key v) s with
  | Some _ => Err ConstraintError
  | None => Ok (os_put v s)
  end.

(** ** Lemmas every client can use *)

Section store_client.
Context {St V : Type} {key : V -> string} {OS : ObjectStore St V key}.
Implicit Types (s : St) (v : V).

Lemma os_add_ok v s s' :
  os_wf s -> os_add v s = Ok s' ->
  os_abs s !! key v = None /\ os_abs s' = <[key v := v]> (os_abs s).
Proof.
  unfold os_add. intros Hwf. rewrite os_get_abs by done.
  destruct (os_abs s !! key v); intros [= <-]. by rewrite os_abs_put.
Qed.

Lemma os_add_fresh v s :
  os_wf s -> os_abs s !! key v = None -> os_add v s = Ok (os_put v s).
Proof. unfold os_add. intros Hwf. by rewrite os_get_abs by done; intros ->. Qed.

Lemma os_add_taken v s :
  os_wf s -> is_Some (os_abs s !! key v) -> os_add v s = Err ConstraintError.
Proof. unfold os_add. intros Hwf [w Hw]. by rewrite os_get_abs, Hw. Qed.

Lemma os_wf_add v s s' : os_wf s -> os_add v s = Ok s' -> os_wf s'.
Proof.
  unfold os_add. intros Hwf. destruct (os_get _ _); intros [= <-]. by apply os_wf_put.
Qed.

(** Every record sits under its own key. *)
Lemma os_abs_keyed s : os_wf s -> map_Forall (fun k v => key v = k) (os_abs s).
Proof. intros Hwf. rewrite <- os_getAll_abs by done. apply to_map_keyed. Qed.

(** [store.add(v)] appends [v] to what [getAll] returns, up to order. *)
Lemma os_add_getAll v s s' :
  os_wf s -> os_add v s = Ok s' -> os_getAll s' ≡ₚ os_getAll s ++ [v].
Proof.
  intros Hwf Hadd. pose proof (os_wf_add v s s' Hwf Hadd) as Hwf'.
  apply os_add_ok in Hadd as [Hfree Habs]; [|done].
  assert (key v ∉ keys key (os_getAll s)) as Hk.
  { apply lookup_to_map_None. by rewrite os_getAll_abs. }
  apply (to_map_perm key); [by apply os_getAll_nodup|by apply NoDup_keys_snoc; [apply os_getAll_nodup|]|].
  by rewrite to_map_snoc, !os_getAll_abs.
Qed.

(** A fresh store lists nothing. *)
Lemma os_getAll_empty : os_getAll (os_empty key) = [].
Proof.
  apply Permutation_nil. symmetry. apply (to_map_perm key); [apply os_getAll_nodup, os_wf_empty|constructor|].
  by rewrite os_getAll_abs, os_abs_empty by apply os_wf_empty.
Qed.

Lemma os_get_key k s v : os_wf s -> os_get k s = Some v -> key v = k.
Proof. intros Hwf. rewrite os_get_abs by done. intros Hk. by apply (os_abs_keyed s Hwf). Qed.
End store_client.

#[export] Hint Resolve os_wf_put os_wf_delete os_wf_add os_wf_empty : todo.

(** ** The implementation: a list sorted by key *)

Section sorted_store.
Context {V : Type} (key : V -> string).
Implicit Types (s : list V) (v : V).

Fixpoint sl_get (k : string) s : option V :=
  match s with
  | [] => None
  | w :: s' =>
      match String.compare k (key w) with
      | Lt => None
      | Eq => Some w
      | Gt => sl_get k s'
      end
  end.

Fixpoint sl_put v s : list V :=
  match s with
  | [] => [v]
  | w :: s' =>
      match String.compare (key v) (key w) with
      | Lt => v :: s
      | Eq => v :: s'
      | Gt => w :: sl_put v s'
      end
  end.

Fixpoint sl_delete (k : string) s : list V :=
  match s with
  | [] => []
  | w :: s' =>
      match String.compare k (key w) with
      | Lt => s
      | Eq => s'
      | Gt => w :: sl_delete k s'
      end
  end.

Definition key_order (a b : V) : Prop := key_lt (key a) (key b).

Definition sl_wf s : Prop := Sorted key_order s.

Lemma compare_cases a b :
  (String.compare a b = Lt /\ key_lt a b) \/ (String.compare a b = Eq /\ a = b) \/
  (String.compare a b = Gt /\ key_lt b a).
Proof.
  unfold key_lt. rewrite (String.compare_antisym b a).
  destruct (String.compare a b) eqn:E; simpl; auto.
  right; left. split; [done|]. by apply String.compare_eq_iff.
Qed.

(** Keys after the head of a sorted store are greater than it. *)
Lemma sl_wf_cons_inv w s :
  sl_wf (w :: s) -> sl_wf s /\ forall k, k ∈ keys key s -> key_lt (key w) k.
Proof.
  intros Hs. apply Sorted_StronglySorted in Hs; [|intros a b c; apply key_lt_trans].
  apply StronglySorted_inv in Hs as [Hs Hall]. split.
  - by apply StronglySorted_Sorted.
  - intros k Hk. apply elem_of_keys in Hk as (u&Hu&<-). rewrite Forall_forall in Hall.
    by apply Hall.
Qed.

Lemma sl_not_in_below k w s :
  sl_wf (w :: s) -> key_lt k (key w) -> k ∉ keys key (w :: s).
Proof.
  intros [_ Hall]%sl_wf_cons_inv Hlt. unfold keys. rewrite fmap_cons, not_elem_of_cons.
  split.
  - key_neq.
  - intros Hin. apply (key_lt_irrefl k). eapply key_lt_trans; [exact Hlt|]. by apply Hall.
Qed.

Lemma sl_get_spec k s : sl_wf s -> sl_get k s = to_map key s !! k.
Proof.
  induction s as [|w s IH]; intros Hs; [done|]. simpl.
  destruct (compare_cases k (key w)) as [[-> Hlt]|[[-> ->]|[-> Hgt]]].
  - symmetry. apply lookup_to_map_None. by apply sl_not_in_below.
  - rewrite to_map_cons. by rewrite lookup_insert_eq.
  - rewrite to_map_cons, lookup_insert_ne.
    + apply IH. by apply sl_wf_cons_inv in Hs as [??].
    + key_neq.
Qed.

Lemma sl_put_spec v s : to_map key (sl_put v s) = <[key v := v]> (to_map key s).
Proof.
  induction s as [|w s IH]; [done|]. simpl.
  destruct (compare_cases (key v) (key w)) as [[-> Hlt]|[[-> Heq]|[-> Hgt]]].
  - done.
  - rewrite !to_map_cons, Heq. by rewrite insert_insert_eq.
  - rewrite !to_map_cons, IH. apply insert_insert_ne. key_neq.
Qed.

Lemma sl_delete_spec k s : sl_wf s -> to_map key (sl_delete k s) = delete k (to_map key s).
Proof.
  induction s as [|w s IH]; intros Hs; [symmetry; apply delete_empty|]. simpl.
  destruct (compare_cases k (key w)) as [[-> Hlt]|[[-> ->]|[-> Hgt]]].
  - symmetry. apply delete_id, lookup_to_map_None. by apply sl_not_in_below.
  - rewrite to_map_cons, delete_insert_eq. symmetry. apply delete_id, lookup_to_map_None.
    apply sl_wf_cons_inv in Hs as [_ Hall]. intros Hin%Hall. by apply (key_lt_irrefl (key w)).
  - apply sl_wf_cons_inv in Hs as [Hs _]. rewrite !to_map_cons, IH by done.
    rewrite delete_insert_ne; [done|key_neq].
Qed.

Lemma sl_put_hd w v s :
  key_order w v -> HdRel key_order w s -> HdRel key_order w (sl_put v s).
Proof.
  intros Hwv Hs. destruct s as [|u s]; simpl; [by constructor|].
  destruct (String.compare (key v) (key u)); constructor; try done; by invc Hs.
Qed.

Lemma sl_wf_put v s : sl_wf s -> sl_wf (sl_put v s).
Proof.
  unfold sl_wf. induction s as [|w s IH]; intros Hs; simpl; [repeat constructor|].
  destruct (compare_cases (key v) (key w)) as [[-> Hlt]|[[-> Heq]|[-> Hgt]]].
  - constructor; [done|by constructor].
  - invc Hs. constructor; [done|]. destruct s as [|u s]; constructor.
    match goal with H : HdRel _ _ (_ :: _) |- _ => invc H end.
    unfold key_order in *. by rewrite Heq.
  - invc Hs. constructor; [by apply IH|]. by apply sl_put_hd.
Qed.

Lemma sl_wf_delete k s : sl_wf s -> sl_wf (sl_delete k s).
Proof.
  induction s as [|w s IH]; intros Hs; simpl; [done|].
  destruct (String.compare k (key w)); [by invc Hs|done|].
  pose proof Hs as Hs'. apply sl_wf_cons_inv in Hs' as [Hs' Hall].
  constructor; [by apply IH|].
  destruct (sl_delete k s) as [|u s''] eqn:Hd; constructor.
  apply Hall. apply elem_of_keys. exists u. split; [|done].
  assert (u ∈ sl_delete k s) as Hu by (rewrite Hd; left).
  clear -Hu. induction s as [|x s IHs]; simpl in Hu; [by apply not_elem_of_nil in Hu|].
  destruct (String.compare k (key x)); [by right|done|].
  apply elem_of_cons in Hu as [->|Hu]; [left|right; auto].
Qed.

Lemma sl_nodup s : sl_wf s -> NoDup (keys key s).
Proof.
  induction s as [|w s IH]; intros Hs; [constructor|].
  apply sl_wf_cons_inv in Hs as [Hs Hall]. unfold keys; rewrite fmap_cons.
  constructor; [|by apply IH]. intros Hin%Hall. by apply (key_lt_irrefl (key w)).
Qed.

#[export] Instance sorted_store : ObjectStore (list V) V key := {
  os_empty := [];
  os_get := sl_get;
  os_put := sl_put;
  os_delete := sl_delete;
  os_getAll s := s;
  os_wf := sl_wf;
  os_abs := to_map key;
  os_wf_empty := Sorted_nil _;
  os_wf_put := sl_wf_put;
  os_wf_delete := sl_wf_delete;
  os_abs_empty := eq_refl;
  os_get_abs := sl_get_spec;
  os_abs_put v s _ := sl_put_spec v s;
  os_abs_delete := sl_delete_spec;
  os_getAll_abs s _ := eq_refl;
  os_getAll_nodup := sl_nodup
}.
End sorted_store.
