(* ===== verification/Db.v ===== *)
(** * The persistence layer: src/app/lib/db.ts

    Each exported function of db.ts opens the database ([initDB]) and issues
    one or two IndexedDB requests.  A function here takes the two object
    stores ([DB]) and returns the new stores with its result, or the error
    its promise rejects with.  Two inputs come from the browser:
    - [ok]: whether the browser completes the requests ([false]: opening the
      database or a request fails, e.g. quota or I/O; IndexedDB then aborts
      the request's transaction and the store is unchanged);
    - [now]: the value of [Date.now()] read by [addTask]/[addCategory].
    The functions are written against the [ObjectStore] contract, so every
    theorem of this file holds for any implementation of it. *)

From S2P Require Import Prelude JsString Model IdbStore.

Section db.
Context {TS CS : Type}.
Context `{!ObjectStore TS Task.t Task.id} `{!ObjectStore CS Category.t Category.id}.

(** The database ["todo-app-db"] with its two object stores. *)
Record DB := mkDB { tasks_store : TS; categories_store : CS }.

Definition set_tasks (s : TS) (db : DB) : DB := mkDB s (categories_store db).
Definition set_categories (s : CS) (db : DB) : DB := mkDB (tasks_store db) s.

(** [initDB] on a fresh profile: both stores are created empty. *)
Definition initDB : DB := mkDB (os_empty Task.id) (os_empty Category.id).

Definition db_wf (db : DB) : Prop := os_wf (tasks_store db) /\ os_wf (categories_store db).

(** [getAllTasks]: on failure the error is logged and [[]] returned. *)
Definition getAllTasks (ok : bool) (db : DB) : list Task.t :=
  if ok then os_getAll (tasks_store db) else [].

(** [addTask]: the identifier is [Date.now().toString()]. *)
Definition addTask (ok : bool) (now : N) (task : NewTask.t) (db : DB)
    : result DbError (Task.t * DB) :=
  if negb ok then Err StorageError else
  let newTask := task_with_id task (number_to_string now) in
  let! s := os_add newTask (tasks_store db) in
  Ok (newTask, set_tasks s db).

(** [updateTask]: read the record, spread the updates over it, [put] it. *)
Definition updateTask (ok : bool) (id : string) (updates : TaskPatch.t) (db : DB)
    : result DbError (Task.t * DB) :=
  if negb ok then Err StorageError else
  match os_get id (tasks_store db) with
  | None => Err TaskNotFound
  | Some task =>
      let updatedTask := spread_task task updates in
      Ok (updatedTask, set_tasks (os_put updatedTask (tasks_store db)) db)
  end.

(** [deleteTask] *)
Definition deleteTask (ok : bool) (id : string) (db : DB) : result DbError DB :=
  if negb ok then Err StorageError else Ok (set_tasks (os_delete id (tasks_store db)) db).

Definition getAllCategories (ok : bool) (db : DB) : list Category.t :=
  if ok then os_getAll (categories_store db) else [].

Definition addCategory (ok : bool) (now : N) (category : NewCategory.t) (db : DB)
    : result DbError (Category.t * DB) :=
  if negb ok then Err StorageError else
  let newCategory := category_with_id category (number_to_string now) in
  let! s := os_add newCategory (categories_store db) in
  Ok (newCategory, set_categories s db).

(** [updateCategory(id, updates)] is [db.put("categories", updates)]: the
    [id] argument is not used and nothing is read first. *)
Definition updateCategory (ok : bool) (id : string) (updates : Category.t) (db : DB)
    : result DbError DB :=
  if negb ok then Err StorageError else
  Ok (set_categories (os_put updates (categories_store db)) db).

Definition deleteCategory (ok : bool) (id : string) (db : DB) : result DbError DB :=
  if negb ok then Err StorageError else
  Ok (set_categories (os_delete id (categories_store db)) db).

(** Every call db.ts offers, with arbitrary arguments and browser
    behaviour: a step of the database as the whole app drives it. *)
Inductive db_step : DB -> DB -> Prop :=
| step_addTask ok now t db r db' :
    addTask ok now t db = Ok (r, db') -> db_step db db'
| step_updateTask ok id u db r db' :
    updateTask ok id u db = Ok (r, db') -> db_step db db'
| step_deleteTask ok id db db' :
    deleteTask ok id db = Ok db' -> db_step db db'
| step_addCategory ok now c db r db' :
    addCategory ok now c db = Ok (r, db') -> db_step db db'
| step_updateCategory ok id c db db' :
    updateCategory ok id c db = Ok db' -> db_step db db'
| step_deleteCategory ok id db db' :
    deleteCategory ok id db = Ok db' -> db_step db db'.

(** ** Functional behaviour *)

Lemma db_wf_initDB : db_wf initDB.
Proof. split; apply os_wf_empty. Qed.

(** [addTask] on a working browser stores the task under the decimal
    timestamp when no record has that key, and rejects with a
    [ConstraintError] otherwise, leaving the store unchanged. *)
Lemma addTask_spec now t db :
  db_wf db ->
  addTask true now t db =
    match os_abs (tasks_store db) !! number_to_string now with
    | None =>
        Ok (task_with_id t (number_to_string now),
            set_tasks (os_put (task_with_id t (number_to_string now)) (tasks_store db)) db)
    | Some _ => Err ConstraintError
    end.
Proof.
  intros [Hwf _]. unfold addTask, os_add; simpl.
  rewrite os_get_abs by done.
  by destruct (os_abs _ !! _).
Qed.

Lemma addCategory_spec now c db :
  db_wf db ->
  addCategory true now c db =
    match os_abs (categories_store db) !! number_to_string now with
    | None =>
        Ok (category_with_id c (number_to_string now),
            set_categories (os_put (category_with_id c (number_to_string now)) (categories_store db)) db)
    | Some _ => Err ConstraintError
    end.
Proof.
  intros [_ Hwf]. unfold addCategory, os_add; simpl.
  rewrite os_get_abs by done.
  by destruct (os_abs _ !! _).
Qed.

Lemma addTask_abs now t db r db' :
  db_wf db -> addTask true now t db = Ok (r, db') ->
  r = task_with_id t (number_to_string now) /\
  os_abs (tasks_store db) !! number_to_string now = None /\
  os_abs (tasks_store db') = <[number_to_string now := r]> (os_abs (tasks_store db)) /\
  categories_store db' = categories_store db.
Proof.
  intros Hwf. rewrite addTask_spec by done.
  destruct (os_abs _ !! _) eqn:E; [done|]. intros [= <- <-]. simpl.
  split; [done|]. split; [done|]. split; [|done].
  rewrite os_abs_put by apply Hwf. done.
Qed.

Lemma updateTask_spec id u db :
  db_wf db ->
  updateTask true id u db =
    match os_abs (tasks_store db) !! id with
    | None => Err TaskNotFound
    | Some task =>
        Ok (spread_task task u, set_tasks (os_put (spread_task task u) (tasks_store db)) db)
    end.
Proof. intros [Hwf _]. unfold updateTask; simpl. by rewrite os_get_abs. Qed.

(** Each call keeps both stores well formed. *)
Lemma addTask_wf ok now t db r db' :
  db_wf db -> addTask ok now t db = Ok (r, db') -> db_wf db'.
Proof.
  intros [??]. destruct ok; [|done]. unfold addTask; simpl.
  destruct (os_add _ _) eqn:E; [|done]. intros [= _ <-]. split; simpl; eauto with todo.
Qed.

Lemma updateTask_wf ok id u db r db' :
  db_wf db -> updateTask ok id u db = Ok (r, db') -> db_wf db'.
Proof.
  intros [??]. destruct ok; [|done]. unfold updateTask; simpl.
  destruct (os_get _ _); [|done]. intros [= _ <-]. split; simpl; eauto with todo.
Qed.

Lemma deleteTask_wf ok id db db' : db_wf db -> deleteTask ok id db = Ok db' -> db_wf db'.
Proof. intros [??]. destruct ok; [|done]. intros [= <-]. split; simpl; eauto with todo. Qed.

Lemma addCategory_wf ok now c db r db' :
  db_wf db -> addCategory ok now c db = Ok (r, db') -> db_wf db'.
Proof.
  intros [??]. destruct ok; [|done]. unfold addCategory; simpl.
  destruct (os_add _ _) eqn:E; [|done]. intros [= _ <-]. split; simpl; eauto with todo.
Qed.

Lemma updateCategory_wf ok id c db db' :
  db_wf db -> updateCategory ok id c db = Ok db' -> db_wf db'.
Proof. intros [??]. destruct ok; [|done]. intros [= <-]. split; simpl; eauto with todo. Qed.

Lemma deleteCategory_wf ok id db db' :
  db_wf db -> deleteCategory ok id db = Ok db' -> db_wf db'.
Proof. intros [??]. destruct ok; [|done]. intros [= <-]. split; simpl; eauto with todo. Qed.

Lemma db_wf_step db db' : db_step db db' -> db_wf db -> db_wf db'.
Proof.
  destruct 1; intros Hwf.
  - by eapply addTask_wf.
  - by eapply updateTask_wf.
  - by eapply deleteTask_wf.
  - by eapply addCategory_wf.
  - by eapply updateCategory_wf.
  - by eapply deleteCategory_wf.
Qed.

Lemma db_wf_reachable db : rtc db_step initDB db -> db_wf db.
Proof.
  apply (rtc_ind_r (fun d => db_wf d)); [apply db_wf_initDB|].
  intros y z _ Hyz IH. eauto using db_wf_step.
Qed.

(** A successful add appends the new record to what [getAll] returns. *)
Lemma addTask_getAll ok now t db r db' :
  db_wf db -> addTask ok now t db = Ok (r, db') ->
  r = task_with_id t (number_to_string now) /\ db_wf db' /\
  os_getAll (tasks_store db') ≡ₚ os_getAll (tasks_store db) ++ [r] /\
  categories_store db' = categories_store db.
Proof.
  intros Hwf E. pose proof (addTask_wf _ _ _ _ _ _ Hwf E) as Hwf'.
  destruct ok; [|done]. unfold addTask in E; simpl in E.
  destruct (os_add _ _) as [s|] eqn:Hadd; [|done]. injection E as <- <-.
  split; [done|]. split; [done|]. split; [|done]. by apply os_add_getAll; [apply Hwf|].
Qed.

Lemma addCategory_getAll ok now c db r db' :
  db_wf db -> addCategory ok now c db = Ok (r, db') ->
  r = category_with_id c (number_to_string now) /\ db_wf db' /\
  os_getAll (categories_store db') ≡ₚ os_getAll (categories_store db) ++ [r] /\
  tasks_store db' = tasks_store db.
Proof.
  intros Hwf E. pose proof (addCategory_wf _ _ _ _ _ _ Hwf E) as Hwf'.
  destruct ok; [|done]. unfold addCategory in E; simpl in E.
  destruct (os_add _ _) as [s|] eqn:Hadd; [|done]. injection E as <- <-.
  split; [done|]. split; [done|]. split; [|done]. by apply os_add_getAll; [apply Hwf|].
Qed.

Lemma addCategory_abs now c db r db' :
  db_wf db -> addCategory true now c db = Ok (r, db') ->
  r = category_with_id c (number_to_string now) /\
  os_abs (categories_store db) !! number_to_string now = None /\
  os_abs (categories_store db') = <[number_to_string now := r]> (os_abs (categories_store db)) /\
  tasks_store db' = tasks_store db.
Proof.
  intros [_ Hwf]. unfold addCategory, os_add; simpl. rewrite os_get_abs by done.
  destruct (os_abs _ !! _) eqn:E; [done|]. intros [= <- <-]. simpl.
  split; [done|]. split; [done|]. split; [|done]. by rewrite os_abs_put.
Qed.

Lemma deleteTask_abs id db db' :
  db_wf db -> deleteTask true id db = Ok db' ->
  os_abs (tasks_store db') = delete id (os_abs (tasks_store db)) /\
  categories_store db' = categories_store db.
Proof. intros [Hwf _] [= <-]. simpl. split; [|done]. by apply os_abs_delete. Qed.

(** [updateCategory] is an upsert of the payload under the payload's own
    [id]. *)
Lemma updateCategory_abs id c db db' :
  db_wf db -> updateCategory true id c db = Ok db' ->
  os_abs (categories_store db') = <[Category.id c := c]> (os_abs (categories_store db)).
Proof. intros Hwf [= <-]. simpl. by rewrite os_abs_put by apply Hwf. Qed.

Lemma deleteCategory_abs id db db' :
  db_wf db -> deleteCategory true id db = Ok db' ->
  os_abs (categories_store db') = delete id (os_abs (categories_store db)) /\
  tasks_store db' = tasks_store db.
Proof. intros [_ Hwf] [= <-]. simpl. split; [|done]. by apply os_abs_delete. Qed.

(** ** Properties *)


(** C9: Two tasks added within the same millisecond collide: the second
    [addTask] rejects with a [ConstraintError] (the identifier is the
    timestamp alone). *)
Theorem addTask_same_millisecond now t1 t2 db r db1 :
  db_wf db -> addTask true now t1 db = Ok (r, db1) ->
  addTask true now t2 db1 = Err ConstraintError.
Proof.
  intros Hwf H1. pose proof (addTask_wf _ _ _ _ _ _ Hwf H1) as Hwf1.
  apply addTask_abs in H1 as (->&_&Habs&_); [|done].
  rewrite addTask_spec, Habs, lookup_insert_eq by done. done.
Qed.

(** C10: [updateTask] with a payload that does not carry another identifier
    replaces the record under [id] by the old record with the payload's
    fields spread over it, and leaves every other record as it was. *)
Theorem updateTask_only_given_fields id u db r db' :
  db_wf db -> TaskPatch.id u = None \/ TaskPatch.id u = Some id ->
  updateTask true id u db = Ok (r, db') ->
  exists old, os_abs (tasks_store db) !! id = Some old /\ r = spread_task old u /\
    os_abs (tasks_store db') !! id = Some (spread_task old u) /\
    (forall k, k <> id -> os_abs (tasks_store db') !! k = os_abs (tasks_store db) !! k).
Proof.
  intros Hwf Hu. rewrite updateTask_spec by done.
  destruct (os_abs _ !! id) as [old|] eqn:Hold; [|done]. intros [= <- <-].
  assert (Task.id (spread_task old u) = id) as Hid.
  { rewrite spread_task_id. pose proof (os_abs_keyed _ (proj1 Hwf) id old Hold).
    destruct Hu as [-> | ->]; done. }
  exists old. simpl. rewrite os_abs_put by apply Hwf. rewrite Hid.
  split; [done|]. split; [done|]. split; [by rewrite lookup_insert_eq|].
  intros k Hk. by rewrite lookup_insert_ne.
Qed.

(** C19: A payload carrying a different [id] is not rejected: the record is
    written under the new key and the old record stays under [id]. *)
Theorem updateTask_moves_key id id' u db r db' :
  db_wf db -> TaskPatch.id u = Some id' -> id' <> id ->
  updateTask true id u db = Ok (r, db') ->
  os_abs (tasks_store db') !! id = os_abs (tasks_store db) !! id /\
  os_abs (tasks_store db') !! id' = Some r.
Proof.
  intros Hwf Hu Hne. rewrite updateTask_spec by done.
  destruct (os_abs _ !! id) as [old|] eqn:Hold; [|done]. intros [= <- <-].
  simpl. rewrite os_abs_put by apply Hwf. rewrite spread_task_id, Hu. simpl.
  rewrite lookup_insert_ne by congruence. by rewrite lookup_insert_eq.
Qed.

(** C20: Updating an identifier that is not stored rejects with "Task not
    found". *)
Lemma updateTask_not_found id u db :
  db_wf db -> os_abs (tasks_store db) !! id = None ->
  updateTask true id u db = Err TaskNotFound.
Proof. intros Hwf Hnone. by rewrite updateTask_spec, Hnone. Qed.

(** Deleting is idempotent: an absent identifier is not an error and
    leaves the store as it was. *)
Theorem deleteTask_absent_noop id db :
  db_wf db -> os_abs (tasks_store db) !! id = None ->
  exists db', deleteTask true id db = Ok db' /\
    os_abs (tasks_store db') = os_abs (tasks_store db).
Proof.
  intros Hwf Hnone. eexists. split; [reflexivity|]. simpl.
  rewrite os_abs_delete by apply Hwf. by apply delete_id.
Qed.

(** C21: [updateCategory] neither reads the record under [id] nor checks the
    payload against it: a payload with another identifier is written
    under its own key, and the record under [id] stays as it was. *)
Theorem updateCategory_ignores_id id c db db' :
  db_wf db -> Category.id c <> id -> updateCategory true id c db = Ok db' ->
  os_abs (categories_store db') !! id = os_abs (categories_store db) !! id /\
  os_abs (categories_store db') !! Category.id c = Some c.
Proof.
  intros Hwf Hne E. rewrite (updateCategory_abs _ _ _ _ Hwf E).
  split; [by apply lookup_insert_ne|by apply lookup_insert_eq].
Qed.
End db.

Arguments DB : clear implicits.
Arguments initDB {_ _ _ _}.

(** * The calls on the list-backed stores *)

Notation ListDB := (DB (list Task.t) (list Category.t)).

Definition sample_new_task : NewTask.t := NewTask.mk "Buy milk" "" "" "" false.
Definition sample_task : Task.t := task_with_id sample_new_task "5".
Definition sample_category : Category.t := Category.mk "7" "Home" blue.
Definition sample_db : ListDB := mkDB [sample_task] [sample_category].
Definition sample_patch : TaskPatch.t := TaskPatch.mk None None None None None (Some true).
Definition moving_patch : TaskPatch.t := TaskPatch.mk (Some "6") None None None None None.

(** The task map of a list-backed database. *)
Definition task_map (db : ListDB) : gmap string Task.t := os_abs (key:=Task.id) (tasks_store db).
Definition category_map (db : ListDB) : gmap string Category.t :=
  os_abs (key:=Category.id) (categories_store db).

Lemma sample_db_wf : db_wf sample_db.
Proof. split; repeat constructor. Qed.



Lemma addTask_same_millisecond_witness :
  addTask true 5 sample_new_task (initDB : ListDB) = Ok (sample_task, mkDB [sample_task] []) /\
  addTask true 5 sample_new_task (mkDB [sample_task] [] : ListDB) = Err ConstraintError.
Proof.
  split; [reflexivity|].
  apply (addTask_same_millisecond 5 sample_new_task sample_new_task initDB sample_task).
  - apply db_wf_initDB.
  - reflexivity.
Defined.

Lemma updateTask_only_given_fields_witness :
  task_map (mkDB [spread_task sample_task sample_patch] [sample_category]) !! "5" =
    Some (spread_task sample_task sample_patch).
Proof.
  destruct (updateTask_only_given_fields "5" sample_patch sample_db
    (spread_task sample_task sample_patch) (mkDB [spread_task sample_task sample_patch] [sample_category]))
    as (old & Hold & _ & Hnew & _).
  - apply sample_db_wf.
  - left; reflexivity.
  - reflexivity.
  - vm_compute in Hold. injection Hold as <-. exact Hnew.
Defined.

Lemma updateTask_moves_key_witness :
  task_map (mkDB [sample_task; spread_task sample_task moving_patch] [sample_category]) !! "5" =
    task_map sample_db !! "5" /\
  task_map (mkDB [sample_task; spread_task sample_task moving_patch] [sample_category]) !! "6" =
    Some (spread_task sample_task moving_patch).
Proof.
  apply (updateTask_moves_key "5" "6" moving_patch sample_db).
  - apply sample_db_wf.
  - reflexivity.
  - discriminate.
  - reflexivity.
Defined.

Lemma updateTask_not_found_witness : updateTask true "9" sample_patch sample_db = Err TaskNotFound.
Proof. apply updateTask_not_found; [apply sample_db_wf|reflexivity]. Defined.

Lemma deleteTask_absent_noop_witness :
  exists db', deleteTask true "9" sample_db = Ok db' /\ task_map db' = task_map sample_db.
Proof. apply deleteTask_absent_noop; [apply sample_db_wf|reflexivity]. Defined.

Lemma updateCategory_ignores_id_witness :
  category_map (mkDB [sample_task] [sample_category; Category.mk "8" "Work" red]) !! "7" =
    category_map sample_db !! "7" /\
  category_map (mkDB [sample_task] [sample_category; Category.mk "8" "Work" red]) !! "8" =
    Some (Category.mk "8" "Work" red).
Proof.
  apply (updateCategory_ignores_id "7" (Category.mk "8" "Work" red) sample_db).
  - apply sample_db_wf.
  - discriminate.
  - reflexivity.
Defined.
