(* ===== verification/DataManagement.v ===== *)
(** * Export and import: src/app/components/DataManagement.tsx

    [exportData] (lines 7-17) serialises [getAllTasks()] and
    [getAllCategories()]; [importData] (lines 19-39) parses a file and
    calls [addTask] for each element of [data.tasks], then [addCategory]
    for each element of [data.categories], awaiting each call, and reports
    "Data imported successfully" or, on any exception, "Error importing
    data".  Nothing is rolled back: the records added before the failing
    call stay in the store.  The component calls db.ts directly; it does not
    tell the page, whose state is not refreshed.

    The parsed payload is [ImportData]: a field that is missing or not
    iterable is [None] ([for ... of] then throws).  JSON text and the
    records' field-level shape are not modelled: records arrive as [Task.t]
    and [Category.t].  [env i] is the browser's behaviour at the [i]-th
    database call of the import: whether it completes and the value of
    [Date.now()] it reads. *)

From S2P Require Import Prelude JsString Model IdbStore Db.

Local Open Scope string_scope.

Record ImportData := mkImportData {
  data_tasks : option (list Task.t);
  data_categories : option (list Category.t)
}.

Definition import_ok_msg : string := "Data imported successfully".
Definition import_error_msg : string := "Error importing data".

(** What the component's two controls do (lines 41-55): the export
    button ([onClick={exportData}], line 44) and the file input
    ([onChange={importData}], line 51). *)
Inductive DMEvent :=
| DMExport (okT okC : bool)
| DMImport (env : nat -> bool * N) (file : option (option ImportData)).

Section data_management.
Context {TS CS : Type}.
Context `{!ObjectStore TS Task.t Task.id} `{!ObjectStore CS Category.t Category.id}.

Implicit Types (db : DB TS CS) (env : nat -> bool * N).

(** [exportData]: the snapshot written to the file. *)
Definition exportData (okT okC : bool) db : ImportData :=
  mkImportData (Some (getAllTasks okT db)) (Some (getAllCategories okC db)).

(** [for (const task of data.tasks) await addTask(task)]: the store after
    the loop, the index of the next call, and whether it completed. *)
Fixpoint import_tasks env (i : nat) (ts : list Task.t) db : DB TS CS * nat * bool :=
  match ts with
  | [] => (db, i, true)
  | t :: ts' =>
      match addTask (env i).1 (env i).2 (omit_id t) db with
      | Ok (_, db') => import_tasks env (S i) ts' db'
      | Err _ => (db, S i, false)
      end
  end.

Fixpoint import_categories env (i : nat) (cs : list Category.t) db : DB TS CS * nat * bool :=
  match cs with
  | [] => (db, i, true)
  | c :: cs' =>
      match addCategory (env i).1 (env i).2 (omit_category_id c) db with
      | Ok (_, db') => import_categories env (S i) cs' db'
      | Err _ => (db, S i, false)
      end
  end.

(** [reader.onload]: the store afterwards and the status message.
    [None] for [data] is a file [JSON.parse] rejects. *)
Definition importData env (data : option ImportData) db : DB TS CS * string :=
  match data with
  | None => (db, import_error_msg)
  | Some d =>
      match data_tasks d with
      | None => (db, import_error_msg)
      | Some ts =>
          let '(db1, i, okT) := import_tasks env 0 ts db in
          if negb okT then (db1, import_error_msg) else
          match data_categories d with
          | None => (db1, import_error_msg)
          | Some cs =>
              let '(db2, _, okC) := import_categories env i cs db1 in
              (db2, if okC then import_ok_msg else import_error_msg)
          end
      end
  end.

(** The file input's [onChange] (lines 19-39, wired at line 51) with the
    component's [importStatus] (line 5): nothing happens without a
    file; otherwise the reader's [onload] runs the import and sets the
    status.  [file] is [None] when no file was chosen, and [Some data]
    with the parse of its text otherwise. *)
Definition handleFileChange env (file : option (option ImportData)) db (importStatus : string)
    : DB TS CS * string :=
  match file with
  | None => (db, importStatus)
  | Some data => importData env data db
  end.

(** The paragraph of line 53: shown only for a non-empty status. *)
Definition importStatus_view (importStatus : string) : option string :=
  if truthy importStatus then Some importStatus else None.

(** The rendered component: the stores, the status line and the file the
    browser downloads after the event. *)
Definition dm_step (ev : DMEvent) db (importStatus : string) : DB TS CS * string * option ImportData :=
  match ev with
  | DMExport okT okC => (db, importStatus, Some (exportData okT okC db))
  | DMImport env file =>
      let '(db', status) := handleFileChange env file db importStatus in (db', status, None)
  end.

(** A browser that completes every call, the [k]-th of which reads
    [Date.now() = base + k]: successive calls a millisecond apart. *)
Definition env_seq (base : N) : nat -> bool * N := fun k => (true, (base + N.of_nat k)%N).

(** ** Properties *)

Lemma import_tasks_wf env i ts db :
  db_wf db -> db_wf (import_tasks env i ts db).1.1.
Proof.
  revert i db. induction ts as [|t ts IH]; intros i db Hwf; simpl; [done|].
  destruct (addTask _ _ _ db) as [[r db']|] eqn:E; [|done].
  apply IH. by eapply addTask_wf.
Qed.

Lemma import_categories_wf env i cs db :
  db_wf db -> db_wf (import_categories env i cs db).1.1.
Proof.
  revert i db. induction cs as [|c cs IH]; intros i db Hwf; simpl; [done|].
  destruct (addCategory _ _ _ db) as [[r db']|] eqn:E; [|done].
  apply IH. by eapply addCategory_wf.
Qed.

(** An import keeps both stores well formed, whatever it reports. *)
Lemma importData_wf env data db : db_wf db -> db_wf (importData env data db).1.
Proof.
  intros Hwf. destruct data as [d|]; simpl; [|done].
  destruct (data_tasks d) as [ts|]; [|done].
  pose proof (import_tasks_wf env 0 ts db Hwf) as H1.
  destruct (import_tasks env 0 ts db) as [[db1 i] okT]. simpl in H1.
  destruct okT; simpl; [|done]. destruct (data_categories d) as [cs|]; [|done].
  pose proof (import_categories_wf env i cs db1 H1) as H2.
  by destruct (import_categories env i cs db1) as [[db2 ?] ?].
Qed.

(** The import loop over fresh timestamps: every [addTask] succeeds and
    the store gains the records of the file, with new identifiers. *)
Lemma import_tasks_fresh base i ts db :
  db_wf db ->
  (forall j, (i <= j)%nat -> os_abs (tasks_store db) !! number_to_string (base + N.of_nat j) = None) ->
  exists db', import_tasks (env_seq base) i ts db = (db', (i + length ts)%nat, true) /\ db_wf db' /\
    omit_id <$> os_getAll (tasks_store db') ≡ₚ (omit_id <$> os_getAll (tasks_store db)) ++ (omit_id <$> ts) /\
    categories_store db' = categories_store db.
Proof.
  revert i db. induction ts as [|t ts IH]; intros i db Hwf Hfresh.
  { exists db. rewrite Nat.add_0_r, app_nil_r. done. }
  simpl. destruct (addTask true (base + N.of_nat i) (omit_id t) db) as [[r db1]|e] eqn:E;
    [|rewrite addTask_spec, (Hfresh i) in E by (done || lia); discriminate].
  pose proof E as (->&Hwf1&Hp1&Hc1)%addTask_getAll; [|done].
  apply addTask_abs in E as (_&_&Habs1&_); [|done].
  destruct (IH (S i) db1) as (db'&Himp&Hwf'&Hp&Hc); [done| |].
  { intros j Hj. rewrite Habs1, lookup_insert_ne by (intros Heq%(inj number_to_string); lia).
    apply Hfresh. lia. }
  exists db'. rewrite Himp. replace (S i + length ts)%nat with (i + S (length ts))%nat by lia.
  split; [done|]. split; [done|]. split; [|congruence].
  rewrite Hp, Hp1, fmap_app. simpl. by rewrite omit_id_task_with_id, <- app_assoc.
Qed.
(** C23: The import loop stops at the first [addTask] that rejects and
    rolls nothing back: when it fails, the file splits into the records
    before the failing one, all added by calls that succeeded, the record
    whose call rejected, and the rest, for which no call is made; the
    store it leaves is the one those successful calls built. *)
Theorem import_tasks_stops_at_failure env i ts db db' j :
  import_tasks env i ts db = (db', j, false) ->
  exists pre t rest e, ts = (pre ++ t :: rest)%list /\ j = S (i + length pre) /\
    import_tasks env i pre db = (db', (i + length pre)%nat, true) /\
    addTask (env (i + length pre)%nat).1 (env (i + length pre)%nat).2 (omit_id t) db' = Err e.
Proof.
  revert i db. induction ts as [|t ts IH]; intros i db H; simpl in H; [discriminate|].
  destruct (addTask _ _ _ db) as [[r db1]|e] eqn:E.
  - apply IH in H as (pre&t'&rest&e&->&->&Hp&He).
    exists (t :: pre), t', rest, e. cbn [length]. rewrite Nat.add_succ_r. simpl. rewrite E. auto.
  - injection H as <- <-. exists [], t, ts, e. rewrite Nat.add_0_r. auto.
Qed.

(** C24: Two records of a file imported within one millisecond: the
    second [addTask] rejects with a [ConstraintError], the import reports
    an error, the first record stays stored under the timestamp and no
    category is added. *)
Theorem importData_same_millisecond_partial env n t1 t2 ts cs db :
  db_wf db -> env 0%nat = (true, n) -> env 1%nat = (true, n) ->
  os_abs (tasks_store db) !! number_to_string n = None ->
  exists db', importData env (Some (mkImportData (Some (t1 :: t2 :: ts)) cs)) db = (db', import_error_msg) /\
    os_abs (tasks_store db') =
      <[number_to_string n := task_with_id (omit_id t1) (number_to_string n)]> (os_abs (tasks_store db)) /\
    categories_store db' = categories_store db.
Proof.
  intros Hwf H0 H1 Hfree. unfold importData. cbn [data_tasks data_categories import_tasks].
  rewrite H0, H1. cbn [fst snd].
  destruct (addTask true n (omit_id t1) db) as [[r db1]|e] eqn:E;
    [|rewrite addTask_spec, Hfree in E by done; discriminate].
  pose proof (addTask_wf _ _ _ _ _ _ Hwf E) as Hwf1.
  apply addTask_abs in E as (->&_&Habs&Hc); [|done].
  rewrite addTask_spec, Habs, lookup_insert_eq by done. cbn. eauto.
Qed.
Lemma import_categories_fresh base i cs db :
  db_wf db ->
  (forall j, (i <= j)%nat -> os_abs (categories_store db) !! number_to_string (base + N.of_nat j) = None) ->
  exists db', import_categories (env_seq base) i cs db = (db', (i + length cs)%nat, true) /\ db_wf db' /\
    omit_category_id <$> os_getAll (categories_store db') ≡ₚ
      (omit_category_id <$> os_getAll (categories_store db)) ++ (omit_category_id <$> cs) /\
    tasks_store db' = tasks_store db /\
    (forall c, c ∈ os_getAll (categories_store db') -> c ∈ os_getAll (categories_store db) \/
       exists k, (i <= k < i + length cs)%nat /\ Category.id c = number_to_string (base + N.of_nat k)).
Proof.
  revert i db. induction cs as [|c cs IH]; intros i db Hwf Hfresh.
  { exists db. rewrite Nat.add_0_r, app_nil_r. split_and!; [done..|]. intros c Hc. by left. }
  simpl. destruct (addCategory true (base + N.of_nat i) (omit_category_id c) db) as [[r db1]|e] eqn:E;
    [|rewrite addCategory_spec, (Hfresh i) in E by (done || lia); discriminate].
  pose proof E as (->&Hwf1&Hp1&Hc1)%addCategory_getAll; [|done].
  apply addCategory_abs in E as (_&_&Habs1&_); [|done].
  destruct (IH (S i) db1) as (db'&Himp&Hwf'&Hp&Hc&Hid); [done| |].
  { intros j Hj. rewrite Habs1, lookup_insert_ne by (intros Heq%(inj number_to_string); lia).
    apply Hfresh. lia. }
  exists db'. rewrite Himp. replace (S i + length cs)%nat with (i + S (length cs))%nat by lia.
  split; [done|]. split; [done|]. split.
  { rewrite Hp, Hp1, fmap_app. simpl. by rewrite omit_category_id_with_id, <- app_assoc. }
  split; [congruence|]. intros c' Hin.
  destruct (Hid c' Hin) as [Hin1|(k&Hk&Hck)]; [|right; exists k; split; [lia|done]].
  rewrite Hp1, elem_of_app, list_elem_of_singleton in Hin1.
  destruct Hin1 as [? | ->]; [by left|right]. exists i. split; [lia|]. by rewrite category_with_id_id.
Qed.


(** Importing an exported file into a fresh database with one
    millisecond between calls: the import succeeds, restores both
    collections up to order and identifiers, and every category's new
    identifier is the timestamp of its call. *)
Lemma import_exported base db :
  exists db', importData (env_seq base) (Some (exportData true true db)) initDB = (db', import_ok_msg) /\
    db_wf db' /\
    omit_id <$> getAllTasks true db' ≡ₚ omit_id <$> getAllTasks true db /\
    omit_category_id <$> getAllCategories true db' ≡ₚ omit_category_id <$> getAllCategories true db /\
    (forall c, c ∈ getAllCategories true db' -> exists k,
       (length (getAllTasks true db) <= k < length (getAllTasks true db) + length (getAllCategories true db))%nat /\
       Category.id c = number_to_string (base + N.of_nat k)).
Proof.
  unfold importData, exportData, getAllTasks, getAllCategories. simpl.
  destruct (import_tasks_fresh base 0 (os_getAll (tasks_store db)) initDB) as (db1&->&Hwf1&Hp1&Hc1).
  { apply db_wf_initDB. }
  { intros j _. simpl. by rewrite os_abs_empty, lookup_empty. }
  destruct (import_categories_fresh base (0 + length (os_getAll (tasks_store db)))
    (os_getAll (categories_store db)) db1) as (db2&->&Hwf2&Hp2&Hc2&Hid); [done| |].
  { intros j _. rewrite Hc1. simpl. by rewrite os_abs_empty, lookup_empty. }
  exists db2. simpl. split; [done|]. split; [done|].
  rewrite Hc2, Hp1, Hp2, Hc1. simpl. rewrite !os_getAll_empty. split; [done|]. split; [done|].
  intros c Hin. destruct (Hid c Hin) as [Hin'|Hk]; [|done].
  rewrite Hc1 in Hin'. simpl in Hin'. rewrite os_getAll_empty in Hin'. by apply not_elem_of_nil in Hin'.
Qed.

(** C4: Round trip: importing, into a fresh database, the file exported from
    a well-formed database, with one millisecond between successive calls,
    reports success and restores every task and every category, up to
    order, with new identifiers and all other fields unchanged. *)
Theorem export_import_roundtrip base db :
  db_wf db ->
  exists db', importData (env_seq base) (Some (exportData true true db)) initDB = (db', import_ok_msg) /\
    db_wf db' /\
    omit_id <$> getAllTasks true db' ≡ₚ omit_id <$> getAllTasks true db /\
    omit_category_id <$> getAllCategories true db' ≡ₚ omit_category_id <$> getAllCategories true db.
Proof.
  intros _. destruct (import_exported base db) as (db'&?&?&?&?&_). by exists db'.
Qed.

(** C34: Export and import break the links from tasks to categories:
    when no exported category's identifier is one of the timestamps the
    import reads for the categories, every task filed under an exported
    category comes back with the same fields, and so the old identifier,
    which no category of the imported database carries. *)
Theorem import_breaks_category_links base db :
  (forall c k, c ∈ getAllCategories true db ->
     (length (getAllTasks true db) <= k < length (getAllTasks true db) + length (getAllCategories true db))%nat ->
     Category.id c <> number_to_string (base + N.of_nat k)) ->
  exists db', importData (env_seq base) (Some (exportData true true db)) initDB = (db', import_ok_msg) /\
    forall t c, t ∈ getAllTasks true db -> c ∈ getAllCategories true db -> Task.category t = Category.id c ->
      exists t', t' ∈ getAllTasks true db' /\ omit_id t' = omit_id t /\
        forall c', c' ∈ getAllCategories true db' -> Category.id c' <> Task.category t'.
Proof.
  intros Hold. destruct (import_exported base db) as (db'&Himp&_&Hp&_&Hid). exists db'. split; [done|].
  intros t c Ht Hc Hlink.
  assert (omit_id t ∈ omit_id <$> getAllTasks true db') as (t'&Heq&Ht')%list_elem_of_fmap.
  { rewrite Hp. by apply list_elem_of_fmap_2. }
  exists t'. split; [done|]. split; [done|]. intros c' Hc' Heq'.
  destruct (Hid c' Hc') as (k&Hk&Hck).
  assert (Task.category t' = Task.category t) by (apply (f_equal NewTask.category) in Heq; done).
  apply (Hold c k Hc Hk). congruence.
Qed.
End data_management.

(** * Imports on the list-backed stores *)

Definition rent_task : Task.t := Task.mk "6" "Pay rent" "" "" "" true.


Lemma export_import_roundtrip_witness :
  db_wf sample_db /\ exists db',
    importData (env_seq 100) (Some (exportData true true sample_db)) (initDB : ListDB) = (db', import_ok_msg).
Proof.
  split; [exact sample_db_wf|].
  destruct (export_import_roundtrip 100 sample_db sample_db_wf) as (db'&H&_). exists db'. exact H.
Defined.

Definition home_task : Task.t := Task.mk "5" "Water plants" "" "7" "" false.
Definition linked_db : ListDB := mkDB [home_task] [sample_category].

Lemma import_tasks_stops_at_failure_witness :
  exists pre t rest e, [sample_task; rent_task] = (pre ++ t :: rest)%list /\ 2%nat = S (0 + length pre) /\
    import_tasks (fun _ => (true, 5%N)) 0 pre (initDB : ListDB) =
      (mkDB [sample_task] [], (0 + length pre)%nat, true) /\
    addTask true 5 (omit_id t) (mkDB [sample_task] [] : ListDB) = Err e.
Proof. apply (import_tasks_stops_at_failure (fun _ => (true, 5%N)) 0 _ (initDB : ListDB)). vm_compute. reflexivity. Defined.

Lemma importData_same_millisecond_partial_witness :
  exists db', importData (fun _ => (true, 5%N))
      (Some (mkImportData (Some [sample_task; rent_task]) (Some []))) (initDB : ListDB) = (db', import_error_msg) /\
    task_map db' = <[number_to_string 5 := task_with_id (omit_id sample_task) (number_to_string 5)]> (task_map initDB) /\
    categories_store db' = [].
Proof.
  apply (importData_same_millisecond_partial (fun _ => (true, 5%N)) 5);
    [apply db_wf_initDB|reflexivity|reflexivity|vm_compute; reflexivity].
Defined.

Lemma import_breaks_category_links_witness :
  exists db', importData (env_seq 100) (Some (exportData true true linked_db)) (initDB : ListDB) = (db', import_ok_msg) /\
    forall t c, t ∈ getAllTasks true linked_db -> c ∈ getAllCategories true linked_db -> Task.category t = Category.id c ->
      exists t', t' ∈ getAllTasks true db' /\ omit_id t' = omit_id t /\
        forall c', c' ∈ getAllCategories true db' -> Category.id c' <> Task.category t'.
Proof.
  apply import_breaks_category_links. intros c k Hc Hk.
  change (getAllCategories true linked_db) with [sample_category] in Hc, Hk.
  change (getAllTasks true linked_db) with [home_task] in Hk. simpl in Hk.
  apply list_elem_of_singleton in Hc as ->. assert (k = 1%nat) as -> by lia.
  vm_compute. congruence.
Defined.
