(* ===== verification/StableSort.v ===== *)
(** * [Array.prototype.sort] with a comparator

    The page sorts with [filtered.sort((a, b) => ...)] (src/app/page.tsx,
    lines 92-115).  ECMAScript 2019 requires the sort to be stable and
    leaves the algorithm to the engine; the comparator's result only counts
    by its sign (a [NaN] counts as [+0]).  [sort] is a stable insertion
    sort driven by the sign, [cmp].  When the comparator is consistent (a
    total preorder) the stable sorted permutation is unique
    ([stable_sort_unique]), so [sort] is the result of every conforming
    engine, whatever algorithm it runs. *)

From S2P Require Import Prelude.
From Stdlib Require Import Sorted.

Section stable_sort.
Context {A : Type} (cmp : A -> A -> comparison).

(** Insert [x] before the first element it does not follow. *)
Fixpoint insert (x : A) (l : list A) : list A :=
  match l with
  | [] => [x]
  | y :: ys => if cmp x y is Gt then y :: insert x ys else x :: l
  end.

Fixpoint sort (l : list A) : list A :=
  match l with
  | [] => []
  | x :: l' => insert x (sort l')
  end.

Definition le (x y : A) : Prop := cmp x y <> Gt.
Definition equiv (x y : A) : Prop := cmp x y = Eq.

#[global] Instance equiv_dec x y : Decision (equiv x y).
Proof. unfold equiv. apply _. Defined.

Lemma insert_perm x l : insert x l ≡ₚ x :: l.
Proof.
  induction l as [|y l IH]; simpl; [done|].
  destruct (cmp x y); [done|done|]. rewrite IH. apply Permutation_swap.
Qed.

Lemma sort_perm l : sort l ≡ₚ l.
Proof. induction l as [|x l IH]; simpl; [done|]. by rewrite insert_perm, IH. Qed.

(** ** A consistent comparator *)

Context (cmp_antisym : forall x y, cmp y x = CompOpp (cmp x y)).
Context (cmp_le_trans : forall x y z, le x y -> le y z -> le x z).

Lemma le_total x y : le x y \/ le y x.
Proof. unfold le. rewrite (cmp_antisym x y). destruct (cmp x y); simpl; auto. Qed.

Lemma not_le x y : ~ le x y -> le y x /\ ~ equiv y x.
Proof.
  unfold le, equiv. rewrite (cmp_antisym x y). destruct (cmp x y); simpl; naive_solver.
Qed.

Lemma equiv_le x y : equiv x y -> le x y /\ le y x.
Proof. unfold equiv, le. rewrite (cmp_antisym x y). intros ->. simpl. done. Qed.

Lemma le_equiv x y : le x y -> le y x -> equiv x y.
Proof.
  unfold equiv, le. rewrite (cmp_antisym x y). destruct (cmp x y); simpl; naive_solver.
Qed.

Lemma equiv_sym x y : equiv x y -> equiv y x.
Proof. intros [??]%equiv_le. by apply le_equiv. Qed.

Lemma equiv_trans x y z : equiv x y -> equiv y z -> equiv x z.
Proof. intros [??]%equiv_le [??]%equiv_le. apply le_equiv; eauto. Qed.

Lemma insert_hd z x l : le z x -> HdRel le z l -> HdRel le z (insert x l).
Proof.
  intros Hzx Hl. destruct l as [|y l]; simpl; [by constructor|].
  destruct (cmp x y); constructor; [done|done|]. by invc Hl.
Qed.

Lemma insert_sorted x l : Sorted le l -> Sorted le (insert x l).
Proof.
  induction l as [|y l IH]; intros Hl; simpl; [by repeat constructor|].
  destruct (cmp x y) eqn:Hxy.
  - constructor; [done|]. constructor. unfold le. by rewrite Hxy.
  - constructor; [done|]. constructor. unfold le. by rewrite Hxy.
  - invc Hl. constructor; [by apply IH|]. apply insert_hd; [|done].
    apply (not_le x y). unfold le. rewrite Hxy. tauto.
Qed.

Lemma sort_sorted l : Sorted le (sort l).
Proof. induction l as [|x l IH]; simpl; [constructor|]. by apply insert_sorted. Qed.

(** The elements equivalent to [z], in order. *)
Definition klass (z : A) (l : list A) : list A := filter (fun y => equiv z y) l.

Lemma insert_klass z x l :
  Sorted le l -> klass z (insert x l) = klass z (x :: l).
Proof.
  unfold klass. induction l as [|y l IH]; intros Hl; simpl; [done|].
  destruct (cmp x y) eqn:Hxy; [done|done|].
  invc Hl. rewrite filter_cons, IH by done. rewrite !filter_cons.
  destruct (decide (equiv z x)) as [Hzx|Hzx], (decide (equiv z y)) as [Hzy|Hzy]; try done.
  exfalso. assert (equiv x y) as Hxy' by eauto using equiv_trans, equiv_sym.
  unfold equiv in Hxy'. congruence.
Qed.

(** Stability: the elements of each equivalence class keep their input
    order. *)
Lemma sort_stable z l : klass z (sort l) = klass z l.
Proof.
  induction l as [|x l IH]; simpl; [done|].
  rewrite insert_klass by apply sort_sorted. unfold klass in *. by rewrite !filter_cons, IH.
Qed.

Lemma sorted_hd_le x l y : Sorted le (x :: l) -> y ∈ l -> le x y.
Proof.
  intros Hs Hy. apply Sorted_StronglySorted in Hs; [|intros a b c; apply cmp_le_trans].
  apply StronglySorted_inv in Hs as [_ Hall]. rewrite Forall_forall in Hall. by apply Hall.
Qed.

Lemma equiv_refl x : equiv x x.
Proof.
  unfold equiv. pose proof (cmp_antisym x x) as H. destruct (cmp x x); simpl in H; congruence.
Qed.

Lemma elem_of_klass y z l : y ∈ klass z l -> y ∈ l.
Proof. unfold klass. intros Hy%list_elem_of_filter. naive_solver. Qed.

Lemma klass_self x l : x ∈ l -> x ∈ klass x l.
Proof. intros Hx. unfold klass. apply list_elem_of_filter. split; [apply equiv_refl|done]. Qed.

Lemma klass_cons_in z x l : equiv z x -> klass z (x :: l) = x :: klass z l.
Proof. intros H. unfold klass. by rewrite filter_cons, decide_True. Qed.

Lemma klass_cons_out z x l : ~ equiv z x -> klass z (x :: l) = klass z l.
Proof. intros H. unfold klass. by rewrite filter_cons, decide_False. Qed.

(** The head of a sorted list is below every element of it. *)
Lemma sorted_head_min x l y : Sorted le (x :: l) -> y ∈ x :: l -> le x y.
Proof.
  intros Hs [->|Hy]%elem_of_cons; [by apply equiv_le, equiv_refl|].
  by eapply sorted_hd_le.
Qed.

(** Two sorted lists whose equivalence classes list the same elements in
    the same order are equal. *)
Lemma sorted_klass_unique l1 l2 :
  Sorted le l1 -> Sorted le l2 -> (forall z, klass z l1 = klass z l2) -> l1 = l2.
Proof.
  revert l2. induction l1 as [|x1 l1 IH]; intros l2 H1 H2 Hk.
  - destruct l2 as [|x2 l2]; [done|]. exfalso.
    pose proof (klass_self x2 (x2 :: l2) (list_elem_of_here _ _)) as Hx.
    rewrite <- Hk in Hx. by apply elem_of_klass, not_elem_of_nil in Hx.
  - destruct l2 as [|x2 l2].
    { exfalso. pose proof (klass_self x1 (x1 :: l1) (list_elem_of_here _ _)) as Hx.
      rewrite Hk in Hx. by apply elem_of_klass, not_elem_of_nil in Hx. }
    assert (x2 ∈ x1 :: l1) as Hx2.
    { apply (elem_of_klass _ x2). rewrite Hk. apply klass_self, list_elem_of_here. }
    assert (x1 ∈ x2 :: l2) as Hx1.
    { apply (elem_of_klass _ x1). rewrite <- Hk. apply klass_self, list_elem_of_here. }
    assert (equiv x1 x2) as Heq.
    { apply le_equiv; eapply sorted_head_min; eauto. }
    pose proof (Hk x1) as Hk1.
    rewrite klass_cons_in, klass_cons_in in Hk1 by auto using equiv_refl.
    injection Hk1 as <- Hk1. f_equal. apply IH.
    + by apply Sorted_inv in H1 as [??].
    + by apply Sorted_inv in H2 as [??].
    + intros z. specialize (Hk z). destruct (decide (equiv z x1)).
      * rewrite !klass_cons_in in Hk by done. by injection Hk.
      * by rewrite !klass_cons_out in Hk.
Qed.

(** Every stable sort gives [sort]'s result: a sorted list that lists
    each equivalence class of [l] in its input order is [sort l]. *)
Theorem stable_sort_unique l l' :
  Sorted le l' -> (forall z, klass z l' = klass z l) -> l' = sort l.
Proof.
  intros Hs Hk. apply sorted_klass_unique; [done|apply sort_sorted|].
  intros z. by rewrite Hk, sort_stable.
Qed.
End stable_sort.

(** ** Consistent comparators

    ECMAScript calls a comparator consistent when it is antisymmetric and
    its [<=] is transitive; only then is the sorted order specified. *)
Record consistent {A} (cmp : A -> A -> comparison) : Prop := {
  consistent_antisym x y : cmp y x = CompOpp (cmp x y);
  consistent_le_trans x y z : le cmp x y -> le cmp y z -> le cmp x z
}.

Section consistent.
Context {A : Type}.

Lemma consistent_flip (cmp : A -> A -> comparison) :
  consistent cmp -> consistent (fun a b => cmp b a).
Proof.
  intros [Ha Ht]. split.
  - intros x y. apply Ha.
  - intros x y z Hxy Hyz. exact (Ht z y x Hyz Hxy).
Qed.

Lemma consistent_key {B} (f : A -> B) (cmp : B -> B -> comparison) :
  consistent cmp -> consistent (fun a b => cmp (f a) (f b)).
Proof.
  intros [Ha Ht]. split.
  - intros x y. apply Ha.
  - intros x y z. apply Ht.
Qed.

Lemma consistent_ext (cmp1 cmp2 : A -> A -> comparison) :
  (forall a b, cmp1 a b = cmp2 a b) -> consistent cmp1 -> consistent cmp2.
Proof.
  intros Heq [Ha Ht]. split.
  - intros x y. rewrite <- !Heq. apply Ha.
  - unfold le. intros x y z. rewrite <- !Heq. apply Ht.
Qed.

Context (cmp : A -> A -> comparison) (Hc : consistent cmp).

Lemma sort_sorted_c l : Sorted (le cmp) (sort cmp l).
Proof. apply sort_sorted; apply Hc. Qed.

Lemma sort_stable_c z l : klass cmp z (sort cmp l) = klass cmp z l.
Proof. apply sort_stable; apply Hc. Qed.

(** In a sorted list every element is below the elements after it. *)
Lemma sorted_app_le l1 x l2 y :
  Sorted (le cmp) (l1 ++ x :: l2) -> y ∈ l2 -> le cmp x y.
Proof.
  induction l1 as [|w l1 IH]; simpl; intros Hs Hy.
  - eapply sorted_hd_le; eauto; apply Hc.
  - apply IH; [|done]. by apply Sorted_inv in Hs as [??].
Qed.
End consistent.

Section engine.
Context {A : Type} (cmp : A -> A -> comparison).

(** Adjacent elements in order: the executable form of [Sorted (le cmp)]. *)
Fixpoint is_sorted (l : list A) : bool :=
  match l with
  | x :: ((y :: _) as l') => negb (bool_decide (cmp x y = Gt)) && is_sorted l'
  | _ => true
  end.

Lemma is_sorted_spec l : is_sorted l = true <-> Sorted (le cmp) l.
Proof.
  induction l as [|x [|y l] IH]; simpl.
  - split; constructor.
  - split; [repeat constructor|done].
  - rewrite andb_true_iff, negb_true_iff, bool_decide_eq_false, IH. split.
    + intros [Hxy Hs]. constructor; [done|by constructor].
    + intros Hs. apply Sorted_inv in Hs as [Hs Hd]. split; [|done]. by invc Hd.
Qed.

Context (Hc : consistent cmp).

Lemma klass_equiv z w l : equiv cmp z w -> klass cmp z l = klass cmp w l.
Proof.
  intros Hzw. apply list_filter_iff. intros y.
  pose proof (equiv_sym cmp (consistent_antisym _ Hc)) as Hsym.
  pose proof (equiv_trans cmp (consistent_antisym _ Hc) (consistent_le_trans _ Hc)) as Htr.
  split; intros Hy; eauto.
Qed.

Lemma klass_nil z l : (forall w, w ∈ l -> ~ equiv cmp z w) -> klass cmp z l = [].
Proof. intros Hl. by apply filter_none. Qed.

(** The engine-independence of a stable sort, in a form that can be
    checked on a concrete output [l']: a permutation of [l], sorted, in
    which the class of each element of [l] keeps its input order. *)
Theorem stable_sort_unique_fin l l' :
  l' ≡ₚ l -> is_sorted l' = true ->
  Forall (fun z => klass cmp z l' = klass cmp z l) l -> l' = sort cmp l.
Proof.
  intros Hp Hs%is_sorted_spec Hk. apply stable_sort_unique; [apply Hc..|done|].
  intros z. destruct (decide (Exists (equiv cmp z) l)) as [(w&Hw&Hzw)%Exists_exists|Hno].
  - rewrite !(klass_equiv z w) by done. rewrite Forall_forall in Hk. by apply Hk.
  - rewrite !klass_nil; [done| |].
    + intros w Hw Hzw. apply Hno, Exists_exists. eauto.
    + intros w Hw Hzw. apply Hno, Exists_exists. exists w. split; [|done]. by rewrite <- Hp.
Qed.
End engine.
