(* ===== verification/Dates.v ===== *)
(** * Due dates: [getDaysRemaining] (src/app/page.tsx, lines 121-126)

    [getDaysRemaining(dateStr)] returns [null] for an empty string, parses
    the string with date-fns' [parseISO], returns [null] when the date is
    invalid, and otherwise [differenceInDays(date, new Date())].

    The due dates the app writes come from [<input type="date">] and from
    [new Date().toISOString().split("T")[0]]: calendar dates ["YYYY-MM-DD"].
    [parseISO] reads such a string as local midnight of that day and checks
    the month and the day of the month (leap years included).  Times are
    local milliseconds: [now] is the local time of [new Date()] (time-zone
    offset applied; daylight-saving shifts are not modelled).
    [differenceInDays] counts full days between the two instants, truncated
    toward zero: [Z.quot] by the length of a day. *)

From S2P Require Import Prelude JsString.
From Stdlib Require Import Ascii.

Local Open Scope Z_scope.

Definition ms_per_day : Z := 86400000.

(** ** Parsing ["YYYY-MM-DD"] *)

Definition digit (c : ascii) : option Z :=
  let n := Z.of_N (N_of_ascii c) in
  if bool_decide (48 <= n <= 57) then Some (n - 48) else None.

Fixpoint digits_value (acc : Z) (s : list ascii) : option Z :=
  match s with
  | [] => Some acc
  | c :: s' => d ← digit c; digits_value (10 * acc + d) s'
  end.

Definition is_leap (y : Z) : bool :=
  (Z.eqb (y mod 4) 0 && negb (Z.eqb (y mod 100) 0)) || Z.eqb (y mod 400) 0.

Definition days_in_month (y m : Z) : Z :=
  if bool_decide (m = 2) then (if is_leap y then 29 else 28)
  else if bool_decide (m = 4 \/ m = 6 \/ m = 9 \/ m = 11) then 30 else 31.

(** [parseISO] followed by [isValid] on a calendar date: the year, month
    and day when the string is a valid ["YYYY-MM-DD"], nothing otherwise. *)
Definition parse_iso_date (s : string) : option (Z * Z * Z) :=
  match String.list_ascii_of_string s with
  | [y1; y2; y3; y4; "-"; m1; m2; "-"; d1; d2]%char =>
      y ← digits_value 0 [y1; y2; y3; y4];
      m ← digits_value 0 [m1; m2];
      d ← digits_value 0 [d1; d2];
      if bool_decide (1 <= m <= 12 /\ 1 <= d <= days_in_month y m)
      then Some (y, m, d) else None
  | _ => None
  end.

(** Days from 1970-01-01 to a date of the proleptic Gregorian calendar. *)
Definition days_from_civil (y m d : Z) : Z :=
  let y' := if m <=? 2 then y - 1 else y in
  let era := y' / 400 in
  let yoe := y' - era * 400 in
  let mp := (m + 9) mod 12 in
  let doy := (153 * mp + 2) / 5 + d - 1 in
  let doe := yoe * 365 + yoe / 4 - yoe / 100 + doy in
  era * 146097 + doe - 719468.

(** [differenceInDays(date, now)] for a date at local midnight. *)
Definition differenceInDays (date_ms now_ms : Z) : Z :=
  Z.quot (date_ms - now_ms) ms_per_day.

(** [getDaysRemaining(dateStr)]: [None] is the code's [null]. *)
Definition getDaysRemaining (now : Z) (dateStr : string) : option Z :=
  if negb (truthy dateStr) then None else
  match parse_iso_date dateStr with
  | None => None
  | Some (y, m, d) => Some (differenceInDays (days_from_civil y m d * ms_per_day) now)
  end.

(** ** [Date.prototype.toISOString] *)

(** The civil date of the day [z] after 1970-01-01 (proleptic Gregorian
    calendar): the inverse of [days_from_civil]. *)
Definition civil_from_days (z : Z) : Z * Z * Z :=
  let z := z + 719468 in
  let era := z / 146097 in
  let doe := z - era * 146097 in
  let yoe := (doe - doe / 1460 + doe / 36524 - doe / 146096) / 365 in
  let y := yoe + era * 400 in
  let doy := doe - (365 * yoe + yoe / 4 - yoe / 100) in
  let mp := (5 * doy + 2) / 153 in
  let d := doy - (153 * mp + 2) / 5 + 1 in
  let m := if mp <? 10 then mp + 3 else mp - 9 in
  (if m <=? 2 then y + 1 else y, m, d).

Definition digit_char (k : Z) : ascii := ascii_of_N (Z.to_N (48 + k)).

Definition pad2 (n : Z) : list ascii := [digit_char (n / 10); digit_char (n mod 10)].
Definition pad4 (n : Z) : list ascii :=
  [digit_char (n / 1000); digit_char ((n / 100) mod 10); digit_char ((n / 10) mod 10); digit_char (n mod 10)].

Definition iso_date_string (ymd : Z * Z * Z) : string :=
  let '(y, m, d) := ymd in
  String.string_of_list_ascii (pad4 y ++ ["-"%char] ++ pad2 m ++ ["-"%char] ++ pad2 d)%list.

(** [new Date().toISOString().split("T")[0]] at the UTC instant [utc]
    (milliseconds since the epoch): the UTC calendar day, printed
    ["YYYY-MM-DD"] for the years 0 to 9999. *)
Definition toISODate (utc : Z) : string := iso_date_string (civil_from_days (utc / ms_per_day)).

(** * Properties *)

Example days_from_civil_epoch : days_from_civil 1970 1 1 = 0.
Proof. reflexivity. Qed.

Example parse_iso_date_leap : parse_iso_date "2024-02-29" = Some (2024, 2, 29).
Proof. reflexivity. Qed.

Example parse_iso_date_not_leap : parse_iso_date "2023-02-29" = None.
Proof. reflexivity. Qed.

(** [differenceInDays] on a multiple of a day minus [now]: the quotient
    truncates toward zero. *)
Lemma quot_day_sub k t :
  0 <= t < ms_per_day ->
  Z.quot (k * ms_per_day - t) ms_per_day = if bool_decide (0 < k /\ t <> 0) then k - 1 else k.
Proof.
  unfold ms_per_day. intros Ht. case_bool_decide as Hk.
  - rewrite Z.quot_div_nonneg by lia.
    pose proof (Z.div_mod (k * 86400000 - t) 86400000 ltac:(lia)).
    pose proof (Z.mod_pos_bound (k * 86400000 - t) 86400000 ltac:(lia)). nia.
  - destruct (Z.eq_dec t 0) as [->|Ht0].
    + rewrite Z.sub_0_r, Z.quot_mul by lia. done.
    + rewrite <- (Z.opp_involutive (k * 86400000 - t)), Z.quot_opp_l by lia.
      rewrite Z.quot_div_nonneg by lia.
      pose proof (Z.div_mod (- (k * 86400000 - t)) 86400000 ltac:(lia)).
      pose proof (Z.mod_pos_bound (- (k * 86400000 - t)) 86400000 ltac:(lia)). nia.
Qed.

(** The days remaining until due day [D] from the instant [now] of day
    [N]: the calendar difference [D - N] when the due day is today or past
    or when [now] is exactly midnight, and one less, [D - N - 1], for a
    future due day at any other time of day. *)
Lemma differenceInDays_calendar D now :
  let N := now / ms_per_day in
  differenceInDays (D * ms_per_day) now =
    if bool_decide (N < D /\ now mod ms_per_day <> 0) then D - N - 1 else D - N.
Proof.
  simpl. unfold differenceInDays.
  pose proof (Z.div_mod now ms_per_day ltac:(unfold ms_per_day; lia)) as Hdm.
  pose proof (Z.mod_pos_bound now ms_per_day ltac:(unfold ms_per_day; lia)) as Hb.
  assert (D * ms_per_day - now = (D - now / ms_per_day) * ms_per_day - now mod ms_per_day)
    as -> by lia.
  rewrite quot_day_sub by done. repeat case_bool_decide; lia.
Qed.

(** An empty or unparseable due date has no days-remaining value
    (distinct from zero). *)
Lemma getDaysRemaining_None now s :
  getDaysRemaining now s = None <-> s = "" \/ parse_iso_date s = None.
Proof.
  unfold getDaysRemaining, truthy. destruct (decide (s = "")) as [->|Hs].
  - simpl. tauto.
  - rewrite bool_decide_true by done. simpl.
    destruct (parse_iso_date s) as [[[y m] d]|]; naive_solver.
Qed.

(** A valid calendar date is non-empty, so [getDaysRemaining] goes on to
    [differenceInDays]. *)
Lemma getDaysRemaining_parse now s y m d :
  parse_iso_date s = Some (y, m, d) ->
  getDaysRemaining now s = Some (differenceInDays (days_from_civil y m d * ms_per_day) now).
Proof.
  intros Hp. unfold getDaysRemaining.
  destruct (decide (s = "")%string) as [->|Hs]; [done|].
  unfold truthy. rewrite bool_decide_true by done. simpl. by rewrite Hp.
Qed.

(** C16: [getDaysRemaining] on a valid calendar date: the calendar-day
    difference between the due day and today, one less for a future due
    day unless the clock reads exactly midnight.  A task due tomorrow thus
    has 0 days remaining for all of today but its first millisecond. *)
Theorem getDaysRemaining_calendar now s y m d :
  parse_iso_date s = Some (y, m, d) ->
  let D := days_from_civil y m d in
  let N := now / ms_per_day in
  getDaysRemaining now s =
    Some (if bool_decide (N < D /\ now mod ms_per_day <> 0) then D - N - 1 else D - N).
Proof. intros Hp D N. rewrite (getDaysRemaining_parse _ _ _ _ _ Hp). f_equal. apply differenceInDays_calendar. Qed.

(** 2026-11-09 at 01:00: the task due on 2026-11-10 has 0 days left. *)
Lemma getDaysRemaining_calendar_witness :
  parse_iso_date "2026-11-10" = Some (2026, 11, 10) /\
  getDaysRemaining (days_from_civil 2026 11 9 * ms_per_day + 3600000) "2026-11-10" = Some 0.
Proof.
  split; [reflexivity|].
  rewrite (getDaysRemaining_calendar _ "2026-11-10" 2026 11 10) by reflexivity.
  vm_compute. reflexivity.
Defined.

(** ** The calendar and ISO dates *)

(** The digit characters [0] to [9] read back as their values. *)
Lemma digit_digit_char k : 0 <= k <= 9 -> digit (digit_char k) = Some k.
Proof.
  intros Hk. assert (k = 0 \/ k = 1 \/ k = 2 \/ k = 3 \/ k = 4 \/ k = 5 \/ k = 6 \/ k = 7 \/ k = 8 \/ k = 9) as Hc by lia.
  repeat destruct Hc as [->|Hc]; try reflexivity. subst. reflexivity.
Qed.

(** ** The calendar and the ISO date *)

(** The year of the era that [civil_from_days] computes lies in [0, 399], *)
Lemma yoe_bounds doe : 0 <= doe < 146097 ->
  0 <= (doe - doe / 1460 + doe / 36524 - doe / 146096) / 365 <= 399.
Proof.
  intros Hd.
  pose proof (Z.div_mod doe 1460 ltac:(lia)). pose proof (Z.mod_pos_bound doe 1460 ltac:(lia)).
  pose proof (Z.div_mod doe 36524 ltac:(lia)). pose proof (Z.mod_pos_bound doe 36524 ltac:(lia)).
  pose proof (Z.div_mod doe 146096 ltac:(lia)). pose proof (Z.mod_pos_bound doe 146096 ltac:(lia)).
  remember (doe / 1460) as a. remember (doe / 36524) as b. remember (doe / 146096) as c.
  remember (doe mod 1460) as ra. remember (doe mod 36524) as rb. remember (doe mod 146096) as rc.
  assert (0 <= doe - a + b - c < 146000) by lia.
  split; [apply Z.div_pos; lia|]. apply Z.lt_succ_r, Z.div_lt_upper_bound; lia.
Qed.

(** and the day of the (March-based) year in [0, 365]. *)
Lemma doy_bounds doe : 0 <= doe < 146097 ->
  let yoe := (doe - doe / 1460 + doe / 36524 - doe / 146096) / 365 in
  0 <= doe - (365 * yoe + yoe / 4 - yoe / 100) <= 365.
Proof.
  intros Hd yoe. pose proof (yoe_bounds doe Hd) as Hy. fold yoe in Hy.
  pose proof (Z.div_mod doe 1460 ltac:(lia)). pose proof (Z.mod_pos_bound doe 1460 ltac:(lia)).
  pose proof (Z.div_mod doe 36524 ltac:(lia)). pose proof (Z.mod_pos_bound doe 36524 ltac:(lia)).
  pose proof (Z.div_mod doe 146096 ltac:(lia)). pose proof (Z.mod_pos_bound doe 146096 ltac:(lia)).
  remember (doe / 1460) as a. remember (doe / 36524) as b. remember (doe / 146096) as c.
  remember (doe mod 1460) as ra. remember (doe mod 36524) as rb. remember (doe mod 146096) as rc.
  pose proof (Z.div_mod (doe - a + b - c) 365 ltac:(lia)).
  pose proof (Z.mod_pos_bound (doe - a + b - c) 365 ltac:(lia)).
  subst yoe. remember ((doe - a + b - c) / 365) as yoe. remember ((doe - a + b - c) mod 365) as ry.
  pose proof (Z.div_mod yoe 4 ltac:(lia)). pose proof (Z.mod_pos_bound yoe 4 ltac:(lia)).
  pose proof (Z.div_mod yoe 100 ltac:(lia)). pose proof (Z.mod_pos_bound yoe 100 ltac:(lia)).
  remember (yoe / 4) as q4. remember (yoe / 100) as q100.
  remember (yoe mod 4) as r4. remember (yoe mod 100) as r100.
  clear Heqa Heqb Heqc Heqra Heqrb Heqrc Heqyoe Heqry Heqq4 Heqq100 Heqr4 Heqr100.
  lia.
Qed.

(** Day 365 of a March-based year exists only before a leap February. *)
Lemma doy_365 doe : 0 <= doe < 146097 ->
  let yoe := (doe - doe / 1460 + doe / 36524 - doe / 146096) / 365 in
  doe - (365 * yoe + yoe / 4 - yoe / 100) = 365 ->
  (yoe + 1) mod 4 = 0 /\ ((yoe + 1) mod 100 <> 0 \/ yoe + 1 = 400).
Proof.
  intros Hd yoe.
  pose proof (Z.div_mod doe 1460 ltac:(lia)). pose proof (Z.mod_pos_bound doe 1460 ltac:(lia)).
  pose proof (Z.div_mod doe 36524 ltac:(lia)). pose proof (Z.mod_pos_bound doe 36524 ltac:(lia)).
  pose proof (Z.div_mod doe 146096 ltac:(lia)). pose proof (Z.mod_pos_bound doe 146096 ltac:(lia)).
  remember (doe / 1460) as a. remember (doe / 36524) as b. remember (doe / 146096) as c.
  remember (doe mod 1460) as ra. remember (doe mod 36524) as rb. remember (doe mod 146096) as rc.
  pose proof (Z.div_mod (doe - a + b - c) 365 ltac:(lia)).
  pose proof (Z.mod_pos_bound (doe - a + b - c) 365 ltac:(lia)).
  subst yoe. remember ((doe - a + b - c) / 365) as yoe. remember ((doe - a + b - c) mod 365) as ry.
  pose proof (Z.div_mod yoe 4 ltac:(lia)). pose proof (Z.mod_pos_bound yoe 4 ltac:(lia)).
  pose proof (Z.div_mod yoe 100 ltac:(lia)). pose proof (Z.mod_pos_bound yoe 100 ltac:(lia)).
  pose proof (Z.div_mod (yoe + 1) 4 ltac:(lia)). pose proof (Z.mod_pos_bound (yoe + 1) 4 ltac:(lia)).
  pose proof (Z.div_mod (yoe + 1) 100 ltac:(lia)). pose proof (Z.mod_pos_bound (yoe + 1) 100 ltac:(lia)).
  remember (yoe / 4) as q4. remember (yoe / 100) as q100.
  remember (yoe mod 4) as r4. remember (yoe mod 100) as r100.
  remember ((yoe + 1) / 4) as s4. remember ((yoe + 1) / 100) as s100.
  remember ((yoe + 1) mod 4) as t4. remember ((yoe + 1) mod 100) as t100.
  clear Heqa Heqb Heqc Heqra Heqrb Heqrc Heqyoe Heqry Heqq4 Heqq100 Heqr4 Heqr100 Heqs4 Heqs100 Heqt4 Heqt100.
  intros Hdoy. split; [lia|]. destruct (Z.eq_dec t100 0); [right; lia|left; lia].
Qed.

(** The quantities [civil_from_days] computes, with their ranges. *)
(** The intermediate quantities of [civil_from_days] with their ranges. *)
Lemma civil_parts z :
  let z' := z + 719468 in
  let era := z' / 146097 in
  let doe := z' - era * 146097 in
  let yoe := (doe - doe / 1460 + doe / 36524 - doe / 146096) / 365 in
  let doy := doe - (365 * yoe + yoe / 4 - yoe / 100) in
  0 <= doe < 146097 /\ 0 <= yoe <= 399 /\ 0 <= doy <= 365 /\ 0 <= (5 * doy + 2) / 153 <= 11.
Proof.
  intros z' era doe yoe doy.
  pose proof (Z.div_mod z' 146097 ltac:(lia)). pose proof (Z.mod_pos_bound z' 146097 ltac:(lia)).
  assert (0 <= doe < 146097) as Hd by (unfold doe, era; lia).
  assert (0 <= yoe <= 399) by exact (yoe_bounds doe Hd).
  assert (0 <= doy <= 365) by exact (doy_bounds doe Hd).
  split; [done|]. split; [done|]. split; [done|].
  split; [apply Z.div_pos; lia|]. apply Z.lt_succ_r, Z.div_lt_upper_bound; lia.
Qed.

(** The leap-year rule repeats every 400 years. *)
Lemma is_leap_add_400 k e : is_leap (k + e * 400) = is_leap k.
Proof.
  unfold is_leap.
  replace (k + e * 400) with (k + (e * 100) * 4) by lia. rewrite Z.mod_add by lia.
  replace (k + e * 100 * 4) with (k + (e * 4) * 100) by lia. rewrite Z.mod_add by lia.
  replace (k + e * 4 * 100) with (k + e * 400) by lia. rewrite Z.mod_add by lia. done.
Qed.

Lemma is_leap_of_doy_365 yoe :
  (yoe + 1) mod 4 = 0 /\ ((yoe + 1) mod 100 <> 0 \/ yoe + 1 = 400) -> is_leap (yoe + 1) = true.
Proof.
  intros [H4 [H100|H400]]; unfold is_leap.
  - rewrite H4. simpl. destruct (Z.eqb_spec ((yoe + 1) mod 100) 0); [done|reflexivity].
  - rewrite H400. reflexivity.
Qed.

(** [civil_from_days] yields a valid month and day of the month. *)
Lemma civil_from_days_valid z :
  let '(y, m, d) := civil_from_days z in 1 <= m <= 12 /\ 1 <= d <= days_in_month y m.
Proof.
  pose proof (civil_parts z) as Hp. unfold civil_from_days. cbv zeta in *.
  set (era := (z + 719468) / 146097) in *.
  set (doe := z + 719468 - era * 146097) in *.
  set (yoe := (doe - doe / 1460 + doe / 36524 - doe / 146096) / 365) in *.
  set (doy := doe - (365 * yoe + yoe / 4 - yoe / 100)) in *.
  destruct Hp as (Hdoe & Hyoe & Hdoy & Hmp).
  assert (doy = 365 -> is_leap (yoe + 1) = true) as Hleap.
  { intros H. apply is_leap_of_doy_365. exact (doy_365 doe Hdoe H). }
  pose proof (Z.div_mod (5 * doy + 2) 153 ltac:(lia)).
  pose proof (Z.mod_pos_bound (5 * doy + 2) 153 ltac:(lia)).
  set (mp := (5 * doy + 2) / 153) in *.
  clearbody era doe yoe doy mp.
  assert (mp = 0 \/ mp = 1 \/ mp = 2 \/ mp = 3 \/ mp = 4 \/ mp = 5 \/ mp = 6 \/ mp = 7 \/
          mp = 8 \/ mp = 9 \/ mp = 10 \/ mp = 11) as Hc by lia.
  unfold days_in_month.
  repeat destruct Hc as [->|Hc]; [..|subst mp]; cbn -[is_leap Z.div];
    match goal with |- context [(153 * ?k + 2) / 5] =>
      let v := eval vm_compute in ((153 * k + 2) / 5) in change ((153 * k + 2) / 5) with v end;
    repeat (case_bool_decide; try lia); try lia.
  change (11 - 9 <=? 2) with true. cbv iota.
  replace (yoe + era * 400 + 1) with ((yoe + 1) + era * 400) by lia.
  rewrite is_leap_add_400. destruct (is_leap (yoe + 1)) eqn:E; [lia|].
  assert (doy <> 365) by (intros Hd; discriminate (Hleap Hd)). lia.
Qed.


(** [civil_from_days] inverts [days_from_civil]. *)
Lemma civil_from_days_roundtrip z :
  let '(y, m, d) := civil_from_days z in days_from_civil y m d = z.
Proof.
  pose proof (civil_parts z) as Hp. unfold civil_from_days. cbv zeta in *.
  pose proof (Z.div_mod (z + 719468) 146097 ltac:(lia)).
  set (era := (z + 719468) / 146097) in *.
  set (doe := z + 719468 - era * 146097) in *.
  set (yoe := (doe - doe / 1460 + doe / 36524 - doe / 146096) / 365) in *.
  set (doy := doe - (365 * yoe + yoe / 4 - yoe / 100)) in *.
  destruct Hp as (Hdoe & Hyoe & Hdoy & Hmp).
  set (mp := (5 * doy + 2) / 153) in *.
  assert (doy = doe - (365 * yoe + yoe / 4 - yoe / 100)) as Hdoy_def by reflexivity.
  assert (doe = z + 719468 - era * 146097) as Hdoe_def by reflexivity.
  clearbody era doe yoe doy mp.
  unfold days_from_civil.
  assert ((yoe + era * 400) / 400 = era) as Hera
    by (rewrite Z.div_add by lia; rewrite Z.div_small by lia; lia).
  destruct (Z.ltb_spec mp 10) as [Hlt|Hge].
  - rewrite (proj2 (Z.leb_gt (mp + 3) 2)) by lia.
    assert ((mp + 3 + 9) mod 12 = mp) as -> by
      (replace (mp + 3 + 9) with (mp + 1 * 12) by lia; rewrite Z.mod_add, Z.mod_small; lia).
    rewrite Hera. replace (yoe + era * 400 - era * 400) with yoe by lia. lia.
  - rewrite (proj2 (Z.leb_le (mp - 9) 2)) by lia.
    assert ((mp - 9 + 9) mod 12 = mp) as -> by
      (replace (mp - 9 + 9) with mp by lia; apply Z.mod_small; lia).
    replace (yoe + era * 400 + 1 - 1) with (yoe + era * 400) by lia.
    rewrite Hera. replace (yoe + era * 400 - era * 400) with yoe by lia. lia.
Qed.

Lemma digit_mod10 n : 0 <= n -> digit (digit_char (n mod 10)) = Some (n mod 10).
Proof. intros Hn. apply digit_digit_char. pose proof (Z.mod_pos_bound n 10). lia. Qed.

Lemma digit_div n k : 0 < k -> 0 <= n < 10 * k -> digit (digit_char (n / k)) = Some (n / k).
Proof.
  intros Hk Hn. apply digit_digit_char. split; [apply Z.div_pos; lia|].
  apply Z.lt_succ_r, Z.div_lt_upper_bound; lia.
Qed.

(** Zero-padded numbers read back as themselves. *)
Lemma digits_value_pad2 n : 0 <= n <= 99 -> digits_value 0 (pad2 n) = Some n.
Proof.
  intros Hn. unfold pad2. cbn [digits_value].
  rewrite digit_div, digit_mod10 by lia. simpl. f_equal.
  pose proof (Z.div_mod n 10 ltac:(lia)). lia.
Qed.

Lemma digits_value_pad4 n : 0 <= n <= 9999 -> digits_value 0 (pad4 n) = Some n.
Proof.
  intros Hn. unfold pad4. cbn [digits_value].
  assert (0 <= n / 10 /\ 0 <= n / 100) as [??] by (split; apply Z.div_pos; lia).
  rewrite digit_div, !digit_mod10 by lia. cbn -[Z.div Z.modulo Z.mul Z.add]. f_equal.
  pose proof (Z.div_mod n 10 ltac:(lia)). pose proof (Z.div_mod (n / 10) 10 ltac:(lia)).
  pose proof (Z.div_mod (n / 100) 10 ltac:(lia)).
  rewrite !Z.div_div in * by lia. change (10 * 10) with 100 in *. change (100 * 10) with 1000 in *.
  lia.
Qed.

(** A valid date printed as YYYY-MM-DD parses back to itself. *)
Lemma parse_iso_date_string y m d :
  0 <= y <= 9999 -> 1 <= m <= 12 -> 1 <= d <= days_in_month y m ->
  parse_iso_date (iso_date_string (y, m, d)) = Some (y, m, d).
Proof.
  intros Hy Hm Hd. assert (days_in_month y m <= 31) by (unfold days_in_month; repeat case_match; lia).
  unfold parse_iso_date, iso_date_string. rewrite String.list_ascii_of_string_of_list_ascii.
  cbn [pad4 pad2 app]. cbn iota beta.
  pose proof (digits_value_pad4 y ltac:(lia)) as Ey. pose proof (digits_value_pad2 m ltac:(lia)) as Em.
  pose proof (digits_value_pad2 d ltac:(lia)) as Ed. unfold pad4, pad2 in *.
  rewrite Ey, Em, Ed. cbn [mbind option_bind]. rewrite bool_decide_true by lia. reflexivity.
Qed.

(** What [toISOString] prints for a UTC instant parses back to the UTC
    calendar day of that instant. *)
Lemma toISODate_spec utc :
  let '(y, m, d) := civil_from_days (utc / ms_per_day) in
  0 <= y <= 9999 ->
  parse_iso_date (toISODate utc) = Some (y, m, d) /\ days_from_civil y m d = utc / ms_per_day.
Proof.
  unfold toISODate. pose proof (civil_from_days_valid (utc / ms_per_day)) as Hv.
  pose proof (civil_from_days_roundtrip (utc / ms_per_day)) as Hr.
  destruct (civil_from_days _) as [[y m] d]. intros Hy. split; [|done].
  apply parse_iso_date_string; tauto.
Qed.
