(* ===== verification/Projection.v ===== *)
(** * The displayed list: the filter effect of src/app/page.tsx

    The effect at page.tsx lines 72-119 recomputes [filteredTasks] from
    [tasks], [filter], [selectedCategory], [searchQuery] and [sortOption]:
    status filter (lines 76-77), category filter (80-82), search filter
    (85-88), then [filtered.sort(...)] (91-116).  The page then renders
    [displayedTasks] (line 197), which is [filteredTasks] only when a
    search, a category or a status other than ["all"] is selected.

    The day comparators subtract JavaScript numbers in which a missing due
    date is [Number.POSITIVE_INFINITY]: [jsnum] has the infinities and
    [NaN], and [sort_compare_sign] reads the comparator's result the way
    [Array.prototype.sort] does ([NaN] counts as [+0]).  [localeCompare]
    depends on the user's locale: it is the [Collator] class, whose laws
    are those ECMAScript requires of a consistent comparison; the
    code-unit order is one instance. *)

From Stdlib Require Import Sorted.
From S2P Require Import Prelude JsString Model StableSort Dates.

Local Open Scope string_scope.

(** ** JavaScript numbers as the day comparators use them *)

Inductive jsnum := Fin (z : Z) | PosInf | NegInf | NaN.

(** [a - b] in IEEE arithmetic, on integers and infinities. *)
Definition js_sub (a b : jsnum) : jsnum :=
  match a, b with
  | Fin x, Fin y => Fin (x - y)
  | NaN, _ | _, NaN => NaN
  | PosInf, PosInf | NegInf, NegInf => NaN
  | PosInf, _ | _, NegInf => PosInf
  | NegInf, _ | _, PosInf => NegInf
  end.

(** How [Array.prototype.sort] reads a comparator's result. *)
Definition sort_compare_sign (v : jsnum) : comparison :=
  match v with
  | Fin z => Z.compare z 0
  | PosInf => Gt
  | NegInf => Lt
  | NaN => Eq
  end.

(** ** [localeCompare] *)

Class Collator := {
  localeCompare : string -> string -> comparison;
  localeCompare_antisym a b : localeCompare b a = CompOpp (localeCompare a b);
  localeCompare_le_trans a b c :
    localeCompare a b <> Gt -> localeCompare b c <> Gt -> localeCompare a c <> Gt
}.

Section projection.
Context `{!Collator}.

(** [getDaysRemaining(t.dueDate) ?? Number.POSITIVE_INFINITY] *)
Definition days_or_inf (now : Z) (t : Task.t) : jsnum :=
  match getDaysRemaining now (Task.dueDate t) with
  | None => PosInf
  | Some d => Fin d
  end.

(** The four comparators of the [switch (sortOption)]. *)
Definition cmp_daysAsc (now : Z) (a b : Task.t) : comparison :=
  sort_compare_sign (js_sub (days_or_inf now a) (days_or_inf now b)).
Definition cmp_daysDesc (now : Z) (a b : Task.t) : comparison :=
  sort_compare_sign (js_sub (days_or_inf now b) (days_or_inf now a)).
Definition cmp_alphaAsc (a b : Task.t) : comparison :=
  localeCompare (Task.title a) (Task.title b).
Definition cmp_alphaDesc (a b : Task.t) : comparison :=
  localeCompare (Task.title b) (Task.title a).

(** Lines 76-77: two independent tests on [filter]. *)
Definition statusFilter (filter : string) (l : list Task.t) : list Task.t :=
  let l1 := if bool_decide (filter = "active")
            then List.filter (fun t => negb (Task.completed t)) l else l in
  if bool_decide (filter = "completed") then List.filter Task.completed l1 else l1.

(** Lines 80-82: [if (selectedCategory)]; [null] and [""] select nothing. *)
Definition categoryFilter (selectedCategory : option string) (l : list Task.t) : list Task.t :=
  match selectedCategory with
  | Some c => if truthy c then List.filter (fun t => bool_decide (Task.category t = c)) l else l
  | None => l
  end.

(** Lines 85-88: the test trims the query, the match does not. *)
Definition searchFilter (searchQuery : string) (l : list Task.t) : list Task.t :=
  if truthy (trim searchQuery) then
    let query := to_lower searchQuery in
    List.filter (fun t => includes (to_lower (Task.title t)) query) l
  else l.

(** Lines 91-116. *)
Definition sortTasks (now : Z) (sortOption : SortOption) (l : list Task.t) : list Task.t :=
  match sortOption with
  | daysAsc => sort (cmp_daysAsc now) l
  | daysDesc => sort (cmp_daysDesc now) l
  | alphaAsc => sort cmp_alphaAsc l
  | alphaDesc => sort cmp_alphaDesc l
  | none => l
  end.

(** The effect's result, [filteredTasks], at the instant [now]. *)
Definition filteredTasks (now : Z) (tasks : list Task.t) (filter : string)
    (selectedCategory : option string) (searchQuery : string)
    (sortOption : SortOption) : list Task.t :=
  sortTasks now sortOption
    (searchFilter searchQuery (categoryFilter selectedCategory (statusFilter filter tasks))).

(** Line 197. *)
Definition displayedTasks (now : Z) (tasks : list Task.t) (filter : string)
    (selectedCategory : option string) (searchQuery : string)
    (sortOption : SortOption) : list Task.t :=
  if truthy (trim searchQuery) || default false (truthy <$> selectedCategory)
     || bool_decide (filter <> "all")
  then filteredTasks now tasks filter selectedCategory searchQuery sortOption
  else tasks.
End projection.

(** The code-unit order: what [localeCompare] does for strings that differ
    only in code units the locale orders by code point. *)
#[export] Program Instance code_unit_collator : Collator := {
  localeCompare := String.compare
}.
Next Obligation. intros a b. apply String.compare_antisym. Qed.
Next Obligation.
  intros a b c. rewrite !compare_not_gt.
  intros [Hab| ->] [Hbc| ->]; eauto using key_lt_trans.
Qed.

(** * Properties of the projection *)

Section projection_props.
Context `{!Collator}.

(** The order the day comparators induce on [getDaysRemaining]: a
    missing value sits above every number. *)
Definition ext_cmp (a b : option Z) : comparison :=
  match a, b with
  | Some x, Some y => Z.compare x y
  | Some _, None => Lt
  | None, Some _ => Gt
  | None, None => Eq
  end.

Lemma ext_cmp_consistent : consistent ext_cmp.
Proof.
  split.
  - intros [x|] [y|]; simpl; [apply Z.compare_antisym|done..].
  - unfold le. intros [x|] [y|] [z|]; simpl; rewrite ?Z.compare_le_iff; try done; lia.
Qed.

Lemma cmp_daysAsc_ext now a b :
  cmp_daysAsc now a b =
  ext_cmp (getDaysRemaining now (Task.dueDate a)) (getDaysRemaining now (Task.dueDate b)).
Proof.
  unfold cmp_daysAsc, days_or_inf.
  destruct (getDaysRemaining _ _), (getDaysRemaining _ _); simpl; try done.
  symmetry. apply Z.compare_sub.
Qed.

(** [daysDesc] is [daysAsc] with its arguments swapped, infinity included. *)
Lemma cmp_daysDesc_ext now a b :
  cmp_daysDesc now a b =
  ext_cmp (getDaysRemaining now (Task.dueDate b)) (getDaysRemaining now (Task.dueDate a)).
Proof. apply cmp_daysAsc_ext. Qed.

(** The comparator each [sortOption] sorts with; [none] compares every
    pair as equal, which a stable sort leaves in place. *)
Definition sort_cmp (now : Z) (so : SortOption) : Task.t -> Task.t -> comparison :=
  match so with
  | daysAsc => cmp_daysAsc now
  | daysDesc => cmp_daysDesc now
  | alphaAsc => cmp_alphaAsc
  | alphaDesc => cmp_alphaDesc
  | none => fun _ _ => Eq
  end.

Lemma sort_all_equal (l : list Task.t) : sort (fun _ _ => Eq) l = l.
Proof. induction l as [|x l IH]; simpl; [done|]. rewrite IH. by destruct l. Qed.

Lemma sortTasks_sort now so l : sortTasks now so l = sort (sort_cmp now so) l.
Proof. destruct so; simpl; [by rewrite sort_all_equal|done..]. Qed.

Lemma collator_consistent : consistent localeCompare.
Proof. split; [apply localeCompare_antisym|apply localeCompare_le_trans]. Qed.

(** Every comparator of the page is consistent, so the order
    [Array.prototype.sort] produces is fully specified. *)
Theorem sort_cmp_consistent now so : consistent (sort_cmp now so).
Proof.
  destruct so; simpl.
  - split; [done|]. unfold le. done.
  - eapply consistent_ext; [intros a b; symmetry; apply cmp_daysAsc_ext|].
    apply (consistent_key (fun t => getDaysRemaining now (Task.dueDate t))), ext_cmp_consistent.
  - eapply consistent_ext; [intros a b; symmetry; apply cmp_daysDesc_ext|].
    apply consistent_flip, (consistent_key (fun t => getDaysRemaining now (Task.dueDate t))),
      ext_cmp_consistent.
  - apply (consistent_key Task.title), collator_consistent.
  - apply consistent_flip, (consistent_key Task.title), collator_consistent.
Qed.

Lemma sortTasks_perm now so l : sortTasks now so l ≡ₚ l.
Proof. rewrite sortTasks_sort. apply sort_perm. Qed.

Lemma sortTasks_sorted now so l : Sorted (le (sort_cmp now so)) (sortTasks now so l).
Proof. rewrite sortTasks_sort. apply sort_sorted_c, sort_cmp_consistent. Qed.
End projection_props.

Section projection_claims.
Context `{!Collator}.

Lemma statusFilter_elem f l t :
  t ∈ statusFilter f l <->
  t ∈ l /\ (f = "active" -> Task.completed t = false) /\
  (f = "completed" -> Task.completed t = true).
Proof.
  unfold statusFilter. cbv zeta.
  case_bool_decide as Hc; case_bool_decide as Ha; subst; try done;
    rewrite ?elem_of_filter_bool, ?negb_true_iff; naive_solver.
Qed.

Lemma categoryFilter_elem sc l t :
  t ∈ categoryFilter sc l <->
  t ∈ l /\ (forall c, sc = Some c -> c <> "" -> Task.category t = c).
Proof.
  unfold categoryFilter, truthy. destruct sc as [c|]; [|naive_solver].
  destruct (decide (c = "")) as [->|Hc].
  - rewrite bool_decide_false by tauto. naive_solver.
  - rewrite bool_decide_true by done. rewrite elem_of_filter_bool, bool_decide_eq_true.
    naive_solver.
Qed.

Lemma searchFilter_elem q l t :
  t ∈ searchFilter q l <->
  t ∈ l /\ (trim q <> "" -> includes (to_lower (Task.title t)) (to_lower q) = true).
Proof.
  unfold searchFilter, truthy. destruct (decide (trim q = "")) as [Hq|Hq].
  - rewrite bool_decide_false by tauto. naive_solver.
  - rewrite bool_decide_true by done. rewrite elem_of_filter_bool. naive_solver.
Qed.

(** C7: Membership in the filtered list: a task is shown exactly when it
    passes the status, category and search tests; sorting neither adds
    nor drops tasks. *)
Theorem filteredTasks_elem now tasks f sc q so t :
  t ∈ filteredTasks now tasks f sc q so <->
  t ∈ tasks /\
  (f = "active" -> Task.completed t = false) /\
  (f = "completed" -> Task.completed t = true) /\
  (forall c, sc = Some c -> c <> "" -> Task.category t = c) /\
  (trim q <> "" -> includes (to_lower (Task.title t)) (to_lower q) = true).
Proof.
  unfold filteredTasks. rewrite (sortTasks_perm now so).
  rewrite searchFilter_elem, categoryFilter_elem, statusFilter_elem. naive_solver.
Qed.

(** The filtered list holds tasks of [tasks] only. *)
Lemma filteredTasks_subset now tasks f sc q so t :
  t ∈ filteredTasks now tasks f sc q so -> t ∈ tasks.
Proof.
  unfold filteredTasks. rewrite (sortTasks_perm now so).
  rewrite searchFilter_elem, categoryFilter_elem, statusFilter_elem. naive_solver.
Qed.

(** Without a sort option the filtered tasks keep their stored order. *)
Lemma filteredTasks_none_sublist now tasks f sc q :
  sublist (filteredTasks now tasks f sc q none) tasks.
Proof.
  assert (forall f l, sublist (statusFilter f l) l) as Hs.
  { intros f' l. unfold statusFilter. cbv zeta.
    repeat case_match; repeat (etrans; [apply filter_bool_sublist|]); done. }
  assert (forall c l, sublist (categoryFilter c l) l) as Hc.
  { intros c l. unfold categoryFilter. repeat case_match; [apply filter_bool_sublist|done..]. }
  assert (forall q l, sublist (searchFilter q l) l) as Hq.
  { intros q' l. unfold searchFilter. case_match; [apply filter_bool_sublist|done]. }
  unfold filteredTasks, sortTasks. etrans; [apply Hq|]. etrans; [apply Hc|]. apply Hs.
Qed.

(** C13: Whatever stable algorithm the browser runs, its result for the
    page's comparator is [sortTasks]: any permutation of the input that
    is sorted and keeps equal tasks in input order equals it. *)
Theorem sortTasks_engine_independent now so l l' :
  l' ≡ₚ l -> is_sorted (sort_cmp now so) l' = true ->
  Forall (fun z => klass (sort_cmp now so) z l' = klass (sort_cmp now so) z l) l ->
  l' = sortTasks now so l.
Proof.
  intros. rewrite sortTasks_sort. apply stable_sort_unique_fin; [apply sort_cmp_consistent|done..].
Qed.

(** C14: [daysAsc] lists the tasks with a due date first and the tasks
    without one last. *)
Theorem daysAsc_undated_last now l :
  let r := sortTasks now daysAsc l in
  r = (filter (fun t => getDaysRemaining now (Task.dueDate t) <> None) r ++
       filter (fun t => ~ getDaysRemaining now (Task.dueDate t) <> None) r)%list.
Proof.
  apply filter_split_no_inversion. intros l1 x l2 y Hr Hy Hx Hyd.
  pose proof (sortTasks_sorted now daysAsc l) as Hs. rewrite Hr in Hs.
  apply (sorted_app_le _ (sort_cmp_consistent now daysAsc) l1 x l2 y) in Hs; [|done].
  unfold le in Hs. simpl in Hs. rewrite cmp_daysAsc_ext in Hs.
  destruct (getDaysRemaining now (Task.dueDate x)); [by destruct Hx|].
  destruct (getDaysRemaining now (Task.dueDate y)); [by apply Hs|done].
Qed.

(** C8: [daysDesc] lists the tasks without a due date FIRST: the infinity
    that stands for a missing date is subtracted the other way round. *)
Theorem daysDesc_undated_first now l :
  let r := sortTasks now daysDesc l in
  r = (filter (fun t => getDaysRemaining now (Task.dueDate t) = None) r ++
       filter (fun t => ~ getDaysRemaining now (Task.dueDate t) = None) r)%list.
Proof.
  apply filter_split_no_inversion. intros l1 x l2 y Hr Hy Hx Hyd.
  pose proof (sortTasks_sorted now daysDesc l) as Hs. rewrite Hr in Hs.
  apply (sorted_app_le _ (sort_cmp_consistent now daysDesc) l1 x l2 y) in Hs; [|done].
  unfold le in Hs. simpl in Hs. rewrite cmp_daysDesc_ext, Hyd in Hs.
  destruct (getDaysRemaining now (Task.dueDate x)); [by apply Hs|by destruct Hx].
Qed.

(** C6: With status ["all"], no category and a blank query the page renders
    [tasks] itself: the selected sort option has no effect. *)
Theorem displayedTasks_unsorted_without_filter now tasks f sc q so :
  f = "all" -> default false (truthy <$> sc) = false -> trim q = "" ->
  displayedTasks now tasks f sc q so = tasks.
Proof.
  intros -> Hsc Hq. unfold displayedTasks. rewrite Hq, Hsc. reflexivity.
Qed.
End projection_claims.

(** * The scenarios of the specification, and witnesses *)

Definition buy_milk : Task.t := Task.mk "1" "Buy milk" "" "" "2099-01-01" false.
Definition pay_rent : Task.t := Task.mk "2" "Pay rent" "" "" "" true.
(** 2026-11-09, 01:00 local time. *)
Definition sample_now : Z := (days_from_civil 2026 11 9 * ms_per_day + 3600000)%Z.

(** Status ["active"], no category, no query, no sort: only the open task. *)
Example scenario_active_filter :
  displayedTasks sample_now [buy_milk; pay_rent] "active" None "" none = [buy_milk].
Proof. vm_compute. reflexivity. Qed.

(** The search is case-insensitive: ["MILK"] finds "Buy milk". *)
Example scenario_search_case_insensitive :
  displayedTasks sample_now [buy_milk; pay_rent] "all" None "MILK" none = [buy_milk].
Proof. vm_compute. reflexivity. Qed.

(** The query is lower-cased but not trimmed: ["milk "] passes the
    [trim()] test and then matches nothing. *)
Example scenario_search_trailing_space :
  trim "milk " = "milk" /\
  displayedTasks sample_now [buy_milk; pay_rent] "all" None "milk " none = [].
Proof. vm_compute. split; reflexivity. Qed.

(** With a status filter the day sort applies: ascending puts the dated
    task first, descending puts the undated task first. *)
Example scenario_days_sort :
  displayedTasks sample_now [pay_rent; buy_milk] "completed" None "" daysAsc = [pay_rent] /\
  filteredTasks sample_now [pay_rent; buy_milk] "all" None "" daysAsc = [buy_milk; pay_rent] /\
  filteredTasks sample_now [buy_milk; pay_rent] "all" None "" daysDesc = [pay_rent; buy_milk].
Proof. vm_compute. repeat split; reflexivity. Qed.

Lemma displayedTasks_unsorted_without_filter_witness :
  ("all" = "all" /\ default false (truthy <$> None) = false /\ trim "" = "") /\
  displayedTasks sample_now [pay_rent; buy_milk] "all" None "" daysAsc = [pay_rent; buy_milk].
Proof.
  split; [split; [reflexivity|split; reflexivity]|].
  apply displayedTasks_unsorted_without_filter; reflexivity.
Defined.

Lemma sortTasks_engine_independent_witness :
  [buy_milk; pay_rent] = sortTasks sample_now daysAsc [pay_rent; buy_milk].
Proof.
  apply sortTasks_engine_independent.
  - apply (bool_decide_unpack _). vm_compute. reflexivity.
  - vm_compute. reflexivity.
  - apply (bool_decide_unpack _). vm_compute. reflexivity.
Defined.
