(* ===== verification/Page.v ===== *)
(** * The page component: src/app/page.tsx ([Home])

    [PageState] is the component's React state (lines 45-54) without
    [filteredTasks], which the effect of lines 72-119 derives from the
    other fields (Projection.v).  Each handler of the page is a function on
    the whole system [Sys]: the database, the page state, and the phase of
    the loading effect (lines 56-70).  A handler awaits its db.ts call and
    then applies its [setState] updaters; a rejected call is caught and
    logged ([console.error]) and changes nothing.  The updaters of one
    handler run on the state at the time the call resolves: handlers are
    atomic steps, as the specification's one-operation-at-a-time model
    has it.

    The loading effect is two steps: [loadRead] (the two [getAll] requests
    read the stores) and [loadFinish] ([setTasks], [setCategories],
    [setIsLoading(false)]); other events can happen in between.

    [user_step] is every event the rendered page lets the user trigger,
    with the guards of the child components that trigger it
    ([AddTaskModal.handleSubmit], [CategoryManager.handleSubmit] and
    [handleEditSubmit], [TaskItem]'s toggle and save).  [seq_step] adds the
    loading effect as one atomic step whose reads succeed; [step] adds the
    two loading phases separately, failing reads, and
    [DataManagement.importData], which writes to the database without
    telling the page. *)

From S2P Require Import Prelude JsString Model IdbStore Db DataManagement.

(** ** State *)

Record PageState := mkPage {
  tasks : list Task.t;
  categories : list Category.t;
  isAddModalOpen : bool;
  filter : string;
  selectedCategory : option string;
  searchQuery : string;
  sortOption : SortOption;
  language : Language;
  isLoading : bool
}.

(** The [useState] initial values. *)
Definition initialPage : PageState :=
  mkPage [] [] false "all"%string None ""%string none en true.

Definition set_tasks_p (f : list Task.t -> list Task.t) (p : PageState) : PageState :=
  mkPage (f (tasks p)) (categories p) (isAddModalOpen p) (filter p) (selectedCategory p)
    (searchQuery p) (sortOption p) (language p) (isLoading p).
Definition set_categories_p (f : list Category.t -> list Category.t) (p : PageState) : PageState :=
  mkPage (tasks p) (f (categories p)) (isAddModalOpen p) (filter p) (selectedCategory p)
    (searchQuery p) (sortOption p) (language p) (isLoading p).
Definition set_isAddModalOpen (b : bool) (p : PageState) : PageState :=
  mkPage (tasks p) (categories p) b (filter p) (selectedCategory p)
    (searchQuery p) (sortOption p) (language p) (isLoading p).
Definition set_filter (f : string) (p : PageState) : PageState :=
  mkPage (tasks p) (categories p) (isAddModalOpen p) f (selectedCategory p)
    (searchQuery p) (sortOption p) (language p) (isLoading p).
Definition set_selectedCategory (c : option string) (p : PageState) : PageState :=
  mkPage (tasks p) (categories p) (isAddModalOpen p) (filter p) c
    (searchQuery p) (sortOption p) (language p) (isLoading p).
Definition set_searchQuery (q : string) (p : PageState) : PageState :=
  mkPage (tasks p) (categories p) (isAddModalOpen p) (filter p) (selectedCategory p)
    q (sortOption p) (language p) (isLoading p).
Definition set_sortOption (so : SortOption) (p : PageState) : PageState :=
  mkPage (tasks p) (categories p) (isAddModalOpen p) (filter p) (selectedCategory p)
    (searchQuery p) so (language p) (isLoading p).
Definition set_language (l : Language) (p : PageState) : PageState :=
  mkPage (tasks p) (categories p) (isAddModalOpen p) (filter p) (selectedCategory p)
    (searchQuery p) (sortOption p) l (isLoading p).
Definition set_isLoading (b : bool) (p : PageState) : PageState :=
  mkPage (tasks p) (categories p) (isAddModalOpen p) (filter p) (selectedCategory p)
    (searchQuery p) (sortOption p) (language p) b.

(** The loading effect: not yet read, read (the [Promise.all] has its
    values), or applied. *)
Inductive LoadPhase :=
| LoadPending
| LoadRead (ts : list Task.t) (cs : list Category.t)
| LoadDone.

Section page.
Context {TS CS : Type}.
Context `{!ObjectStore TS Task.t Task.id} `{!ObjectStore CS Category.t Category.id}.

Record Sys := mkSys { sys_db : DB TS CS; sys_page : PageState; sys_load : LoadPhase }.

Definition with_page (f : PageState -> PageState) (s : Sys) : Sys :=
  mkSys (sys_db s) (f (sys_page s)) (sys_load s).

(** The app opened on a profile whose database holds [db0]. *)
Definition init_sys (db0 : DB TS CS) : Sys := mkSys db0 initialPage LoadPending.

(** ** The loading effect (lines 56-70) *)

(** [Promise.all([getAllTasks(), getAllCategories()])]: each read fails
    soft to [[]]. *)
Definition loadRead (okT okC : bool) (s : Sys) : Sys :=
  match sys_load s with
  | LoadPending =>
      mkSys (sys_db s) (sys_page s)
        (LoadRead (getAllTasks okT (sys_db s)) (getAllCategories okC (sys_db s)))
  | _ => s
  end.

(** [setTasks(tasksData); setCategories(categoriesData)], then
    [setIsLoading(false)] in the [finally]. *)
Definition loadFinish (s : Sys) : Sys :=
  match sys_load s with
  | LoadRead ts cs =>
      mkSys (sys_db s)
        (set_isLoading false (set_categories_p (fun _ => cs) (set_tasks_p (fun _ => ts) (sys_page s))))
        LoadDone
  | _ => s
  end.

(** ** Handlers *)

(** [handleAddTask] (lines 132-139) *)
Definition handleAddTask (ok : bool) (now : N) (newTask : NewTask.t) (s : Sys) : Sys :=
  match addTask ok now newTask (sys_db s) with
  | Ok (addedTask, db') =>
      mkSys db' (set_tasks_p (fun prevTasks => prevTasks ++ [addedTask]) (sys_page s)) (sys_load s)
  | Err _ => s
  end.

(** [handleAddCategory] (lines 141-148) *)
Definition handleAddCategory (ok : bool) (now : N) (newCategory : NewCategory.t) (s : Sys) : Sys :=
  match addCategory ok now newCategory (sys_db s) with
  | Ok (addedCategory, db') =>
      mkSys db' (set_categories_p (fun prev => prev ++ [addedCategory]) (sys_page s)) (sys_load s)
  | Err _ => s
  end.

(** [handleEditTask] (lines 150-157) *)
Definition handleEditTask (ok : bool) (id : string) (updates : TaskPatch.t) (s : Sys) : Sys :=
  match updateTask ok id updates (sys_db s) with
  | Ok (updatedTask, db') =>
      mkSys db' (set_tasks_p (replace_by_key Task.id id updatedTask) (sys_page s)) (sys_load s)
  | Err _ => s
  end.

(** [handleDeleteTask] (lines 159-166) *)
Definition handleDeleteTask (ok : bool) (id : string) (s : Sys) : Sys :=
  match deleteTask ok id (sys_db s) with
  | Ok db' => mkSys db' (set_tasks_p (remove_by_key Task.id id) (sys_page s)) (sys_load s)
  | Err _ => s
  end.

(** [handleUpdateCategory] (lines 168-179): looks the category up in the
    rendered [categories] and returns early when it is missing. *)
Definition handleUpdateCategory (ok : bool) (id : string) (updates : CategoryPatch.t) (s : Sys) : Sys :=
  match find_by_key Category.id id (categories (sys_page s)) with
  | None => s
  | Some category =>
      let updatedCategory := spread_category category updates in
      match updateCategory ok id updatedCategory (sys_db s) with
      | Ok db' =>
          mkSys db' (set_categories_p (replace_by_key Category.id id updatedCategory) (sys_page s))
            (sys_load s)
      | Err _ => s
      end
  end.

(** [handleDeleteCategory] (lines 181-191): clears the selection when it
    names the deleted category. *)
Definition handleDeleteCategory (ok : bool) (id : string) (s : Sys) : Sys :=
  match deleteCategory ok id (sys_db s) with
  | Ok db' =>
      let p := set_categories_p (remove_by_key Category.id id) (sys_page s) in
      let p := if bool_decide (selectedCategory (sys_page s) = Some id)
               then set_selectedCategory None p else p in
      mkSys db' p (sys_load s)
  | Err _ => s
  end.

(** [handleSearch] (lines 128-130) and [handleLanguageToggle] (193-195). *)
Definition handleSearch (query : string) (s : Sys) : Sys := with_page (set_searchQuery query) s.
Definition handleLanguageToggle (lang : Language) (s : Sys) : Sys := with_page (set_language lang) s.

(** ** The child components' callbacks *)

(** [AddTaskModal.handleSubmit] (AddTaskModal.tsx, lines 46-59): a blank
    title is rejected before any store call; otherwise the add is started
    and the modal closes. *)
Definition submitAddTask (ok : bool) (now : N) (newTask : NewTask.t) (s : Sys) : Sys :=
  if negb (truthy (trim (NewTask.title newTask))) then s else
  with_page (set_isAddModalOpen false) (handleAddTask ok now newTask s).

(** [CategoryManager.handleSubmit] (CategoryManager.tsx, lines 47-57):
    the name is trimmed and must not be blank. *)
Definition submitCategory (ok : bool) (now : N) (newCategoryName : string)
    (selectedColor : preset_color) (s : Sys) : Sys :=
  if truthy (trim newCategoryName)
  then handleAddCategory ok now (NewCategory.mk (trim newCategoryName) selectedColor) s
  else s.

(** [CategoryManager.handleEditSubmit] (lines 59-64): only the colour. *)
Definition submitCategoryColor (ok : bool) (id : string) (editingColor : preset_color) (s : Sys) : Sys :=
  handleUpdateCategory ok id (CategoryPatch.mk None None (Some editingColor)) s.

(** [TaskItem]'s check button (TaskItem.tsx, line 144). *)
Definition toggleTask (ok : bool) (task : Task.t) (s : Sys) : Sys :=
  handleEditTask ok (Task.id task)
    (patch_of_task (Task.mk (Task.id task) (Task.title task) (Task.description task)
       (Task.category task) (Task.dueDate task) (negb (Task.completed task)))) s.

(** [TaskItem.handleSave] (lines 53-56): the whole [editedTask]. *)
Definition saveTask (ok : bool) (task editedTask : Task.t) (s : Sys) : Sys :=
  handleEditTask ok (Task.id task) (patch_of_task editedTask) s.

(** ** Steps *)

(** What the user can do on the rendered page.  The modal's form only
    while the modal is open; task items for tasks of the state; the
    category manager only once loading is over; a [TaskItem]'s
    [editedTask] carries the task's own [id]. *)
Inductive user_step : Sys -> Sys -> Prop :=
| us_add_task ok now n s :
    isAddModalOpen (sys_page s) = true -> user_step s (submitAddTask ok now n s)
| us_toggle ok t s : t ∈ tasks (sys_page s) -> user_step s (toggleTask ok t s)
| us_save ok t e s :
    t ∈ tasks (sys_page s) -> Task.id e = Task.id t -> user_step s (saveTask ok t e s)
| us_delete_task ok t s : t ∈ tasks (sys_page s) -> user_step s (handleDeleteTask ok (Task.id t) s)
| us_add_category ok now name color s :
    isLoading (sys_page s) = false -> user_step s (submitCategory ok now name color s)
| us_category_color ok c color s :
    isLoading (sys_page s) = false -> c ∈ categories (sys_page s) ->
    user_step s (submitCategoryColor ok (Category.id c) color s)
| us_delete_category ok c s :
    isLoading (sys_page s) = false -> c ∈ categories (sys_page s) ->
    user_step s (handleDeleteCategory ok (Category.id c) s)
| us_select_category sel s :
    isLoading (sys_page s) = false ->
    (sel = None \/ exists c, c ∈ categories (sys_page s) /\ sel = Some (Category.id c)) ->
    user_step s (with_page (set_selectedCategory sel) s)
| us_search q s : user_step s (handleSearch q s)
| us_filter f s : f ∈ ["all"; "active"; "completed"]%string -> user_step s (with_page (set_filter f) s)
| us_sort so s : user_step s (with_page (set_sortOption so) s)
| us_language l s : user_step s (handleLanguageToggle l s)
| us_modal b s : user_step s (with_page (set_isAddModalOpen b) s).

(** One operation at a time, and the initial reads succeed. *)
Inductive seq_step : Sys -> Sys -> Prop :=
| ss_user s s' : user_step s s' -> seq_step s s'
| ss_load s : sys_load s = LoadPending -> seq_step s (loadFinish (loadRead true true s)).

(** Everything the running app can do. *)
Inductive step : Sys -> Sys -> Prop :=
| st_user s s' : user_step s s' -> step s s'
| st_load_read okT okC s : sys_load s = LoadPending -> step s (loadRead okT okC s)
| st_load_finish s : step s (loadFinish s)
| st_import env data s :
    step s (mkSys (importData env data (sys_db s)).1 (sys_page s) (sys_load s)).

(** ** The invariant *)

(** The page's arrays hold exactly the stored records, once each. *)
Definition consistent (s : Sys) : Prop :=
  to_map Task.id (tasks (sys_page s)) = os_abs (tasks_store (sys_db s)) /\
  NoDup (keys Task.id (tasks (sys_page s))) /\
  to_map Category.id (categories (sys_page s)) = os_abs (categories_store (sys_db s)) /\
  NoDup (keys Category.id (categories (sys_page s))).

Definition sys_inv (s : Sys) : Prop :=
  db_wf (sys_db s) /\
  (isLoading (sys_page s) = false -> sys_load s = LoadDone) /\
  (sys_load s = LoadDone -> consistent s).
End page.

Arguments Sys : clear implicits.

(** * The page mirrors the database *)

Section page_proofs.
Context {TS CS : Type}.
Context `{!ObjectStore TS Task.t Task.id} `{!ObjectStore CS Category.t Category.id}.
Implicit Types (s : Sys TS CS).

(** A handler that changes only the database and the two arrays keeps
    the invariant when the new arrays mirror the new stores. *)
Lemma sys_inv_update s db' p' :
  sys_inv s -> db_wf db' ->
  isLoading p' = isLoading (sys_page s) ->
  (sys_load s = LoadDone -> consistent s -> consistent (mkSys db' p' (sys_load s))) ->
  sys_inv (mkSys db' p' (sys_load s)).
Proof.
  intros (Hwf&Hl&Hc) Hwf' Hisl Hk. split; [done|]. simpl. split.
  - rewrite Hisl. done.
  - intros Hd. by apply Hk, Hc.
Qed.

Lemma with_page_inv s f :
  sys_inv s ->
  (forall p, tasks (f p) = tasks p /\ categories (f p) = categories p /\
             isLoading (f p) = isLoading p) ->
  sys_inv (with_page f s).
Proof.
  intros Hi Hf. destruct (Hf (sys_page s)) as (Ht&Hc&Hl).
  apply sys_inv_update; [done|apply Hi|done|]. unfold consistent. simpl. by rewrite Ht, Hc.
Qed.

Lemma handleAddTask_inv ok now n s : sys_inv s -> sys_inv (handleAddTask ok now n s).
Proof.
  intros Hi. unfold handleAddTask.
  destruct (addTask ok now n (sys_db s)) as [[r db']|] eqn:E; [|done].
  pose proof (addTask_wf _ _ _ _ _ _ (proj1 Hi) E) as Hwf'.
  apply sys_inv_update; [done..|]. intros _ (Ht&Hnt&Hc&Hnc).
  destruct ok; [|done]. apply addTask_abs in E as (->&Hfresh&Habs&Hcat); [|apply Hi].
  rewrite <- Ht in Hfresh. apply lookup_to_map_None in Hfresh.
  unfold consistent; simpl. rewrite Hcat, to_map_snoc, Habs, Ht by done.
  auto using NoDup_keys_snoc.
Qed.

Lemma handleAddCategory_inv ok now n s : sys_inv s -> sys_inv (handleAddCategory ok now n s).
Proof.
  intros Hi. unfold handleAddCategory.
  destruct (addCategory ok now n (sys_db s)) as [[r db']|] eqn:E; [|done].
  pose proof (addCategory_wf _ _ _ _ _ _ (proj1 Hi) E) as Hwf'.
  apply sys_inv_update; [done..|]. intros _ (Ht&Hnt&Hc&Hnc).
  destruct ok; [|done]. apply addCategory_abs in E as (->&Hfresh&Habs&Htk); [|apply Hi].
  rewrite <- Hc in Hfresh. apply lookup_to_map_None in Hfresh.
  unfold consistent; simpl. rewrite Htk, to_map_snoc, Habs, Hc by done.
  auto using NoDup_keys_snoc.
Qed.

(** The page's edits always send a payload carrying the task's own id. *)
Lemma handleEditTask_inv ok id e s :
  Task.id e = id -> sys_inv s -> sys_inv (handleEditTask ok id (patch_of_task e) s).
Proof.
  intros He Hi. unfold handleEditTask.
  destruct (updateTask ok id _ (sys_db s)) as [[r db']|] eqn:E; [|done].
  pose proof (updateTask_wf _ _ _ _ _ _ (proj1 Hi) E) as Hwf'.
  apply sys_inv_update; [done..|]. intros _ (Ht&Hnt&Hc&Hnc).
  destruct ok; [|done]. rewrite updateTask_spec in E by apply Hi.
  destruct (os_abs _ !! id) as [old|] eqn:Hold; [|done].
  injection E as <- <-. rewrite spread_task_whole.
  assert (id ∈ keys Task.id (tasks (sys_page s))) as Hin.
  { rewrite <- Ht in Hold. by eapply lookup_to_map_Some. }
  unfold consistent; simpl. rewrite to_map_replace, os_abs_put, Ht, He by (done || apply Hi).
  rewrite keys_replace by done. auto.
Qed.

Lemma handleDeleteTask_inv ok id s : sys_inv s -> sys_inv (handleDeleteTask ok id s).
Proof.
  intros Hi. unfold handleDeleteTask.
  destruct (deleteTask ok id (sys_db s)) as [db'|] eqn:E; [|done].
  pose proof (deleteTask_wf _ _ _ _ (proj1 Hi) E) as Hwf'.
  apply sys_inv_update; [done..|]. intros _ (Ht&Hnt&Hc&Hnc).
  destruct ok; [|done]. apply deleteTask_abs in E as (Habs&Hcat); [|apply Hi].
  unfold consistent; simpl. rewrite to_map_remove, Habs, Hcat, Ht.
  auto using NoDup_keys_remove.
Qed.

Lemma handleUpdateCategory_inv ok id u s :
  CategoryPatch.id u = None -> sys_inv s -> sys_inv (handleUpdateCategory ok id u s).
Proof.
  intros Hu Hi. unfold handleUpdateCategory.
  destruct (find_by_key Category.id id _) as [c|] eqn:Hf; [|done].
  apply find_by_key_Some in Hf as (Hc_in&Hcid).
  destruct (updateCategory ok id _ (sys_db s)) as [db'|] eqn:E; [|done].
  pose proof (updateCategory_wf _ _ _ _ _ (proj1 Hi) E) as Hwf'.
  apply sys_inv_update; [done..|]. intros _ (Ht&Hnt&Hc&Hnc).
  destruct ok; [|done].
  assert (Category.id (spread_category c u) = id) as Hid by (by rewrite spread_category_id, Hu).
  pose proof (updateCategory_abs _ _ _ _ (proj1 Hi) E) as Habs. rewrite Hid in Habs.
  injection E as <-. simpl in Habs.
  assert (id ∈ keys Category.id (categories (sys_page s))) as Hin.
  { apply elem_of_keys. by exists c. }
  unfold consistent; simpl. rewrite to_map_replace, Habs, Hc by done.
  rewrite keys_replace by done. auto.
Qed.

Lemma handleDeleteCategory_inv ok id s : sys_inv s -> sys_inv (handleDeleteCategory ok id s).
Proof.
  intros Hi. unfold handleDeleteCategory.
  destruct (deleteCategory ok id (sys_db s)) as [db'|] eqn:E; [|done].
  pose proof (deleteCategory_wf _ _ _ _ (proj1 Hi) E) as Hwf'.
  apply sys_inv_update; [done|done|by case_bool_decide|]. intros _ (Ht&Hnt&Hc&Hnc).
  destruct ok; [|done]. apply deleteCategory_abs in E as (Habs&Htk); [|apply Hi].
  unfold consistent; simpl. case_bool_decide; simpl;
    rewrite to_map_remove, Habs, Htk, Hc; auto using NoDup_keys_remove.
Qed.

Lemma user_step_inv s s' : user_step s s' -> sys_inv s -> sys_inv s'.
Proof.
  intros Hstep Hi. destruct Hstep.
  - unfold submitAddTask. case_match; [done|].
    apply with_page_inv; [by apply handleAddTask_inv|done].
  - by apply handleEditTask_inv.
  - by apply handleEditTask_inv.
  - by apply handleDeleteTask_inv.
  - unfold submitCategory. case_match; [by apply handleAddCategory_inv|done].
  - by apply handleUpdateCategory_inv.
  - by apply handleDeleteCategory_inv.
  - by apply with_page_inv.
  - by apply with_page_inv.
  - by apply with_page_inv.
  - by apply with_page_inv.
  - by apply with_page_inv.
  - by apply with_page_inv.
Qed.

(** The atomic load: the arrays become the stores' contents. *)
Lemma load_inv s : sys_load s = LoadPending -> sys_inv s -> sys_inv (loadFinish (loadRead true true s)).
Proof.
  intros Hp (Hwf&Hl&Hc). unfold loadRead. rewrite Hp. unfold loadFinish. simpl.
  split; [done|]. split; [done|]. intros _. unfold consistent; simpl.
  split; [by apply os_getAll_abs, Hwf|]. split; [by apply os_getAll_nodup, Hwf|].
  split; [by apply os_getAll_abs, Hwf|]. by apply os_getAll_nodup, Hwf.
Qed.

Lemma seq_step_inv s s' : seq_step s s' -> sys_inv s -> sys_inv s'.
Proof. destruct 1; [by apply user_step_inv|by apply load_inv]. Qed.

Lemma init_sys_inv db0 : db_wf db0 -> sys_inv (init_sys db0).
Proof. intros Hwf. split; [done|]. split; done. Qed.

(** Every state a sequential run reaches satisfies the invariant. *)
Lemma seq_reachable_inv db0 s : db_wf db0 -> rtc seq_step (init_sys db0) s -> sys_inv s.
Proof.
  intros Hwf. apply (rtc_ind_r (fun x => sys_inv x)); [by apply init_sys_inv|].
  intros y z _ Hyz IH. by eapply seq_step_inv.
Qed.

(** C1: Store/UI consistency: when operations run one at a time and the
    initial reads succeed, once loading is over the page's [tasks] and
    [categories] hold exactly the stored records, each once. *)
Theorem page_consistent_sequential db0 s :
  db_wf db0 -> rtc seq_step (init_sys db0) s -> sys_load s = LoadDone -> consistent s.
Proof. intros Hwf Hr. by apply (seq_reachable_inv db0 s Hwf Hr). Qed.
End page_proofs.

(** * What holds in every run, and what does not *)

Section page_runs.
Context {TS CS : Type}.
Context `{!ObjectStore TS Task.t Task.id} `{!ObjectStore CS Category.t Category.id}.
Implicit Types (s : Sys TS CS).

(** A handler whose only effect on the database is one db.ts call. *)
Definition db_effect (h : Sys TS CS -> Sys TS CS) : Prop :=
  forall s, sys_db (h s) = sys_db s \/ db_step (sys_db s) (sys_db (h s)).

Lemma handleAddTask_db ok now n : db_effect (handleAddTask ok now n).
Proof.
  intros s. unfold handleAddTask.
  destruct (addTask _ _ _ _) as [[r db']|] eqn:E; [right; by econstructor|by left].
Qed.

Lemma handleAddCategory_db ok now n : db_effect (handleAddCategory ok now n).
Proof.
  intros s. unfold handleAddCategory.
  destruct (addCategory _ _ _ _) as [[r db']|] eqn:E; [right; by econstructor|by left].
Qed.

Lemma handleEditTask_db ok id u : db_effect (handleEditTask ok id u).
Proof.
  intros s. unfold handleEditTask.
  destruct (updateTask _ _ _ _) as [[r db']|] eqn:E; [right; by econstructor|by left].
Qed.

Lemma handleDeleteTask_db ok id : db_effect (handleDeleteTask ok id).
Proof.
  intros s. unfold handleDeleteTask.
  destruct (deleteTask _ _ _) as [db'|] eqn:E; [right; by econstructor|by left].
Qed.

Lemma handleUpdateCategory_db ok id u : db_effect (handleUpdateCategory ok id u).
Proof.
  intros s. unfold handleUpdateCategory. destruct (find_by_key _ _ _); [|by left].
  destruct (updateCategory _ _ _ _) as [db'|] eqn:E; [right; by econstructor|by left].
Qed.

Lemma handleDeleteCategory_db ok id : db_effect (handleDeleteCategory ok id).
Proof.
  intros s. unfold handleDeleteCategory.
  destruct (deleteCategory _ _ _) as [db'|] eqn:E; [right; by econstructor|by left].
Qed.

(** Each user event issues at most one successful db.ts call. *)
Lemma user_step_db s s' :
  user_step s s' -> sys_db s' = sys_db s \/ db_step (sys_db s) (sys_db s').
Proof.
  destruct 1.
  - unfold submitAddTask. case_match; [by left|exact (handleAddTask_db ok now n s)].
  - apply handleEditTask_db.
  - apply handleEditTask_db.
  - apply handleDeleteTask_db.
  - unfold submitCategory. case_match; [apply handleAddCategory_db|by left].
  - apply handleUpdateCategory_db.
  - apply handleDeleteCategory_db.
  - left; reflexivity.
  - left; reflexivity.
  - left; reflexivity.
  - left; reflexivity.
  - left; reflexivity.
  - left; reflexivity.
Qed.

Lemma step_db_wf s s' : step s s' -> db_wf (sys_db s) -> db_wf (sys_db s').
Proof.
  destruct 1 as [s s' Hu|okT okC s _|s|env data s]; intros Hwf.
  - destruct (user_step_db _ _ Hu) as [->|Hd]; [done|by eapply db_wf_step].
  - unfold loadRead. by case_match.
  - unfold loadFinish. by case_match.
  - by apply importData_wf.
Qed.




(** No event of the rendered page changes the load phase or the
    [isLoading] flag. *)
Lemma user_step_phase s s' :
  user_step s s' -> sys_load s' = sys_load s /\ isLoading (sys_page s') = isLoading (sys_page s).
Proof.
  destruct 1; unfold submitAddTask, handleAddTask, toggleTask, saveTask, handleEditTask,
    handleDeleteTask, submitCategory, handleAddCategory, submitCategoryColor,
    handleUpdateCategory, handleDeleteCategory, handleSearch, handleLanguageToggle, with_page;
    repeat case_match; split; reflexivity.
Qed.

(** [isLoading] is [false] once the loading effect has applied its values. *)
Definition load_flag s : Prop := sys_load s = LoadDone -> isLoading (sys_page s) = false.

Lemma step_load_flag s s' : step s s' -> load_flag s -> load_flag s'.
Proof.
  unfold load_flag. destruct 1 as [s s' Hu|okT okC s Hp|s|env data s]; intros Hf.
  - destruct (user_step_phase s s' Hu) as [-> ->]. done.
  - unfold loadRead. rewrite Hp. discriminate.
  - unfold loadFinish. case_match eqn:E; intros Hd; [congruence|reflexivity|by apply Hf].
  - done.
Qed.

(** A step from a finished load keeps it finished and keeps [isLoading]. *)
Lemma step_done s s' :
  step s s' -> sys_load s = LoadDone -> sys_load s' = LoadDone /\ isLoading (sys_page s') = isLoading (sys_page s).
Proof.
  destruct 1 as [s s' Hu|okT okC s Hp|s|env data s]; intros Hd.
  - destruct (user_step_phase s s' Hu) as [-> ->]. done.
  - congruence.
  - unfold loadFinish. by rewrite Hd.
  - done.
Qed.

(** C5: Liveness of loading: from any reachable state, whatever the two
    reads return, the loading effect's remaining steps (at most a read and
    an apply) finish it without touching the database, the spinner is
    gone, and no later step, in any interleaving, brings it back. *)
Theorem loading_completes db0 s okT okC :
  rtc step (init_sys db0) s ->
  let s' := loadFinish (loadRead okT okC s) in
  rtc step s s' /\ sys_load s' = LoadDone /\ isLoading (sys_page s') = false /\ sys_db s' = sys_db s /\
  forall s'', rtc step s' s'' -> sys_load s'' = LoadDone /\ isLoading (sys_page s'') = false.
Proof.
  intros Hr s'.
  assert (load_flag s) as Hf.
  { revert Hr. apply (rtc_ind_r load_flag); [discriminate|]. intros y z _ ? ?. by eapply step_load_flag. }
  assert (sys_load s' = LoadDone /\ isLoading (sys_page s') = false /\ sys_db s' = sys_db s) as (Hd&Hl&Hdb).
  { unfold s', loadRead, loadFinish. destruct (sys_load s) eqn:E; simpl; rewrite ?E; auto. }
  split; [|split; [done|split; [done|split; [done|]]]].
  { apply (rtc_r _ (loadRead okT okC s)); [|apply st_load_finish].
    destruct (sys_load s) eqn:E; [by apply rtc_once, st_load_read|..];
      unfold loadRead; rewrite E; apply rtc_refl. }
  intros s'' Hss. clearbody s'. clear Hdb. revert Hd Hl.
  induction Hss as [x|x y z Hxy _ IH]; intros Hd Hl; [done|].
  destruct (step_done x y Hxy Hd) as [Hd' Hl']. apply IH; congruence.
Qed.

(** C22: Deleting the selected category clears the selection; the tasks that
    refer to it are left as they are. *)
Theorem handleDeleteCategory_clears_selection id s :
  selectedCategory (sys_page s) = Some id ->
  selectedCategory (sys_page (handleDeleteCategory true id s)) = None /\
  id ∉ keys Category.id (categories (sys_page (handleDeleteCategory true id s))) /\
  tasks (sys_page (handleDeleteCategory true id s)) = tasks (sys_page s).
Proof.
  intros Hsel. unfold handleDeleteCategory; simpl. rewrite bool_decide_true by done. simpl.
  split; [done|]. split; [|done]. rewrite keys_remove.
  intros Hin%list_elem_of_filter. naive_solver.
Qed.
(** C15: All or nothing: whenever the db.ts call of a handler rejects,
    whatever the error ([StorageError] from the browser, [ConstraintError]
    on a taken key, ["Task not found"]), the handler leaves the whole
    state, stores and page, as it was; the page only logs the error. *)
Theorem handlers_fail_atomic ok now id nt nc tu cu s :
  (forall e, addTask ok now nt (sys_db s) = Err e -> handleAddTask ok now nt s = s) /\
  (forall e, addCategory ok now nc (sys_db s) = Err e -> handleAddCategory ok now nc s = s) /\
  (forall e, updateTask ok id tu (sys_db s) = Err e -> handleEditTask ok id tu s = s) /\
  (forall e, deleteTask ok id (sys_db s) = Err e -> handleDeleteTask ok id s = s) /\
  (forall c e, find_by_key Category.id id (categories (sys_page s)) = Some c ->
     updateCategory ok id (spread_category c cu) (sys_db s) = Err e -> handleUpdateCategory ok id cu s = s) /\
  (forall e, deleteCategory ok id (sys_db s) = Err e -> handleDeleteCategory ok id s = s).
Proof.
  unfold handleAddTask, handleAddCategory, handleEditTask, handleDeleteTask, handleUpdateCategory,
    handleDeleteCategory.
  repeat split; intros *; [intros ->..|intros -> ->|intros ->]; done.
Qed.

(** C25: The load race: when an add completes between the initial reads
    and the application of their values, the add is stored and appended
    to the page, and then [setTasks(tasksData)] replaces the page's tasks
    with the snapshot read before it: loading ends with the new task
    stored but not shown. *)
Theorem load_race_hides_added_task s now n :
  db_wf (sys_db s) -> sys_load s = LoadPending ->
  os_abs (tasks_store (sys_db s)) !! number_to_string now = None ->
  let s' := loadFinish (handleAddTask true now n (loadRead true true s)) in
  sys_load s' = LoadDone /\ tasks (sys_page s') = getAllTasks true (sys_db s) /\
  os_abs (tasks_store (sys_db s')) !! number_to_string now = Some (task_with_id n (number_to_string now)) /\
  task_with_id n (number_to_string now) ∉ tasks (sys_page s').
Proof.
  intros Hwf Hp Hfree s'.
  assert (handleAddTask true now n (loadRead true true s) =
    mkSys (set_tasks (os_put (task_with_id n (number_to_string now)) (tasks_store (sys_db s))) (sys_db s))
      (set_tasks_p (fun prev => prev ++ [task_with_id n (number_to_string now)]) (sys_page s))
      (LoadRead (getAllTasks true (sys_db s)) (getAllCategories true (sys_db s)))) as Hadd.
  { unfold handleAddTask, loadRead. rewrite Hp. simpl. by rewrite addTask_spec, Hfree. }
  unfold s'. rewrite Hadd. unfold loadFinish. simpl.
  split; [done|]. split; [done|]. split.
  - rewrite os_abs_put by apply Hwf. apply lookup_insert_eq.
  - intros Hin. assert (number_to_string now ∈ keys Task.id (os_getAll (tasks_store (sys_db s)))) as Hk.
    { apply elem_of_keys. by eexists; split; [exact Hin|]. }
    apply lookup_to_map_None in Hk; [done|]. by rewrite os_getAll_abs by apply Hwf.
Qed.

(** C26: A failed initial read of the tasks is turned into [[]]: loading
    still ends, the page shows no task, the store is untouched, and when
    the store holds a task the page no longer mirrors it. *)
Theorem failed_load_hides_stored_tasks s okC :
  sys_load s = LoadPending ->
  let s' := loadFinish (loadRead false okC s) in
  sys_load s' = LoadDone /\ isLoading (sys_page s') = false /\ tasks (sys_page s') = [] /\
  sys_db s' = sys_db s /\ (os_abs (tasks_store (sys_db s)) <> ∅ -> ~ consistent s').
Proof.
  intros Hp s'. unfold s', loadRead. rewrite Hp. unfold loadFinish. simpl.
  split; [done|]. split; [done|]. split; [done|]. split; [done|].
  intros Hne [Ht _]. apply Hne. cbn [sys_db sys_page tasks set_isLoading set_categories_p set_tasks_p] in Ht.
  by rewrite <- Ht.
Qed.
End page_runs.

(** ** Runs of the app on the list-backed stores *)

Notation AppSys := (Sys (list Task.t) (list Category.t)).

Definition new_task_X : NewTask.t := NewTask.mk "X" "" "" "" false.



(** The state the app reaches on an empty database once loading is over. *)
Definition loaded_empty : AppSys := loadFinish (loadRead true true (init_sys initDB)).

(** C27: An import writes to the database behind the page's back: after it the
    store holds a task the page does not show. *)
Theorem import_not_reflected :
  exists s s' : AppSys,
    rtc seq_step (init_sys initDB) s /\ consistent s /\ step s s' /\
    tasks (sys_page s') = [] /\ getAllTasks true (sys_db s') <> [].
Proof.
  exists loaded_empty. eexists. split; [|split; [|split; [|split]]].
  - eapply rtc_l; [apply ss_load; reflexivity|]. apply rtc_refl.
  - vm_compute. repeat split; constructor.
  - apply (st_import (fun _ => (true, 5%N))
      (Some (mkImportData (Some [task_with_id new_task_X "9"]) (Some [])))).
  - reflexivity.
  - vm_compute. discriminate.
Qed.

(** C28: The modal rejects a blank title, but [TaskItem]'s edit form saves any
    title: a task with an empty title is reachable. *)
Theorem blank_title_reachable :
  exists s : AppSys, rtc seq_step (init_sys initDB) s /\
    exists t, t ∈ tasks (sys_page s) /\ Task.title t = "".
Proof.
  set (t := task_with_id new_task_X "1").
  set (e := Task.mk "1" "" "" "" "" false).
  eexists. split.
  - eapply rtc_l; [apply ss_load; reflexivity|].
    eapply rtc_l; [apply ss_user, (us_modal true)|].
    eapply rtc_l; [apply ss_user, (us_add_task true 1 new_task_X); reflexivity|].
    eapply rtc_l; [apply ss_user, (us_save true t e); [vm_compute; left|reflexivity]|].
    apply rtc_refl.
  - exists e. split; [vm_compute; left|reflexivity].
Qed.

Lemma handleDeleteCategory_clears_selection_witness :
  let s : AppSys := with_page (set_selectedCategory (Some "7")) loaded_empty in
  selectedCategory (sys_page s) = Some "7" /\
  selectedCategory (sys_page (handleDeleteCategory true "7" s)) = None.
Proof.
  intros s. split; [reflexivity|].
  apply (handleDeleteCategory_clears_selection "7" s). reflexivity.
Defined.

Lemma loaded_empty_seq : rtc seq_step (init_sys initDB) loaded_empty.
Proof. eapply rtc_l; [apply ss_load; reflexivity|]. apply rtc_refl. Qed.

Lemma page_consistent_sequential_witness : consistent loaded_empty.
Proof.
  apply (page_consistent_sequential initDB loaded_empty).
  - apply db_wf_initDB.
  - apply loaded_empty_seq.
  - reflexivity.
Defined.


(** Both reads failing on a fresh profile: loading still completes. *)
Lemma loading_completes_witness :
  let s' : AppSys := loadFinish (loadRead false false (init_sys initDB)) in
  rtc step (init_sys initDB) s' /\ isLoading (sys_page s') = false.
Proof.
  destruct (loading_completes initDB (init_sys initDB) false false (rtc_refl _ _)) as (H1&_&H2&_).
  split; [exact H1|exact H2].
Defined.


(** An add under a taken key and an edit of a missing task, on the app
    after one add at [Date.now() = 5]. *)
Definition one_task_sys : AppSys := handleAddTask true 5 new_task_X loaded_empty.

Lemma handlers_fail_atomic_witness :
  handleAddTask true 5 new_task_X one_task_sys = one_task_sys /\
  handleEditTask true "9" TaskPatch.empty one_task_sys = one_task_sys.
Proof.
  destruct (handlers_fail_atomic true 5 "9" new_task_X (NewCategory.mk "" red) TaskPatch.empty
    (CategoryPatch.mk None None None) one_task_sys) as (H1&_&H3&_).
  split; [apply (H1 ConstraintError)|apply (H3 TaskNotFound)]; vm_compute; reflexivity.
Defined.

Lemma load_race_hides_added_task_witness :
  task_with_id new_task_X "1" ∉
    tasks (sys_page (loadFinish (handleAddTask true 1 new_task_X (loadRead true true (init_sys initDB))) : AppSys)).
Proof.
  apply (load_race_hides_added_task (init_sys initDB) 1 new_task_X); [apply db_wf_initDB|reflexivity|].
  vm_compute. reflexivity.
Defined.

Definition one_task_db : DB (list Task.t) (list Category.t) := mkDB [task_with_id new_task_X "1"] [].

Lemma failed_load_hides_stored_tasks_witness :
  ~ consistent (loadFinish (loadRead false true (init_sys one_task_db)) : AppSys).
Proof.
  apply (failed_load_hides_stored_tasks (init_sys one_task_db) true); [reflexivity|].
  vm_compute. discriminate.
Defined.
