(* ===== verification/CollectionSpec.v ===== *)
(** * The page against the specification of Collection State

    The specification (§3 and §4.2) describes Collection State abstractly:
    two collections of records keyed by identifier, changed only by an add
    under a fresh identifier, a merge of given fields into an existing
    record that keeps its identifier, a delete, or nothing at all (a
    failed store call, or an event that touches no collection).
    [spec_step] is that contract.  [view] reads the page's two arrays as
    such collections.  The refinement theorem shows that once loading is
    over every event the rendered page handles moves [view] by one
    [spec_step]. *)

From S2P Require Import Prelude JsString Model IdbStore Db Page.

(** ** The specification *)

Record Collections := mkCollections {
  col_tasks : gmap string Task.t;
  col_categories : gmap string Category.t
}.

Inductive spec_step : Collections -> Collections -> Prop :=
| sp_stutter c : spec_step c c
| sp_add_task T C t :
    T !! Task.id t = None -> spec_step (mkCollections T C) (mkCollections (<[Task.id t := t]> T) C)
| sp_edit_task T C id old u :
    T !! id = Some old -> TaskPatch.id u = None \/ TaskPatch.id u = Some id ->
    spec_step (mkCollections T C) (mkCollections (<[id := spread_task old u]> T) C)
| sp_delete_task T C id : spec_step (mkCollections T C) (mkCollections (delete id T) C)
| sp_add_category T C c :
    C !! Category.id c = None -> spec_step (mkCollections T C) (mkCollections T (<[Category.id c := c]> C))
| sp_update_category T C id old u :
    C !! id = Some old -> CategoryPatch.id u = None ->
    spec_step (mkCollections T C) (mkCollections T (<[id := spread_category old u]> C))
| sp_delete_category T C id : spec_step (mkCollections T C) (mkCollections T (delete id C)).

Section refinement.
Context {TS CS : Type}.
Context `{!ObjectStore TS Task.t Task.id} `{!ObjectStore CS Category.t Category.id}.
Implicit Types (s : Sys TS CS) (db : DB TS CS).

(** The page's collections. *)
Definition view s : Collections :=
  mkCollections (to_map Task.id (tasks (sys_page s))) (to_map Category.id (categories (sys_page s))).

(** The stores' collections. *)
Definition store_view db : Collections :=
  mkCollections (os_abs (tasks_store db)) (os_abs (categories_store db)).

Lemma view_store s : sys_inv s -> sys_load s = LoadDone -> view s = store_view (sys_db s).
Proof. intros (_&_&Hc) Hd. destruct (Hc Hd) as (Ht&_&Hk&_). unfold view, store_view. by rewrite Ht, Hk. Qed.

(** A handler whose database effect, once loading is over, is one
    [spec_step]. *)
Definition spec_effect (h : Sys TS CS -> Sys TS CS) : Prop :=
  forall s, sys_inv s -> sys_load s = LoadDone ->
  spec_step (store_view (sys_db s)) (store_view (sys_db (h s))).

Lemma handleAddTask_spec ok now n : spec_effect (handleAddTask ok now n).
Proof.
  intros s Hi _. unfold handleAddTask.
  destruct (addTask ok now n (sys_db s)) as [[r db']|] eqn:E; [|constructor].
  destruct ok; [|done]. apply addTask_abs in E as (->&Hfresh&Habs&Hcat); [|apply Hi].
  unfold store_view; simpl. rewrite Habs, Hcat. by constructor.
Qed.

Lemma handleAddCategory_spec ok now n : spec_effect (handleAddCategory ok now n).
Proof.
  intros s Hi _. unfold handleAddCategory.
  destruct (addCategory ok now n (sys_db s)) as [[r db']|] eqn:E; [|constructor].
  destruct ok; [|done]. apply addCategory_abs in E as (->&Hfresh&Habs&Htk); [|apply Hi].
  unfold store_view; simpl. rewrite Habs, Htk. by constructor.
Qed.

(** The page's edits send a whole task under its own identifier. *)
Lemma handleEditTask_spec ok e : spec_effect (handleEditTask ok (Task.id e) (patch_of_task e)).
Proof.
  intros s Hi _. unfold handleEditTask.
  destruct (updateTask ok _ _ (sys_db s)) as [[r db']|] eqn:E; [|constructor].
  destruct ok; [|done]. rewrite updateTask_spec in E by apply Hi.
  destruct (os_abs _ !! Task.id e) as [old|] eqn:Hold; [|done]. injection E as <- <-.
  unfold store_view; simpl. rewrite os_abs_put by apply Hi. rewrite spread_task_id. simpl.
  destruct (sys_db s). by apply sp_edit_task; [|right].
Qed.

Lemma handleDeleteTask_spec ok id : spec_effect (handleDeleteTask ok id).
Proof.
  intros s Hi _. unfold handleDeleteTask.
  destruct (deleteTask ok id (sys_db s)) as [db'|] eqn:E; [|constructor].
  destruct ok; [|done]. apply deleteTask_abs in E as (Habs&Hcat); [|apply Hi].
  unfold store_view; simpl. rewrite Habs, Hcat. constructor.
Qed.

(** The manager only recolours, a patch without an identifier. *)
Lemma handleUpdateCategory_spec ok id u :
  CategoryPatch.id u = None -> spec_effect (handleUpdateCategory ok id u).
Proof.
  intros Hu s Hi Hd. pose proof (view_store s Hi Hd) as Hv. unfold handleUpdateCategory.
  destruct (find_by_key Category.id id _) as [c|] eqn:Hf; [|constructor].
  destruct (updateCategory ok id _ (sys_db s)) as [db'|] eqn:E; [|constructor].
  destruct ok; [|done]. pose proof (updateCategory_abs _ _ _ _ (proj1 Hi) E) as Habs.
  assert (tasks_store db' = tasks_store (sys_db s)) as Htk by (injection E as <-; reflexivity).
  pose proof Hf as [_ Hid]%find_by_key_Some.
  rewrite <- lookup_to_map in Hf. injection Hv as _ Hc. rewrite Hc in Hf.
  unfold store_view; simpl. rewrite Habs, Htk, spread_category_id, Hu. simpl. rewrite Hid.
  by apply sp_update_category.
Qed.

Lemma handleDeleteCategory_spec ok id : spec_effect (handleDeleteCategory ok id).
Proof.
  intros s Hi _. unfold handleDeleteCategory.
  destruct (deleteCategory ok id (sys_db s)) as [db'|] eqn:E; [|constructor].
  destruct ok; [|done]. apply deleteCategory_abs in E as (Habs&Htk); [|apply Hi].
  unfold store_view; simpl. rewrite Habs, Htk. constructor.
Qed.

Lemma with_page_spec f : spec_effect (with_page f).
Proof. intros s _ _. constructor. Qed.

(** Every event of the rendered page, once loading is over, moves the
    stores by one step of the specification. *)
Lemma user_step_spec s s' :
  user_step s s' -> sys_inv s -> sys_load s = LoadDone ->
  spec_step (store_view (sys_db s)) (store_view (sys_db s')).
Proof.
  destruct 1; intros Hi Hd.
  - unfold submitAddTask. case_match; [constructor|]. by apply handleAddTask_spec.
  - by apply (handleEditTask_spec ok (Task.mk _ _ _ _ _ _)).
  - unfold saveTask. rewrite <- H0. by apply handleEditTask_spec.
  - by apply handleDeleteTask_spec.
  - unfold submitCategory. case_match; [by apply handleAddCategory_spec|constructor].
  - by apply handleUpdateCategory_spec.
  - by apply handleDeleteCategory_spec.
  - by apply with_page_spec.
  - by apply with_page_spec.
  - by apply with_page_spec.
  - by apply with_page_spec.
  - by apply with_page_spec.
  - by apply with_page_spec.
Qed.

(** No event of the rendered page changes the load phase. *)
Lemma user_step_load s s' : user_step s s' -> sys_load s' = sys_load s.
Proof. intros Hu. apply (user_step_phase s s' Hu). Qed.

Lemma user_step_refines s s' :
  user_step s s' -> sys_inv s -> sys_load s = LoadDone -> spec_step (view s) (view s').
Proof.
  intros Hu Hi Hd. pose proof (user_step_load s s' Hu) as Hl.
  rewrite (view_store s), (view_store s'); [|by eapply user_step_inv|congruence|done..].
  by apply (user_step_spec s s').
Qed.

(** C2: Refinement, one step at a time: once the initial load is over,
    every step of a sequential run moves the page's collections by exactly
    one step of the specification (an add under a fresh identifier, a
    merge that keeps the identifier, a delete, or nothing), and afterwards
    they are still the stores' collections. *)
Theorem page_refines_spec db0 s s' :
  db_wf db0 -> rtc seq_step (init_sys db0) s -> sys_load s = LoadDone -> seq_step s s' ->
  spec_step (view s) (view s') /\ view s' = store_view (sys_db s').
Proof.
  intros Hwf Hr Hd Hs. pose proof (seq_reachable_inv db0 s Hwf Hr) as Hi.
  destruct Hs as [s s' Hu|s Hp]; [|congruence].
  split; [by apply user_step_refines|].
  apply view_store; [by eapply user_step_inv|by rewrite (user_step_load s s' Hu)].
Qed.
End refinement.

(** Loading an empty database, opening the modal and adding a task. *)
Lemma page_refines_spec_witness :
  let s : AppSys := with_page (set_isAddModalOpen true) loaded_empty in
  spec_step (view s) (view (submitAddTask true 5 new_task_X s)).
Proof.
  intros s. apply (page_refines_spec initDB s).
  - apply db_wf_initDB.
  - eapply rtc_r; [apply loaded_empty_seq|apply ss_user, (us_modal true)].
  - reflexivity.
  - apply ss_user, us_add_task. reflexivity.
Defined.
