(* ===== verification/TaskItem.v ===== *)
(** * A task's card: src/app/components/TaskItem.tsx

    The page renders one [TaskItem] per displayed task, keyed by the task's
    [id].  A card holds two pieces of local state, [isEditing] and
    [editedTask]; [useState(task)] (line 33) reads its argument only when
    the card is mounted, so [editedTask] is a snapshot of the task taken
    then, and nothing refreshes it when the page's task changes.  The check
    button (line 144) sends the current [task] prop with [completed]
    negated; the save button (lines 53-56) sends the snapshot as edited.

    [Card] pairs the application state of Page.v with the card of one task
    identifier; its [task] prop is the page's current record under that
    identifier. *)

From S2P Require Import Prelude JsString Model IdbStore Db Dates Page.

Local Open Scope string_scope.

(** The local state of a card. *)
Record ItemState := mkItem { isEditing : bool; editedTask : Task.t }.

(** [useState(false)] and [useState(task)]: the state at mount. *)
Definition mountItem (task : Task.t) : ItemState := mkItem false task.

(** The edit button (line 189) and the cancel button (line 127) only flip
    [isEditing]: neither reloads [editedTask] from the [task] prop. *)
Definition startEditing (st : ItemState) : ItemState := mkItem true (editedTask st).
Definition cancelEditing (st : ItemState) : ItemState := mkItem false (editedTask st).

(** The four inputs of the edit form (lines 96-118):
    [setEditedTask({ ...editedTask, field: e.target.value })]. *)
Inductive EditField :=
| EditTitle (v : string)
| EditDescription (v : string)
| EditCategory (v : string)
| EditDueDate (v : string).

Definition editField (f : EditField) (st : ItemState) : ItemState :=
  let e := editedTask st in
  mkItem (isEditing st)
    match f with
    | EditTitle v => Task.mk (Task.id e) v (Task.description e) (Task.category e) (Task.dueDate e) (Task.completed e)
    | EditDescription v => Task.mk (Task.id e) (Task.title e) v (Task.category e) (Task.dueDate e) (Task.completed e)
    | EditCategory v => Task.mk (Task.id e) (Task.title e) (Task.description e) v (Task.dueDate e) (Task.completed e)
    | EditDueDate v => Task.mk (Task.id e) (Task.title e) (Task.description e) (Task.category e) v (Task.completed e)
    end.

(** [categories.find((c) => c.id === task.category)] (line 35). *)
Definition itemCategory (categories : list Category.t) (task : Task.t) : option Category.t :=
  find_by_key Category.id (Task.category task) categories.

(** [daysRemaining] (lines 37-44) and the badge of lines 169-173, shown
    only for a positive count. *)
Definition daysRemaining (now : Z) (task : Task.t) : option Z :=
  getDaysRemaining now (Task.dueDate task).

Definition daysBadge (now : Z) (task : Task.t) : option Z :=
  match daysRemaining now task with
  | Some d => if bool_decide (0 < d)%Z then Some d else None
  | None => None
  end.

(** date-fns' [MMM]: the abbreviated English month name. *)
Definition month_abbrev (m : Z) : string :=
  nth (Z.to_nat (m - 1)) ["Jan"; "Feb"; "Mar"; "Apr"; "May"; "Jun"; "Jul"; "Aug"; "Sep"; "Oct"; "Nov"; "Dec"] "".

(** [formatDate] (lines 46-51): [""] for an empty or invalid date,
    otherwise [format(date, "MMM dd, yyyy")]. *)
Definition formatDate (dateStr : string) : string :=
  if negb (truthy dateStr) then "" else
  match parse_iso_date dateStr with
  | Some (y, m, d) =>
      month_abbrev m +:+ " " +:+ String.string_of_list_ascii (pad2 d) +:+ ", " +:+
        String.string_of_list_ascii (pad4 y)
  | None => ""
  end.

(** What the card shows when it is not editing (lines 141-185): the check
    mark, the title and description, the date line (only for a non-empty
    [dueDate]) with its badge, and the category chip (its colour and
    name) when the category is found. *)
Record CardView := mkView {
  cv_completed : bool;
  cv_title : string;
  cv_description : string;
  cv_date : option (string * option Z);
  cv_category : option (string * string)
}.

Definition card_view (now : Z) (categories : list Category.t) (task : Task.t) : CardView :=
  mkView (Task.completed task) (Task.title task) (Task.description task)
    (if truthy (Task.dueDate task) then Some (formatDate (Task.dueDate task), daysBadge now task) else None)
    ((fun c => (PRESET_COLORS (Category.color c), Category.name c)) <$> itemCategory categories task).

Section card.
Context {TS CS : Type}.
Context `{!ObjectStore TS Task.t Task.id} `{!ObjectStore CS Category.t Category.id}.

(** The application with the card of the task [card_id]. *)
Record Card := mkCard { card_sys : Sys TS CS; card_id : string; card_item : ItemState }.

(** The card's [task] prop: the page's record under its identifier. *)
Definition card_task (c : Card) : option Task.t :=
  find_by_key Task.id (card_id c) (tasks (sys_page (card_sys c))).

Definition set_item (f : ItemState -> ItemState) (c : Card) : Card :=
  mkCard (card_sys c) (card_id c) (f (card_item c)).

(** The check button: [onEditTask(task.id, { ...task, completed: !task.completed })]. *)
Definition card_toggle (ok : bool) (c : Card) : Card :=
  match card_task c with
  | Some task => mkCard (toggleTask ok task (card_sys c)) (card_id c) (card_item c)
  | None => c
  end.

(** [handleSave]: [onEditTask(task.id, editedTask)], then [setIsEditing(false)]. *)
Definition card_save (ok : bool) (c : Card) : Card :=
  match card_task c with
  | Some task =>
      mkCard (saveTask ok task (editedTask (card_item c)) (card_sys c)) (card_id c)
        (mkItem false (editedTask (card_item c)))
  | None => c
  end.

(** The delete button (line 196): [onDeleteTask(task.id)]. *)
Definition card_delete (ok : bool) (c : Card) : Card :=
  match card_task c with
  | Some task => mkCard (handleDeleteTask ok (Task.id task) (card_sys c)) (card_id c) (card_item c)
  | None => c
  end.
End card.

Arguments Card : clear implicits.

(** * Properties *)

(** A valid [YYYY-MM-DD] date is printed with its month's name, its day
    and its year, each padded as [dd] and [yyyy] pad them. *)
Lemma formatDate_iso (y m d : Z) :
  (0 <= y <= 9999)%Z -> (1 <= m <= 12)%Z -> (1 <= d <= days_in_month y m)%Z ->
  formatDate (iso_date_string (y, m, d)) =
    month_abbrev m +:+ " " +:+ String.string_of_list_ascii (pad2 d) +:+ ", " +:+
      String.string_of_list_ascii (pad4 y).
Proof.
  intros Hy Hm Hd. unfold formatDate. rewrite parse_iso_date_string by lia.
  unfold iso_date_string, pad4. by cbn [String.string_of_list_ascii app].
Qed.

(** A date that does not parse prints nothing, but the date line is
    still shown, empty, because its guard is [task.dueDate &&]. *)
Lemma card_view_invalid_date now cs t :
  truthy (Task.dueDate t) = true -> parse_iso_date (Task.dueDate t) = None ->
  cv_date (card_view now cs t) = Some ("", None).
Proof.
  intros Ht Hp. unfold card_view, formatDate, daysBadge, daysRemaining, getDaysRemaining.
  rewrite Ht, Hp. simpl. by rewrite ?Hp.
Qed.

Section card_proofs.
Context {TS CS : Type}.
Context `{!ObjectStore TS Task.t Task.id} `{!ObjectStore CS Category.t Category.id}.
Implicit Types (s : Sys TS CS).

(** [Task.mk] with the fields of [t] and another completion flag. *)
Definition with_completed (t : Task.t) (b : bool) : Task.t :=
  Task.mk (Task.id t) (Task.title t) (Task.description t) (Task.category t) (Task.dueDate t) b.

(** Once loading is over, a card's [task] prop is the stored record. *)
Lemma card_task_store (c : Card TS CS) :
  sys_inv (card_sys c) -> sys_load (card_sys c) = LoadDone ->
  card_task c = os_abs (tasks_store (sys_db (card_sys c))) !! card_id c.
Proof.
  intros (_&_&Hc) Hd. destruct (Hc Hd) as (Ht&_).
  unfold card_task. by rewrite <- lookup_to_map, Ht.
Qed.

(** A successful edit that sends a whole task under its own identifier
    writes that task, and keeps the invariant and the load phase. *)
Lemma handleEditTask_whole s e old :
  sys_inv s -> os_abs (tasks_store (sys_db s)) !! Task.id e = Some old ->
  let s' := handleEditTask true (Task.id e) (patch_of_task e) s in
  sys_inv s' /\ sys_load s' = sys_load s /\
  os_abs (tasks_store (sys_db s')) = <[Task.id e := e]> (os_abs (tasks_store (sys_db s))).
Proof.
  intros Hi Hold s'. split; [by apply handleEditTask_inv|].
  unfold s', handleEditTask. rewrite updateTask_spec, Hold by apply Hi. simpl.
  rewrite spread_task_whole, os_abs_put by apply Hi. done.
Qed.

(** C11: A card mounted while its task read [t]: checking the task off and
    then opening the editor and saving it unchanged writes the mount-time
    snapshot back, and the completion is undone in the store and on the
    page. *)
Theorem toggle_then_save_reverts (c : Card TS CS) t :
  sys_inv (card_sys c) -> sys_load (card_sys c) = LoadDone ->
  card_task c = Some t -> editedTask (card_item c) = t ->
  let c1 := card_toggle true c in
  let c2 := card_save true (set_item startEditing c1) in
  card_task c1 = Some (with_completed t (negb (Task.completed t))) /\
  card_task c2 = Some t /\
  os_abs (tasks_store (sys_db (card_sys c2))) !! card_id c = Some t.
Proof.
  intros Hi Hd Ht He c1 c2.
  pose proof Ht as Hid. apply find_by_key_Some in Hid as [_ Hid].
  rewrite card_task_store in Ht by done.
  set (t' := with_completed t (negb (Task.completed t))).
  assert (Task.id t' = card_id c) as Hid' by exact Hid.
  assert (c1 = mkCard (handleEditTask true (Task.id t') (patch_of_task t') (card_sys c))
                 (card_id c) (card_item c)) as Hs1.
  { unfold c1, card_toggle. rewrite card_task_store, Ht by done. reflexivity. }
  destruct (handleEditTask_whole (card_sys c) t' t Hi) as (Hi1&Hd1&Habs1); [by rewrite Hid'|].
  assert (card_task c1 = Some t') as Ht1.
  { rewrite card_task_store; rewrite Hs1; cbn [card_sys card_id]; [|exact Hi1|by rewrite Hd1].
    rewrite Habs1, Hid'. apply lookup_insert_eq. }
  assert (c2 = mkCard (handleEditTask true (Task.id t) (patch_of_task t) (card_sys c1))
                 (card_id c) (mkItem false t)) as Hs2.
  { unfold c2, card_save. change (card_task (set_item startEditing c1)) with (card_task c1).
    rewrite Ht1, Hs1. simpl. by rewrite He. }
  destruct (handleEditTask_whole (card_sys c1) t t') as (Hi2&Hd2&Habs2).
  { rewrite Hs1. exact Hi1. }
  { rewrite Hs1. cbn [card_sys]. rewrite Habs1, Hid, <- Hid'. apply lookup_insert_eq. }
  assert (os_abs (tasks_store (sys_db (card_sys c2))) !! card_id c = Some t) as Hst.
  { rewrite Hs2. simpl. rewrite Habs2, <- Hid. apply lookup_insert_eq. }
  split; [done|]. split; [|done].
  rewrite card_task_store; [by rewrite (f_equal card_id Hs2) |rewrite Hs2; exact Hi2|].
  rewrite Hs2. cbn [card_sys]. rewrite Hd2, Hs1. cbn [card_sys]. by rewrite Hd1.
Qed.

(** The delete button removes the card's task from the store and from the
    page, so the card unmounts. *)
Lemma card_delete_removes (c : Card TS CS) :
  sys_inv (card_sys c) -> sys_load (card_sys c) = LoadDone ->
  let c' := card_delete true c in
  sys_inv (card_sys c') /\ card_task c' = None /\ os_abs (tasks_store (sys_db (card_sys c'))) !! card_id c = None.
Proof.
  intros Hi Hd c'. unfold c', card_delete.
  destruct (card_task c) as [t|] eqn:Ht; [|cbn iota; split; [done|]; split; [done|]; by rewrite <- card_task_store].
  apply find_by_key_Some in Ht as [_ Hid].
  assert (sys_inv (handleDeleteTask true (Task.id t) (card_sys c))) as Hi' by by apply handleDeleteTask_inv.
  assert (os_abs (tasks_store (sys_db (handleDeleteTask true (Task.id t) (card_sys c)))) !! card_id c = None) as Hn.
  { unfold handleDeleteTask. destruct (deleteTask true _ _) as [db'|] eqn:E; [|done].
    apply deleteTask_abs in E as [Habs _]; [|apply Hi]. simpl. rewrite Habs, Hid. apply lookup_delete_eq. }
  split; [done|]. split; [|done].
  rewrite card_task_store; [exact Hn|exact Hi'|]. cbn [card_sys].
  unfold handleDeleteTask. by destruct (deleteTask _ _ _).
Qed.

(** C17: The "days left" badge is hidden for a task due tomorrow, at any time
    of day but midnight: [differenceInDays] counts whole 24-hour periods,
    not calendar days. *)
Theorem daysBadge_tomorrow_hidden (now : Z) t y m d :
  parse_iso_date (Task.dueDate t) = Some (y, m, d) ->
  (days_from_civil y m d = now / ms_per_day + 1)%Z -> (now mod ms_per_day <> 0)%Z ->
  daysBadge now t = None.
Proof.
  intros Hp HD Hm. unfold daysBadge, daysRemaining.
  rewrite (getDaysRemaining_parse _ _ _ _ _ Hp), differenceInDays_calendar, HD.
  cbv zeta. rewrite (bool_decide_true (_ < _ /\ _)%Z) by lia. rewrite bool_decide_false; [done|lia].
Qed.
End card_proofs.

(** * A run on the list-backed stores *)

(** The app after loading an empty database, opening the modal and
    adding one task at [Date.now() = 5], with the task's card just
    mounted. *)
Definition added_sys : AppSys :=
  submitAddTask true 5 new_task_X (with_page (set_isAddModalOpen true) loaded_empty).
Definition added_task : Task.t := task_with_id new_task_X "5".
Definition card0 : Card (list Task.t) (list Category.t) := mkCard added_sys "5" (mountItem added_task).

Lemma added_sys_inv : sys_inv added_sys.
Proof.
  apply (seq_reachable_inv initDB); [apply db_wf_initDB|].
  eapply rtc_r; [eapply rtc_r; [apply loaded_empty_seq|apply ss_user, (us_modal true)]|].
  apply ss_user, us_add_task. reflexivity.
Qed.

Lemma toggle_then_save_reverts_witness :
  card_task (card_toggle true card0) = Some (with_completed added_task true) /\
  card_task (card_save true (set_item startEditing (card_toggle true card0))) = Some added_task.
Proof.
  destruct (toggle_then_save_reverts card0 added_task) as (H1&H2&_).
  - exact added_sys_inv.
  - reflexivity.
  - vm_compute. reflexivity.
  - reflexivity.
  - split; [exact H1|exact H2].
Defined.

(** 2026-11-09 at 01:00, a task due on 2026-11-10 shows no badge. *)
Lemma daysBadge_tomorrow_hidden_witness :
  daysBadge (days_from_civil 2026 11 9 * ms_per_day + 3600000)%Z
    (Task.mk "5" "Pay rent" "" "" "2026-11-10" false) = None.
Proof.
  apply (daysBadge_tomorrow_hidden _ _ 2026 11 10); [reflexivity|vm_compute; reflexivity|discriminate].
Defined.
