(* ===== verification/Controls.v ===== *)
(** * The page's controls with local state

    Three child components of the page keep state of their own and call
    back into the page:
    - [AddTaskModal] (src/app/components/AddTaskModal.tsx): the draft
      [newTask] (lines 38-44), edited field by field (lines 97-126),
      submitted by [handleSubmit] (lines 46-59), closed by [onClose];
    - [CategoryManager] (src/app/components/CategoryManager.tsx): the
      add form ([isAdding], [newCategoryName], [selectedColor]) and the
      colour editor ([editingCategory], [editingColor]), lines 41-69 and
      the buttons of lines 78-175;
    - [LanguageToggle] (src/app/components/LanguageToggle.tsx): the flag
      [isEnglish] (line 12) and [toggleLanguage] (lines 14-18).
    Each control is a state of its own paired with the application state
    [Sys] of Page.v; its events call the page's handlers.  The modal's
    clock enters twice: [now], the [Date.now()] that db.ts reads when the
    add runs, and [utc], the instant of [new Date()] when the draft is
    reset (Dates.v gives its [toISOString]). *)

From S2P Require Import Prelude JsString Model IdbStore Db Dates Page.

Local Open Scope string_scope.

(** ** AddTaskModal *)

(** The draft after a reset (lines 51-57). *)
Definition emptyNewTask (today : string) : NewTask.t := NewTask.mk "" "" "" today false.

(** The inputs of the form and its two buttons. *)
Inductive ModalEvent :=
| MSetTitle (v : string)
| MSetDescription (v : string)
| MSetCategory (v : string)
| MSetDueDate (v : string)
| MSubmit
| MClose.

(** [setNewTask({ ...newTask, field: e.target.value })]. *)
Definition set_draft (ev : ModalEvent) (n : NewTask.t) : NewTask.t :=
  match ev with
  | MSetTitle v => NewTask.mk v (NewTask.description n) (NewTask.category n) (NewTask.dueDate n) (NewTask.completed n)
  | MSetDescription v => NewTask.mk (NewTask.title n) v (NewTask.category n) (NewTask.dueDate n) (NewTask.completed n)
  | MSetCategory v => NewTask.mk (NewTask.title n) (NewTask.description n) v (NewTask.dueDate n) (NewTask.completed n)
  | MSetDueDate v => NewTask.mk (NewTask.title n) (NewTask.description n) (NewTask.category n) v (NewTask.completed n)
  | _ => n
  end.

(** The modal's [shouldRender] flag: the effect of lines 26-30 sets it
    when [isOpen] is set, [handleAnimationComplete] (lines 32-36) clears
    it once the exit animation of a closed modal ends, and the component
    renders nothing without it (line 61); the form itself is rendered
    only while [isOpen] (line 65). *)
Definition shouldRender_effect (isOpen shouldRender : bool) : bool :=
  if isOpen then true else shouldRender.

Definition handleAnimationComplete (isOpen shouldRender : bool) : bool :=
  if negb isOpen then false else shouldRender.

Definition modal_form_shown (isOpen shouldRender : bool) : bool := shouldRender && isOpen.

(** ** CategoryManager *)

Record CMState := mkCM {
  isAdding : bool;
  newCategoryName : string;
  selectedColor : preset_color;
  editingCategory : option string;
  editingColor : preset_color
}.

(** [useState] of lines 41-45. *)
Definition cm_init : CMState := mkCM false "" red None red.

Inductive CMEvent :=
| CToggleAdding                    (* line 78 *)
| CSetName (v : string)            (* line 90 *)
| CPickColor (c : preset_color)    (* line 99 *)
| CSubmit                          (* the form's onSubmit, line 86 *)
| CSelect (sel : option string)    (* lines 118 and 130 *)
| CStartEditing (c : Category.t)   (* line 167 *)
| CPickEditingColor (c : preset_color) (* line 147 *)
| CEditSubmit (id : string)        (* line 156 *)
| CCancelEdit                      (* line 161 *)
| CDelete (id : string).           (* line 171 *)

Section controls.
Context {TS CS : Type}.
Context `{!ObjectStore TS Task.t Task.id} `{!ObjectStore CS Category.t Category.id}.
Implicit Types (s : Sys TS CS).

(** The modal's events: [handleSubmit] returns early on a blank title;
    otherwise it starts the add, resets the draft and closes the modal
    without waiting for the add. *)
Definition modal_step (ok : bool) (now : N) (utc : Z) (ev : ModalEvent)
    (n : NewTask.t) s : NewTask.t * Sys TS CS :=
  match ev with
  | MSubmit =>
      if negb (truthy (trim (NewTask.title n))) then (n, s)
      else (emptyNewTask (toISODate utc), with_page (set_isAddModalOpen false) (handleAddTask ok now n s))
  | MClose => (n, with_page (set_isAddModalOpen false) s)
  | _ => (set_draft ev n, s)
  end.

(** The manager's events.  The add form exists only while [isAdding];
    the colour editor of a category only while [editingCategory] names
    it; [handleSubmit] clears the name and closes the form whenever the
    trimmed name is not blank, whatever becomes of the add. *)
Definition cm_step (ok : bool) (now : N) (ev : CMEvent) (st : CMState) s : CMState * Sys TS CS :=
  match ev with
  | CToggleAdding =>
      (mkCM (negb (isAdding st)) (newCategoryName st) (selectedColor st) (editingCategory st) (editingColor st), s)
  | CSetName v =>
      if isAdding st then (mkCM true v (selectedColor st) (editingCategory st) (editingColor st), s) else (st, s)
  | CPickColor c =>
      if isAdding st then (mkCM true (newCategoryName st) c (editingCategory st) (editingColor st), s) else (st, s)
  | CSubmit =>
      if negb (isAdding st) then (st, s) else
      if truthy (trim (newCategoryName st))
      then (mkCM false "" (selectedColor st) (editingCategory st) (editingColor st),
            handleAddCategory ok now (NewCategory.mk (trim (newCategoryName st)) (selectedColor st)) s)
      else (st, s)
  | CSelect sel =>
      match sel with
      | Some id =>
          if bool_decide (id ∈ keys Category.id (categories (sys_page s)))
          then (st, with_page (set_selectedCategory sel) s) else (st, s)
      | None => (st, with_page (set_selectedCategory None) s)
      end
  | CStartEditing c =>
      (mkCM (isAdding st) (newCategoryName st) (selectedColor st) (Some (Category.id c)) (Category.color c), s)
  | CPickEditingColor c =>
      match editingCategory st with
      | Some _ => (mkCM (isAdding st) (newCategoryName st) (selectedColor st) (editingCategory st) c, s)
      | None => (st, s)
      end
  | CEditSubmit id =>
      if bool_decide (editingCategory st = Some id)
      then (mkCM (isAdding st) (newCategoryName st) (selectedColor st) None (editingColor st),
            submitCategoryColor ok id (editingColor st) s)
      else (st, s)
  | CCancelEdit => (mkCM (isAdding st) (newCategoryName st) (selectedColor st) None (editingColor st), s)
  | CDelete id =>
      match editingCategory st with
      | Some e => if bool_decide (e = id) then (st, s) else (st, handleDeleteCategory ok id s)
      | None => (st, handleDeleteCategory ok id s)
      end
  end.

(** ** LanguageToggle *)

(** The button's globe (lines 20-31): turned by 180 degrees while the
    flag says Persian. *)
Definition languageToggle_rotate (isEnglish : bool) : Z := if isEnglish then 0%Z else 180%Z.

(** [toggleLanguage]: flip the flag, then [onToggle(newIsEnglish ? "en" : "fa")]. *)
Definition toggleLanguage (isEnglish : bool) s : bool * Sys TS CS :=
  let newIsEnglish := negb isEnglish in
  (newIsEnglish, handleLanguageToggle (if newIsEnglish then en else fa) s).

(** [n] presses of the toggle. *)
Fixpoint toggle_times (n : nat) (isEnglish : bool) s : bool * Sys TS CS :=
  match n with
  | O => (isEnglish, s)
  | S n' => let '(b, s') := toggleLanguage isEnglish s in toggle_times n' b s'
  end.
End controls.

(** * Properties *)

Section controls_proofs.
Context {TS CS : Type}.
Context `{!ObjectStore TS Task.t Task.id} `{!ObjectStore CS Category.t Category.id}.
Implicit Types (s : Sys TS CS).

(** C29: When the store rejects the add, the modal still resets its draft and
    closes, and the page is as before: the typed task is lost and nothing
    tells the user. *)
Theorem modal_submit_loses_draft_on_failure now utc n s :
  truthy (trim (NewTask.title n)) = true ->
  let '(n', s') := modal_step false now utc MSubmit n s in
  n' = emptyNewTask (toISODate utc) /\ isAddModalOpen (sys_page s') = false /\
  tasks (sys_page s') = tasks (sys_page s) /\ sys_db s' = sys_db s.
Proof. intros Ht. simpl. by rewrite Ht. Qed.

(** C30: The same holds for the category form: the name is cleared and the
    form closed although no category was added. *)
Theorem category_submit_loses_name_on_failure now st s :
  isAdding st = true -> truthy (trim (newCategoryName st)) = true ->
  let '(st', s') := cm_step false now CSubmit st s in
  newCategoryName st' = "" /\ isAdding st' = false /\
  categories (sys_page s') = categories (sys_page s) /\ sys_db s' = sys_db s.
Proof. intros Ha Ht. simpl. by rewrite Ha, Ht. Qed.

(** A successful submit of the category form appends to the page the
    category named by the trimmed input, with the selected colour and the
    timestamp as identifier, and stores it. *)
Theorem category_submit_adds now st s :
  sys_inv s -> isAdding st = true -> truthy (trim (newCategoryName st)) = true ->
  os_abs (categories_store (sys_db s)) !! number_to_string now = None ->
  let c := Category.mk (number_to_string now) (trim (newCategoryName st)) (selectedColor st) in
  let '(st', s') := cm_step true now CSubmit st s in
  categories (sys_page s') = (categories (sys_page s) ++ [c])%list /\
  os_abs (categories_store (sys_db s')) = <[number_to_string now := c]> (os_abs (categories_store (sys_db s))).
Proof.
  intros Hi Ha Ht Hfree c. simpl. rewrite Ha, Ht. simpl.
  unfold handleAddCategory, addCategory, os_add. simpl.
  rewrite os_get_abs, Hfree by apply Hi. simpl. split; [done|].
  by rewrite os_abs_put by apply Hi.
Qed.

(** The toggle's flag and the page's language never disagree: started
    in English, after any number of presses the page shows English
    exactly when the flag says so. *)
Theorem language_toggle_in_sync k s :
  language (sys_page s) = en ->
  let '(b, s') := toggle_times k true s in
  language (sys_page s') = if b then en else fa.
Proof.
  intros Hen. cut (forall (k : nat) (b : bool) (s : Sys TS CS), language (sys_page s) = (if b then en else fa) ->
    let '(b', s') := toggle_times k b s in language (sys_page s') = if b' then en else fa).
  { intros H. by apply H. }
  clear k s Hen. induction k as [|k IH]; intros b s Hs; simpl; [done|].
  apply IH. simpl. by destruct b.
Qed.
(** C18: The modal resets its draft's due date to the UTC day of the instant
    (line 55).  East of UTC, from local midnight until the offset has
    passed, that is yesterday's local date: a task created then with the
    default date is overdue at once. *)
Theorem modal_default_due_overdue (utc offset : Z) :
  (0 < offset < ms_per_day)%Z -> ((utc + offset) mod ms_per_day < offset)%Z ->
  (let '(y, _, _) := civil_from_days (utc / ms_per_day) in 0 <= y <= 9999)%Z ->
  getDaysRemaining (utc + offset) (NewTask.dueDate (emptyNewTask (toISODate utc))) = Some (-1)%Z.
Proof.
  intros Hoff Hmod Hy. cbn [emptyNewTask NewTask.dueDate].
  pose proof (toISODate_spec utc) as Hs.
  destruct (civil_from_days (utc / ms_per_day)) as [[y m] d]. destruct (Hs Hy) as [Hp Hd].
  rewrite (getDaysRemaining_parse _ _ _ _ _ Hp), differenceInDays_calendar, Hd.
  pose proof (Z.div_mod utc ms_per_day ltac:(unfold ms_per_day; lia)).
  pose proof (Z.mod_pos_bound utc ms_per_day ltac:(unfold ms_per_day; lia)).
  pose proof (Z.div_mod (utc + offset) ms_per_day ltac:(unfold ms_per_day; lia)).
  pose proof (Z.mod_pos_bound (utc + offset) ms_per_day ltac:(unfold ms_per_day; lia)).
  unfold ms_per_day in *.
  assert (utc / 86400000 = (utc + offset) / 86400000 - 1)%Z as -> by lia.
  rewrite bool_decide_false by lia. f_equal. lia.
Qed.
End controls_proofs.

(** * Witnesses on the app loaded from an empty database *)

Definition draft_X : NewTask.t := NewTask.mk "X" "" "" "2026-11-09" false.
Definition adding_home : CMState := mkCM true " Home " blue None red.

Lemma modal_submit_loses_draft_on_failure_witness :
  truthy (trim (NewTask.title draft_X)) = true /\
  let '(n', s') := modal_step false 5 0 MSubmit draft_X loaded_empty in
  n' = emptyNewTask "1970-01-01" /\ isAddModalOpen (sys_page s') = false /\
  tasks (sys_page s') = tasks (sys_page loaded_empty) /\ sys_db s' = sys_db loaded_empty.
Proof.
  split; [reflexivity|]. apply modal_submit_loses_draft_on_failure. reflexivity.
Defined.

Lemma category_submit_loses_name_on_failure_witness :
  isAdding adding_home = true /\ truthy (trim (newCategoryName adding_home)) = true /\
  let '(st', s') := cm_step false 5 CSubmit adding_home loaded_empty in
  newCategoryName st' = "" /\ isAdding st' = false /\
  categories (sys_page s') = categories (sys_page loaded_empty) /\ sys_db s' = sys_db loaded_empty.
Proof.
  split; [reflexivity|]. split; [reflexivity|].
  apply category_submit_loses_name_on_failure; reflexivity.
Defined.

Lemma category_submit_adds_witness :
  let '(st', s') := cm_step true 5 CSubmit adding_home loaded_empty in
  categories (sys_page s') = [Category.mk "5" "Home" blue].
Proof.
  pose proof (category_submit_adds 5 adding_home loaded_empty) as H.
  destruct (cm_step true 5 CSubmit adding_home loaded_empty) as [st' s'] eqn:E.
  destruct H as [H _].
  - apply (seq_reachable_inv initDB); [apply db_wf_initDB|apply loaded_empty_seq].
  - reflexivity.
  - reflexivity.
  - reflexivity.
  - rewrite H. vm_compute. reflexivity.
Defined.

Lemma language_toggle_in_sync_witness :
  language (sys_page loaded_empty) = en /\
  let '(b, s') := toggle_times 3 true loaded_empty in
  language (sys_page s') = if b then en else fa.
Proof. split; [reflexivity|]. apply language_toggle_in_sync. reflexivity. Defined.

(** Tehran (UTC+03:30) at 01:00 on 2026-11-09: the draft's default due
    date is 2026-11-08 and the task is one day overdue. *)
Lemma modal_default_due_overdue_witness :
  let utc := (days_from_civil 2026 11 8 * ms_per_day + 77400000)%Z in
  NewTask.dueDate (modal_step true 5 utc MSubmit draft_X loaded_empty).1 = "2026-11-08" /\
  getDaysRemaining (utc + 12600000)
    (NewTask.dueDate (modal_step true 5 utc MSubmit draft_X loaded_empty).1) = Some (-1)%Z.
Proof.
  intros utc. split; [vm_compute; reflexivity|].
  apply modal_default_due_overdue;
    first [reflexivity | unfold ms_per_day; lia | vm_compute; split; discriminate].
Defined.
