(* ===== verification/UseTasks.v ===== *)
(** * The hook src/app/hooks/useTasks.ts

    [useTasks] keeps [tasks] and a list of category names in React state
    and mirrors both in [localStorage] as JSON.  Its first effect
    (lines 16-21) reads the two keys at mount; its second (lines 23-26)
    writes both after every render that changed them.  The page does not
    use the hook; it is modelled because it is a second persistence layer
    of the repository with its own identifier scheme.

    [Storage] holds what [localStorage] holds under ["tasks"] and
    ["categories"]: [None] for a missing key, otherwise the value
    [JSON.stringify] wrote, represented by the list it encodes.  A render
    is one event: each operation reads the state of the render it was
    called in ([tasks], not a functional update), so [batch] models several
    calls made by one event handler. *)

From S2P Require Import Prelude JsString Model.

Local Open Scope string_scope.

Module Hook.

Record HookState := mkHook { h_tasks : list Task.t; h_categories : list string }.

Record Storage := mkStorage { ls_tasks : option (list Task.t); ls_categories : option (list string) }.

(** The first effect: [if (storedTasks) setTasks(JSON.parse(storedTasks))]. *)
Definition mount (ls : Storage) : HookState :=
  mkHook (default [] (ls_tasks ls)) (default [] (ls_categories ls)).

(** The second effect: both keys written from the state. *)
Definition save (st : HookState) : Storage := mkStorage (Some (h_tasks st)) (Some (h_categories st)).

(** [addTask] (lines 28-31): [{ ...task, id: Date.now().toString() }]
    appended to the render's [tasks]. *)
Definition addTask (now : N) (task : NewTask.t) (st : HookState) : HookState :=
  mkHook (h_tasks st ++ [task_with_id task (number_to_string now)])%list (h_categories st).

(** [editTask] (lines 33-35): every task with that [id] gets the spread. *)
Definition editTask (id : string) (updatedTask : TaskPatch.t) (st : HookState) : HookState :=
  mkHook ((fun t => if bool_decide (Task.id t = id) then spread_task t updatedTask else t) <$> h_tasks st)
    (h_categories st).

(** [deleteTask] (lines 37-39). *)
Definition deleteTask (id : string) (st : HookState) : HookState :=
  mkHook (remove_by_key Task.id id (h_tasks st)) (h_categories st).

(** [addCategory] (lines 41-45): only a name not yet listed. *)
Definition addCategory (category : string) (st : HookState) : HookState :=
  if bool_decide (category ∈ h_categories st) then st
  else mkHook (h_tasks st) (h_categories st ++ [category])%list.

Inductive HookOp :=
| OpAddTask (now : N) (task : NewTask.t)
| OpEditTask (id : string) (u : TaskPatch.t)
| OpDeleteTask (id : string)
| OpAddCategory (c : string).

Definition apply_op (o : HookOp) (st : HookState) : HookState :=
  match o with
  | OpAddTask now t => addTask now t st
  | OpEditTask id u => editTask id u st
  | OpDeleteTask id => deleteTask id st
  | OpAddCategory c => addCategory c st
  end.

(** One render per operation: the state and the storage the effect
    leaves behind. *)
Definition run_ops (os : list HookOp) (st : HookState) : HookState :=
  foldl (fun s o => apply_op o s) st os.

(** Several calls in one event handler: each computes its [setState]
    argument from the same render's state, and the last one wins. *)
Definition batch (os : list HookOp) (st : HookState) : HookState :=
  foldl (fun _ o => apply_op o st) st os.

End Hook.

Import Hook.

(** * Properties *)

Lemma mount_save st : mount (save st) = st.
Proof. by destruct st. Qed.

(** [addCategory] keeps the names distinct. *)
Lemma addCategory_nodup c st : NoDup (h_categories st) -> NoDup (h_categories (addCategory c st)).
Proof.
  intros Hnd. unfold addCategory. case_bool_decide as Hin; [done|]. simpl.
  apply NoDup_app. split; [done|]. split; [|apply NoDup_singleton].
  by intros x ? ->%list_elem_of_singleton.
Qed.

Lemma apply_op_nodup o st : NoDup (h_categories st) -> NoDup (h_categories (apply_op o st)).
Proof. destruct o; simpl; [done|done|done|apply addCategory_nodup]. Qed.

(** After any sequence of operations, one per render, the category
    names are distinct, and remounting from what the effect wrote gives
    back the same state. *)
Theorem run_ops_categories_persist os st :
  NoDup (h_categories st) ->
  NoDup (h_categories (run_ops os st)) /\ mount (save (run_ops os st)) = run_ops os st.
Proof.
  intros Hnd. split; [|apply mount_save].
  revert st Hnd. induction os as [|o os IH]; intros st Hnd; simpl; [done|].
  apply IH, apply_op_nodup, Hnd.
Qed.

(** C31: Two tasks added in the same millisecond get the same identifier: the
    hook checks nothing, and an edit of that identifier then changes
    both. *)
Theorem addTask_same_millisecond_duplicates now t1 t2 st :
  let st' := addTask now t2 (addTask now t1 st) in
  ~ NoDup (Task.id <$> h_tasks st').
Proof.
  simpl. rewrite <- app_assoc, fmap_app. simpl.
  intros (_&_&Hnd)%NoDup_app. apply NoDup_cons in Hnd as [Hin _].
  apply Hin. by apply list_elem_of_singleton.
Qed.

(** C32: Two adds from one event handler: both read the same [tasks], the
    second [setTasks] wins, and the first task is lost. *)
Theorem batch_loses_first_add now1 now2 t1 t2 st :
  now1 <> now2 -> task_with_id t1 (number_to_string now1) ∉ h_tasks st ->
  task_with_id t1 (number_to_string now1) ∉ h_tasks (batch [OpAddTask now1 t1; OpAddTask now2 t2] st).
Proof.
  intros Hne Hnot. simpl. rewrite elem_of_app, list_elem_of_singleton.
  intros [Hin|Heq]; [done|]. apply (f_equal Task.id) in Heq. simpl in Heq.
  by apply Hne, (inj number_to_string).
Qed.

(** * Witnesses *)

Definition milk : NewTask.t := NewTask.mk "Buy milk" "" "" "" false.

Lemma run_ops_categories_persist_witness :
  NoDup (h_categories (run_ops [OpAddCategory "Home"; OpAddTask 5 milk; OpAddCategory "Home"]
    (mkHook [] []))) /\
  h_categories (run_ops [OpAddCategory "Home"; OpAddTask 5 milk; OpAddCategory "Home"]
    (mkHook [] [])) = ["Home"].
Proof.
  split; [|reflexivity].
  apply (run_ops_categories_persist _ (mkHook [] [])). constructor.
Defined.

Lemma batch_loses_first_add_witness :
  task_with_id milk (number_to_string 5) ∉ h_tasks (batch [OpAddTask 5 milk; OpAddTask 6 milk] (mkHook [] [])).
Proof. apply (batch_loses_first_add 5 6); [discriminate|apply not_elem_of_nil]. Defined.
