(* ===== verification/Render.v ===== *)
(** * The filter effect and the renders it causes: src/app/page.tsx, lines 72-119

    After each commit React runs the effect of lines 72-119 when one of
    its dependencies [tasks], [filter], [selectedCategory], [searchQuery],
    [sortOption] differs from the values of the commit that last ran it.
    The effect computes the list of Projection.v at the time it runs and
    calls [setFilteredTasks] with a new array, which schedules one more
    render.  [filteredTasks] is not among the dependencies, so that render
    does not run the effect again.

    [RenderState] is the page state with the value of [filteredTasks] and
    the dependencies the effect last saw ([None] before the first commit).
    Dependencies are compared by value: the strings and the sort option
    compare so under [Object.is]; the [tasks] array compares by reference,
    and every [setTasks] of the page builds a new array, so an update that
    leaves the same records runs the effect once more and computes the same
    list from the same values, which the model folds into no run. *)

From S2P Require Import Prelude JsString Model Dates Projection Page.

Local Open Scope string_scope.

(** The dependency array of line 119. *)
Record Deps := mkDeps {
  d_tasks : list Task.t;
  d_filter : string;
  d_selectedCategory : option string;
  d_searchQuery : string;
  d_sortOption : SortOption
}.

#[export] Instance Deps_eq_dec : EqDecision Deps.
Proof. solve_decision. Defined.

Definition deps_of (p : PageState) : Deps :=
  mkDeps (tasks p) (filter p) (selectedCategory p) (searchQuery p) (sortOption p).

Record RenderState := mkRender {
  r_page : PageState;
  r_filteredTasks : list Task.t;
  r_deps : option Deps
}.

(** One commit at the instant [now]: the effect runs when the
    dependencies changed and sets [filteredTasks]; the flag says whether
    that [setState] scheduled another render. *)
Definition render (now : Z) (r : RenderState) : RenderState * bool :=
  let p := r_page r in
  if bool_decide (r_deps r = Some (deps_of p)) then (r, false)
  else (mkRender p (filteredTasks now (tasks p) (filter p) (selectedCategory p) (searchQuery p) (sortOption p))
          (Some (deps_of p)), true).

(** Renders until none is scheduled, at most [fuel] of them. *)
Fixpoint render_loop (fuel : nat) (now : Z) (r : RenderState) : option RenderState :=
  match fuel with
  | O => None
  | S fuel' =>
      let '(r', again) := render now r in
      if again then render_loop fuel' now r' else Some r'
  end.

(** The list the page shows with the effect's last result (line 197). *)
Definition shownTasks (r : RenderState) : list Task.t :=
  let p := r_page r in
  if truthy (trim (searchQuery p)) || default false (truthy <$> selectedCategory p)
     || bool_decide (filter p <> "all")
  then r_filteredTasks r else tasks p.

(** ** Properties *)

(** The state a settled render leaves: the effect's result for the
    current dependencies, unless they had not changed. *)
Definition settled (now : Z) (r : RenderState) : RenderState :=
  (render now r).1.

Lemma render_settled now now' r : render now' (settled now r) = (settled now r, false).
Proof.
  unfold settled. unfold render at 2 3. case_bool_decide as H; cbn [fst];
    unfold render; cbn [r_deps r_page]; by rewrite bool_decide_true.
Qed.

(** C33: Termination of the render loop: with any fuel of at least two,
    the commits the filter effect causes stop after at most two renders,
    in the state one run of the effect leaves; setting [filteredTasks] does
    not trigger the effect again. *)
Theorem render_loop_terminates fuel now r :
  (2 <= fuel)%nat -> render_loop fuel now r = Some (settled now r).
Proof.
  intros Hf. destruct fuel as [|[|fuel]]; [lia|lia|]. cbn [render_loop].
  destruct (render now r) as [r' again] eqn:E.
  assert (r' = settled now r) as -> by (unfold settled; by rewrite E).
  destruct again; [|done]. cbn [render_loop]. by rewrite render_settled.
Qed.

(** Once the loop has settled, the page shows [displayedTasks] at the
    instant the effect last ran. *)
Lemma settled_shown now r :
  shownTasks (settled now r) =
    if bool_decide (r_deps r = Some (deps_of (r_page r))) then shownTasks r
    else let p := r_page r in
      displayedTasks now (tasks p) (filter p) (selectedCategory p) (searchQuery p) (sortOption p).
Proof. unfold settled, render. by case_bool_decide. Qed.

(** Time passing alone triggers nothing: the order of a days sort is the
    one computed when the dependencies last changed. *)
Lemma settled_time_stale now1 now2 r :
  settled now2 (settled now1 r) = settled now1 r.
Proof. unfold settled at 1. by rewrite render_settled. Qed.

(** * Witnesses *)

Definition first_render : RenderState := mkRender initialPage [] None.

Lemma render_loop_terminates_witness :
  render_loop 5 0 first_render = Some (settled 0 first_render) /\
  r_deps (settled 0 first_render) = Some (deps_of initialPage).
Proof. split; [apply render_loop_terminates; lia|reflexivity]. Defined.
