(* ===== verification/Widgets.v ===== *)
(** * The remaining components: the theme toggle, the search bar, and the
    components of the hook-based version of the app

    - [ThemeToggle] (src/app/components/ThemeToggle.tsx) keeps [isDark]
      and writes it to the [dark] class of the document element and to
      [localStorage] under ["theme"].  The root layout
      (src/app/layout.tsx, line 19) renders [<html lang="en">] with no
      class, and no code of the repository reads ["theme"] back.
    - [SearchBar] (src/app/components/SearchBar.tsx) forwards every change
      of its input, untrimmed, to [onSearch]; it declares no
      [placeholder] prop and shows its own English text.
    - [AddTask], [CategoryList] and [TaskList]
      (src/app/components/AddTask.tsx, CategoryList.tsx, TaskList.tsx)
      take the callbacks of [useTasks] (UseTasks.v).  No file of the
      repository renders them; their callbacks are modelled as the hook's
      operations.  [TaskList] renders [TaskItem] without the [categories]
      prop, which [TaskItem] reads at once (TaskItem.tsx, line 35). *)

From S2P Require Import Prelude JsString Model IdbStore Db Page TaskItem UseTasks.

Local Open Scope string_scope.

(** ** ThemeToggle *)

(** The component's [isDark], the document's [dark] class, and what
    [localStorage] holds under ["theme"]. *)
Record Theme := mkTheme { isDark : bool; dom_dark : bool; ls_theme : option string }.

(** The first render: [useState(false)]. *)
Definition theme_render (dom : bool) (ls : option string) : Theme := mkTheme false dom ls.

(** The mount effect (lines 10-13) reads the class into [isDark]. *)
Definition theme_mount (st : Theme) : Theme := mkTheme (dom_dark st) (dom_dark st) (ls_theme st).

(** [toggleTheme] (lines 15-20). *)
Definition toggleTheme (st : Theme) : Theme :=
  let newIsDark := negb (isDark st) in
  mkTheme newIsDark newIsDark (Some (if newIsDark then "dark" else "light")).

(** The button (lines 22-33): a sun turned by 180 degrees while dark,
    a moon otherwise. *)
Inductive ThemeIcon := Sun | Moon.

Definition themeToggle_view (st : Theme) : Z * ThemeIcon :=
  if isDark st then (180%Z, Sun) else (0%Z, Moon).

(** [RootLayout] (src/app/layout.tsx): the document's language and
    direction, the fonts of the body, and the [metadata] export. *)
Record LayoutHtml := mkLayout {
  html_lang : string;
  html_dir : option string;
  body_fonts : list string;
  meta_title : string;
  meta_description : string
}.

Definition RootLayout : LayoutHtml :=
  mkLayout "en" None ["Inter"; "Vazirmatn"] "Todo App" "A simple todo app built with Next.js".

(** Opening the app: the layout's [<html>] has no [dark] class, and
    [localStorage] keeps what it held. *)
Definition theme_page_load (ls : option string) : Theme := theme_mount (theme_render false ls).

(** ** SearchBar *)

(** The text the input shows when it is empty: its own, whatever the
    page passes as [placeholder] (page.tsx, line 219). *)
Definition searchBar_placeholder (placeholder : string) : string := "Search tasks...".

(** [onChange={(e) => onSearch(e.target.value)}] with the page's
    [handleSearch]. *)
Definition searchBar_onChange {TS CS : Type} (value : string) (s : Sys TS CS) : Sys TS CS :=
  handleSearch value s.

(** ** AddTask *)

Record AddTaskForm := mkAddTaskForm {
  at_title : string;
  at_description : string;
  at_category : string;
  at_dueDate : string
}.

(** [useState("")] four times (lines 10-13). *)
Definition addTask_form_init : AddTaskForm := mkAddTaskForm "" "" "" "".

Inductive AddTaskEvent :=
| ATSetTitle (v : string)         (* line 31 *)
| ATSetDescription (v : string)   (* line 38 *)
| ATSetCategory (v : string)      (* line 44 *)
| ATSetDueDate (v : string)       (* line 56 *)
| ATSubmit.                       (* handleSubmit, lines 15-23 *)

(** An event of the form with [onAddTask] the hook's [addTask] at the
    instant [now]: a blank title returns early; otherwise the task is
    added with the title as typed and the four fields are reset. *)
Definition addTask_form_step (now : N) (ev : AddTaskEvent) (f : AddTaskForm) (h : Hook.HookState)
    : AddTaskForm * Hook.HookState :=
  match ev with
  | ATSetTitle v => (mkAddTaskForm v (at_description f) (at_category f) (at_dueDate f), h)
  | ATSetDescription v => (mkAddTaskForm (at_title f) v (at_category f) (at_dueDate f), h)
  | ATSetCategory v => (mkAddTaskForm (at_title f) (at_description f) v (at_dueDate f), h)
  | ATSetDueDate v => (mkAddTaskForm (at_title f) (at_description f) (at_category f) v, h)
  | ATSubmit =>
      if negb (truthy (trim (at_title f))) then (f, h) else
      (addTask_form_init,
       Hook.addTask now (NewTask.mk (at_title f) (at_description f) (at_category f) (at_dueDate f) false) h)
  end.

(** ** CategoryList *)

Inductive CategoryListEvent :=
| CLSetNewCategory (v : string)       (* line 58 *)
| CLSubmit                            (* handleAddCategory, lines 18-24 *)
| CLSelect (category : option string). (* lines 32 and 43 *)

(** An event of the list with the input's [newCategory], the hook's
    state and the parent's [selectedCategory]: the hook receives the
    trimmed name, and a blank one is ignored. *)
Definition categoryList_step (ev : CategoryListEvent) (newCategory : string) (h : Hook.HookState)
    (selected : option string) : string * Hook.HookState * option string :=
  match ev with
  | CLSetNewCategory v => (v, h, selected)
  | CLSubmit =>
      if truthy (trim newCategory) then ("", Hook.addCategory (trim newCategory) h, selected)
      else (newCategory, h, selected)
  | CLSelect c => (newCategory, h, c)
  end.

(** What the list renders (lines 26-52): the "All" button, then one
    button per category, each with whether it is highlighted
    ([selectedCategory === ...]). *)
Definition categoryList_items (categories : list string) (selected : option string)
    : list (option string * bool) :=
  (None, bool_decide (selected = None)) ::
    ((fun c => (Some c, bool_decide (selected = Some c))) <$> categories).

(** ** TaskList *)

Definition TypeError_find : string := "TypeError: Cannot read properties of undefined (reading 'find')".

(** Line 35 of TaskItem.tsx with the [categories] prop as JavaScript
    passes it: [None] when the parent leaves it [undefined]. *)
Definition itemCategory_prop (categories : option (list Category.t)) (task : Task.t)
    : result string (option Category.t) :=
  match categories with
  | None => Err TypeError_find
  | Some cs => Ok (itemCategory cs task)
  end.

(** [tasks.map((task) => <TaskItem key={task.id} task={task} ... />)]:
    each item's category, or the error the first render throws. *)
Fixpoint TaskList (tasks : list Task.t) : result string (list (option Category.t)) :=
  match tasks with
  | [] => Ok []
  | t :: ts =>
      let! c := itemCategory_prop None t in
      let! cs := TaskList ts in
      Ok (c :: cs)
  end.

(** * Properties *)

(** After the mount effect, [isDark] follows the class, and every toggle
    writes the class and the stored theme from the new value. *)
Lemma toggles_in_sync n ls :
  let st := Nat.iter n toggleTheme (theme_page_load ls) in
  isDark st = Nat.odd n /\ dom_dark st = Nat.odd n /\
  (n <> 0%nat -> ls_theme st = Some (if Nat.odd n then "dark" else "light")).
Proof.
  induction n as [|n IH]; simpl; [done|]. destruct IH as (H1&H2&_).
  rewrite H1, Nat.odd_succ, <- Nat.negb_odd. done.
Qed.

(** C35: The theme is not persisted: after an odd number of toggles the
    page is dark and [localStorage] says ["dark"], but the next page load
    starts light, because the layout's [<html>] has no [dark] class and
    nothing reads ["theme"]. *)
Theorem theme_not_persisted n ls :
  Nat.odd n = true ->
  let st := Nat.iter n toggleTheme (theme_page_load ls) in
  isDark st = true /\ dom_dark st = true /\ ls_theme st = Some "dark" /\
  isDark (theme_page_load (ls_theme st)) = false /\ dom_dark (theme_page_load (ls_theme st)) = false.
Proof.
  intros Hodd st. destruct (toggles_in_sync n ls) as (H1&H2&H3).
  assert (n <> 0%nat) as Hn by (intros ->; discriminate).
  specialize (H3 Hn). rewrite Hodd in H1, H2, H3. done.
Qed.

(** The legacy add form sends the title untrimmed, unlike the modal, and
    resets every field, the due date to [""]. *)
Lemma addTask_form_submit now f h :
  truthy (trim (at_title f)) = true ->
  addTask_form_step now ATSubmit f h =
    (addTask_form_init,
     Hook.mkHook (Hook.h_tasks h ++
       [Task.mk (number_to_string now) (at_title f) (at_description f) (at_category f) (at_dueDate f) false])%list
       (Hook.h_categories h)).
Proof. intros Ht. simpl. by rewrite Ht. Qed.

(** Whatever the events of the legacy forms, the hook's category names
    stay distinct and never empty. *)
Lemma categoryList_step_names ev nc h sel :
  NoDup (Hook.h_categories h) -> Forall (fun c => truthy c = true) (Hook.h_categories h) ->
  let h' := (categoryList_step ev nc h sel).1.2 in
  NoDup (Hook.h_categories h') /\ Forall (fun c => truthy c = true) (Hook.h_categories h').
Proof.
  intros Hnd Hf. destruct ev; simpl; [done| |done].
  destruct (truthy (trim nc)) eqn:Ht; simpl; [|done].
  split; [by apply addCategory_nodup|]. unfold Hook.addCategory.
  case_bool_decide; [done|]. simpl. apply Forall_app. split; [done|]. by apply Forall_singleton.
Qed.

(** After any page load the toggle shows the moon, whatever
    [localStorage] says. *)
Lemma themeToggle_view_page_load ls : themeToggle_view (theme_page_load ls) = (0%Z, Moon).
Proof. reflexivity. Qed.

(** The toggle's icon follows the document's class after any number of
    toggles. *)
Lemma themeToggle_view_in_sync n ls :
  themeToggle_view (Nat.iter n toggleTheme (theme_page_load ls)) =
    if dom_dark (Nat.iter n toggleTheme (theme_page_load ls)) then (180%Z, Sun) else (0%Z, Moon).
Proof.
  destruct (toggles_in_sync n ls) as (H1&H2&_). unfold themeToggle_view. by rewrite H1, H2.
Qed.

(** With distinct names, as the hook keeps them, at most one button of
    the list is highlighted. *)
Lemma categoryList_one_highlighted categories selected :
  NoDup categories -> length (List.filter snd (categoryList_items categories selected)) <= 1.
Proof.
  intros Hnd. unfold categoryList_items.
  assert (forall l, Forall (fun c => selected <> Some c) l ->
    List.filter snd ((fun c => (Some c, bool_decide (selected = Some c))) <$> l) = []) as Hz.
  { induction 1; [done|]. cbn [fmap list_fmap List.filter snd]. by rewrite bool_decide_false. }
  cbn [List.filter snd]. case_bool_decide as Hs.
  - rewrite Hz; [simpl; lia|]. subst. apply Forall_forall. by intros ? _ ?.
  - destruct selected as [x|]; [|done]. clear Hs. induction Hnd as [|c l Hc Hl IH]; [simpl; lia|].
    cbn [fmap list_fmap List.filter snd]. case_bool_decide as He; [|done].
    injection He as <-. rewrite Hz; [simpl; lia|]. apply Forall_forall. by intros y Hy [= <-].
Qed.

(** [TaskList] throws on its first task: [categories] is [undefined]. *)
Lemma TaskList_throws tasks : tasks <> [] -> TaskList tasks = Err TypeError_find.
Proof. destruct tasks; [done|]. reflexivity. Qed.

(** * Witnesses *)

Lemma theme_not_persisted_witness :
  ls_theme (Nat.iter 3 toggleTheme (theme_page_load None)) = Some "dark" /\
  isDark (theme_page_load (ls_theme (Nat.iter 3 toggleTheme (theme_page_load None)))) = false.
Proof. destruct (theme_not_persisted 3 None) as (_&_&H3&H4&_); [reflexivity|]. split; [exact H3|exact H4]. Defined.
