(* ===== verification/App.v ===== *)
(** * The rendered application: the page with its children

    [Home] (src/app/page.tsx, lines 199-297) renders the language and
    theme toggles, the add button, the search bar, the category manager
    (only once [isLoading] is false, lines 224-236), the two selects, one
    [TaskItem] per element of [displayedTasks] keyed by [task.id] (lines
    263-276), and the add-task modal (lines 288-294).  The children keep
    their own state across renders: the modal its draft and
    [shouldRender], the manager its forms, each card its [isEditing] and
    [editedTask], the toggles their flags.

    [App] gathers all of it: the system of Page.v, the filter effect's
    [filteredTasks] and last dependencies (Render.v), the cards by key,
    and the children's states.  An event ([AppEvent]) is something the
    user does to a rendered element, or a phase of the load effect; it is
    refused ([None]) when its element is not rendered.  After each event
    React commits ([commit]): the filter effect runs if its dependencies
    changed, cards are mounted for new keys and unmounted for keys no
    longer displayed ([reconcile]), and the modal's effect sets
    [shouldRender] when the modal is open. *)

From S2P Require Import Prelude JsString Model IdbStore Db DataManagement Dates Projection Page.
From S2P Require Import CollectionSpec TaskItem Controls Render Widgets.

Local Open Scope string_scope.

(** The buttons and inputs of a card (TaskItem.tsx, lines 91-200). *)
Inductive CardEvent :=
| KToggle (ok : bool)      (* check button, line 144 *)
| KEdit                    (* edit button, line 190 *)
| KDelete (ok : bool)      (* delete button, line 196 *)
| KField (f : EditField)   (* the edit form's inputs, lines 96-120 *)
| KCancel                  (* cancel, line 126 *)
| KSave (ok : bool).       (* save, line 132 *)

Inductive AppEvent :=
| EOpenModal                                      (* page.tsx, line 210 *)
| EModal (ok : bool) (now : N) (utc : Z) (ev : ModalEvent)
| EAnimationComplete                              (* AddTaskModal.tsx, line 84 *)
| ECategory (ok : bool) (now : N) (ev : CMEvent)
| ECard (id : string) (ev : CardEvent)
| EFilter (f : string)                            (* page.tsx, line 243 *)
| ESort (so : SortOption)                         (* page.tsx, line 252 *)
| ESearch (q : string)                            (* SearchBar, line 17 *)
| ELanguage                                       (* LanguageToggle, line 22 *)
| ETheme                                          (* ThemeToggle, line 24 *)
| EData (ev : DMEvent)                            (* DataManagement, lines 44 and 51 *)
| ELoadRead (okT okC : bool)                      (* page.tsx, lines 57-60 *)
| ELoadFinish.                                    (* page.tsx, lines 61-67 *)

Section app.
Context {TS CS : Type}.
Context `{!ObjectStore TS Task.t Task.id} `{!ObjectStore CS Category.t Category.id}.

Record App := mkApp {
  app_sys : Sys TS CS;
  app_filtered : list Task.t;
  app_deps : option Deps;
  app_cards : gmap string ItemState;
  app_draft : NewTask.t;
  app_shouldRender : bool;
  app_cm : CMState;
  app_isEnglish : bool;
  app_theme : Theme;
  app_download : option ImportData;
  app_importStatus : string
}.

Definition app_render_state (a : App) : RenderState :=
  mkRender (sys_page (app_sys a)) (app_filtered a) (app_deps a).

(** The tasks the page renders as cards (line 265). *)
Definition app_shown (a : App) : list Task.t := shownTasks (app_render_state a).

Definition set_app_sys (s : Sys TS CS) (a : App) : App :=
  mkApp s (app_filtered a) (app_deps a) (app_cards a) (app_draft a) (app_shouldRender a)
    (app_cm a) (app_isEnglish a) (app_theme a)
    (app_download a) (app_importStatus a).

Definition set_app_cards (cards : gmap string ItemState) (a : App) : App :=
  mkApp (app_sys a) (app_filtered a) (app_deps a) cards (app_draft a) (app_shouldRender a)
    (app_cm a) (app_isEnglish a) (app_theme a)
    (app_download a) (app_importStatus a).

(** Keyed reconciliation: a card keeps its state while its key is
    displayed, a new key mounts a card on the displayed task, and a key
    no longer displayed unmounts its card. *)
Definition reconcile (shown : list Task.t) (old : gmap string ItemState) : gmap string ItemState :=
  list_to_map ((fun t => (Task.id t, default (mountItem t) (old !! Task.id t))) <$> shown).

(** The commit after an event, at the instant [nowr] the effects run. *)
Definition commit (nowr : Z) (a : App) : App :=
  let r := settled nowr (app_render_state a) in
  mkApp (app_sys a) (r_filteredTasks r) (r_deps r) (reconcile (shownTasks r) (app_cards a))
    (app_draft a) (shouldRender_effect (isAddModalOpen (sys_page (app_sys a))) (app_shouldRender a))
    (app_cm a) (app_isEnglish a) (app_theme a)
    (app_download a) (app_importStatus a).

(** The manager is rendered once loading is over; its edit and delete
    buttons exist for the categories it lists. *)
Definition cm_rendered (ev : CMEvent) (s : Sys TS CS) : bool :=
  negb (isLoading (sys_page s)) &&
  match ev with
  | CStartEditing c => bool_decide (c ∈ categories (sys_page s))
  | CDelete id => bool_decide (id ∈ keys Category.id (categories (sys_page s)))
  | _ => true
  end.

(** A card's event, with its [task] prop and its state: the check, edit
    and delete buttons are rendered when it is not editing, the form and
    its buttons when it is. *)
Definition card_event (ev : CardEvent) (task : Task.t) (st : ItemState) (a : App) : option App :=
  let s := app_sys a in
  let id := Task.id task in
  match ev, isEditing st with
  | KToggle ok, false => Some (set_app_sys (toggleTask ok task s) a)
  | KEdit, false => Some (set_app_cards (<[id := startEditing st]> (app_cards a)) a)
  | KDelete ok, false => Some (set_app_sys (handleDeleteTask ok id s) a)
  | KField f, true => Some (set_app_cards (<[id := editField f st]> (app_cards a)) a)
  | KCancel, true => Some (set_app_cards (<[id := cancelEditing st]> (app_cards a)) a)
  | KSave ok, true =>
      Some (set_app_cards (<[id := mkItem false (editedTask st)]> (app_cards a))
              (set_app_sys (saveTask ok task (editedTask st) s) a))
  | _, _ => None
  end.

(** One event on the rendered application, before its commit. *)
Definition app_event (ev : AppEvent) (a : App) : option App :=
  let s := app_sys a in
  let isOpen := isAddModalOpen (sys_page s) in
  match ev with
  | EOpenModal => Some (set_app_sys (with_page (set_isAddModalOpen true) s) a)
  | EModal ok now utc mev =>
      if modal_form_shown isOpen (app_shouldRender a) then
        let '(n', s') := modal_step ok now utc mev (app_draft a) s in
        Some (mkApp s' (app_filtered a) (app_deps a) (app_cards a) n' (app_shouldRender a)
                (app_cm a) (app_isEnglish a) (app_theme a) (app_download a) (app_importStatus a))
      else None
  | EAnimationComplete =>
      Some (mkApp s (app_filtered a) (app_deps a) (app_cards a) (app_draft a)
              (handleAnimationComplete isOpen (app_shouldRender a)) (app_cm a) (app_isEnglish a) (app_theme a) (app_download a) (app_importStatus a))
  | ECategory ok now cev =>
      if cm_rendered cev s then
        let '(st', s') := cm_step ok now cev (app_cm a) s in
        Some (mkApp s' (app_filtered a) (app_deps a) (app_cards a) (app_draft a) (app_shouldRender a)
                st' (app_isEnglish a) (app_theme a) (app_download a) (app_importStatus a))
      else None
  | ECard id kev =>
      match app_cards a !! id, find_by_key Task.id id (app_shown a) with
      | Some st, Some task => card_event kev task st a
      | _, _ => None
      end
  | EFilter f =>
      if bool_decide (f ∈ ["all"; "active"; "completed"]) then Some (set_app_sys (with_page (set_filter f) s) a)
      else None
  | ESort so => Some (set_app_sys (with_page (set_sortOption so) s) a)
  | ESearch q => Some (set_app_sys (searchBar_onChange q s) a)
  | ELanguage =>
      let '(b, s') := toggleLanguage (app_isEnglish a) s in
      Some (mkApp s' (app_filtered a) (app_deps a) (app_cards a) (app_draft a) (app_shouldRender a)
              (app_cm a) b (app_theme a) (app_download a) (app_importStatus a))
  | ETheme =>
      Some (mkApp s (app_filtered a) (app_deps a) (app_cards a) (app_draft a) (app_shouldRender a)
              (app_cm a) (app_isEnglish a) (toggleTheme (app_theme a)) (app_download a) (app_importStatus a))
  | EData dev =>
      let '(db', status, file) := dm_step dev (sys_db s) (app_importStatus a) in
      Some (mkApp (mkSys db' (sys_page s) (sys_load s)) (app_filtered a) (app_deps a) (app_cards a)
              (app_draft a) (app_shouldRender a) (app_cm a) (app_isEnglish a) (app_theme a)
              (match file with None => app_download a | Some _ => file end) status)
  | ELoadRead okT okC => Some (set_app_sys (loadRead okT okC s) a)
  | ELoadFinish => Some (set_app_sys (loadFinish s) a)
  end.

(** An event followed by its commit at [nowr]. *)
Definition app_step (nowr : Z) (ev : AppEvent) (a : App) : option App := commit nowr <$> app_event ev a.

Fixpoint app_run (evs : list (Z * AppEvent)) (a : App) : option App :=
  match evs with
  | [] => Some a
  | (nowr, ev) :: evs' => app_step nowr ev a ≫= app_run evs'
  end.

(** The first commit of the page on a database [db0], at the instant
    [utc0] (milliseconds, UTC), with [ls] under ["theme"]: the modal's
    draft takes its due date from [new Date()] now (lines 38-44). *)
Definition app_init (db0 : DB TS CS) (utc0 : Z) (ls : option string) : App :=
  commit utc0 (mkApp (init_sys db0) [] None ∅ (emptyNewTask (toISODate utc0)) false cm_init true
                 (theme_page_load ls) None "").
End app.

Arguments App : clear implicits.

(** * Properties *)

Section app_proofs.
Context {TS CS : Type}.
Context `{!ObjectStore TS Task.t Task.id} `{!ObjectStore CS Category.t Category.id}.
Implicit Types (a : App TS CS) (s : Sys TS CS).

(** Every card's edit copy carries the card's key. *)
Definition cards_keyed a : Prop :=
  map_Forall (fun k st => Task.id (editedTask st) = k) (app_cards a).

(** [filteredTasks] holds tasks of the array it was computed from. *)
Definition render_sound a : Prop :=
  forall d, app_deps a = Some d -> forall t, t ∈ app_filtered a -> t ∈ d_tasks d.

(** After a commit the effect has seen the current dependencies. *)
Definition app_inv a : Prop :=
  cards_keyed a /\ render_sound a /\ app_deps a = Some (deps_of (sys_page (app_sys a))).

Lemma editField_id f st : Task.id (editedTask (editField f st)) = Task.id (editedTask st).
Proof. by destruct f. Qed.

Lemma reconcile_keyed shown (old : gmap string ItemState) :
  map_Forall (fun k st => Task.id (editedTask st) = k) old ->
  map_Forall (fun k st => Task.id (editedTask st) = k) (reconcile shown old).
Proof.
  intros Hold k st Hk. apply elem_of_list_to_map_2, list_elem_of_fmap in Hk as (t&Heq&_).
  injection Heq as -> ->. destruct (old !! Task.id t) as [st0|] eqn:E; simpl; [|done].
  exact (Hold _ _ E).
Qed.

Lemma commit_inv nowr a : cards_keyed a -> render_sound a -> app_inv (commit nowr a).
Proof.
  intros Hk Hr. split; [apply reconcile_keyed, Hk|].
  unfold commit, settled, render, app_render_state; cbn -[filteredTasks].
  case_bool_decide as Hd; cbn -[filteredTasks]; [by split|].
  split; [|done]. intros d [= <-] t Ht. by eapply filteredTasks_subset.
Qed.

(** The cards the page renders show tasks of its [tasks] array. *)
Lemma app_shown_tasks a t : app_inv a -> t ∈ app_shown a -> t ∈ tasks (sys_page (app_sys a)).
Proof.
  intros (_&Hr&Hd). unfold app_shown, shownTasks. case_match; [|done].
  intros Ht. exact (Hr _ Hd t Ht).
Qed.

Lemma card_event_inv ev task st a a' :
  cards_keyed a -> Task.id (editedTask st) = Task.id task ->
  card_event ev task st a = Some a' -> cards_keyed a' /\ render_sound a' = render_sound a.
Proof.
  intros Hk Hid. unfold card_event, cards_keyed in *.
  destruct ev, (isEditing st); intros; simplify_eq; (split; [|done]);
    try exact Hk; apply map_Forall_insert_2; cbn [app_cards set_app_cards editedTask startEditing cancelEditing];
    rewrite ?editField_id; done.
Qed.

(** The events keep the cards keyed and leave the effect's state alone. *)
Lemma app_event_inv ev a a' :
  app_inv a -> app_event ev a = Some a' -> cards_keyed a' /\ render_sound a'.
Proof.
  intros (Hk&Hr&Hd). destruct ev; simpl; intros; repeat case_match; simplify_eq; try done.
  match goal with
  | H : card_event _ ?task ?st _ = Some _ |- _ =>
      apply card_event_inv in H as [? ->]; [done|done|]
  end.
  match goal with
  | Hst : app_cards _ !! _ = Some _, Hf : find_by_key _ _ _ = Some _ |- _ =>
      apply find_by_key_Some in Hf as [_ ->]; exact (Hk _ _ Hst)
  end.
Qed.

Lemma app_step_inv nowr ev a a' : app_inv a -> app_step nowr ev a = Some a' -> app_inv a'.
Proof.
  unfold app_step. intros Hi (a1&Ha1&->)%fmap_Some.
  destruct (app_event_inv ev a a1 Hi Ha1). by apply commit_inv.
Qed.
(** The modal's events are the page's: a non-blank submit is
    [submitAddTask] on an open modal, closing is [us_modal]. *)
Lemma modal_step_user_step ok now utc ev n s :
  isAddModalOpen (sys_page s) = true ->
  (modal_step ok now utc ev n s).2 = s \/ user_step s (modal_step ok now utc ev n s).2.
Proof.
  intros Ho. destruct ev; simpl; auto; [|right; apply us_modal].
  destruct (truthy (trim (NewTask.title n))) eqn:Ht; simpl; [right|by left].
  replace (with_page _ _) with (submitAddTask ok now n s) by (unfold submitAddTask; by rewrite Ht).
  by apply us_add_task.
Qed.

(** The manager's events, on the categories it renders, are the page's. *)
Lemma cm_step_user_step ok now ev st s :
  cm_rendered ev s = true ->
  (cm_step ok now ev st s).2 = s \/ user_step s (cm_step ok now ev st s).2.
Proof.
  unfold cm_rendered. intros [Hl%negb_true_iff Hev]%andb_true_iff.
  destruct ev; simpl in *; repeat case_match; simplify_eq; cbn [snd]; auto.
  - right. replace (handleAddCategory _ _ _ _) with (submitCategory ok now (newCategoryName st) (selectedColor st) s)
      by (unfold submitCategory; by case_match). by apply us_add_category.
  - right. apply us_select_category; [done|right].
    match goal with H : bool_decide _ = true |- _ => apply bool_decide_eq_true, elem_of_keys in H as (c&Hc&<-) end.
    by exists c.
  - right. by apply us_select_category; [|left].
  - match goal with |- context [submitCategoryColor ok ?id] =>
      destruct (find_by_key Category.id id (categories (sys_page s))) as [c|] eqn:Hf end.
    + apply find_by_key_Some in Hf as [Hc <-]. right. by apply us_category_color.
    + left. unfold submitCategoryColor, handleUpdateCategory. by rewrite Hf.
  - right. apply bool_decide_eq_true, elem_of_keys in Hev as (c&Hc&<-). by apply us_delete_category.
  - right. apply bool_decide_eq_true, elem_of_keys in Hev as (c&Hc&<-). by apply us_delete_category.
Qed.
Lemma card_event_user_step ev task st a a' :
  app_inv a -> task ∈ app_shown a -> Task.id (editedTask st) = Task.id task ->
  card_event ev task st a = Some a' -> app_sys a' = app_sys a \/ user_step (app_sys a) (app_sys a').
Proof.
  intros Hi Ht Hid. apply app_shown_tasks in Ht; [|done]. unfold card_event.
  destruct ev, (isEditing st); intros; simplify_eq; cbn [app_sys set_app_sys set_app_cards]; auto.
  - right. by apply us_toggle.
  - right. by apply us_delete_task.
  - right. by apply us_save.
Qed.

(** Every event but an import. *)
Definition no_import (ev : AppEvent) : bool :=
  match ev with EData (DMImport _ _) => false | _ => true end.

(** Once loading is over, an event of the rendered application other
    than an import changes the system of Page.v by one [user_step] or
    not at all. *)
Lemma app_event_user_step ev a a' :
  no_import ev = true -> app_inv a -> sys_load (app_sys a) = LoadDone -> app_event ev a = Some a' ->
  app_sys a' = app_sys a \/ user_step (app_sys a) (app_sys a').
Proof.
  intros Hn Hi Hd. destruct ev as [| | | | | | | | | |[]| |]; simpl; try discriminate Hn.
  - intros [= <-]. right. apply us_modal.
  - case_match eqn:Hs; [|done]. apply andb_true_iff in Hs as [_ Ho].
    pose proof (modal_step_user_step ok now utc ev (app_draft a) (app_sys a) Ho) as H.
    destruct (modal_step _ _ _ _ _ _). by intros [= <-].
  - intros [= <-]. by left.
  - case_match eqn:Hc; [|done].
    pose proof (cm_step_user_step ok now ev (app_cm a) (app_sys a) Hc) as H.
    destruct (cm_step _ _ _ _ _). by intros [= <-].
  - destruct (app_cards a !! id) as [st|] eqn:Hst; [|done].
    destruct (find_by_key Task.id id (app_shown a)) as [task|] eqn:Hf; [|done].
    apply find_by_key_Some in Hf as [Ht Hid]. apply card_event_user_step; [done|done|].
    rewrite Hid. exact (proj1 Hi _ _ Hst).
  - case_bool_decide; [|done]. intros [= <-]. right. by apply us_filter.
  - intros [= <-]. right. apply us_sort.
  - intros [= <-]. right. apply us_search.
  - intros [= <-]. right. apply us_language.
  - intros [= <-]. by left.
  - intros [= <-]. left. by destruct (app_sys a).
  - intros [= <-]. left. simpl. unfold loadRead. by rewrite Hd.
  - intros [= <-]. left. simpl. unfold loadFinish. by rewrite Hd.
Qed.

(** One event of the loaded application other than an import, with its
    commit: the page stays equal to the stores and its collections move by
    one step of the specification. *)
Lemma app_step_spec nowr ev a a' :
  no_import ev = true -> app_inv a -> sys_inv (app_sys a) -> sys_load (app_sys a) = LoadDone ->
  app_step nowr ev a = Some a' ->
  app_inv a' /\ sys_inv (app_sys a') /\ sys_load (app_sys a') = LoadDone /\
  spec_step (view (app_sys a)) (view (app_sys a')).
Proof.
  intros Hev Hi Hs Hd E. split; [by eapply app_step_inv|].
  unfold app_step in E. apply fmap_Some in E as (a0&E&->). cbn [app_sys commit].
  destruct (app_event_user_step ev a a0 Hev Hi Hd E) as [->|Hu]; [split; [done|split; [done|apply sp_stutter]]|].
  split; [by eapply user_step_inv|]. split; [by rewrite (user_step_load _ _ Hu)|].
  by apply user_step_refines.
Qed.

(** Runs without imports keep the loaded application well formed. *)
Lemma app_run_loaded evs a a' :
  forallb (fun e => no_import e.2) evs = true ->
  app_inv a -> sys_inv (app_sys a) -> sys_load (app_sys a) = LoadDone ->
  app_run evs a = Some a' ->
  app_inv a' /\ sys_inv (app_sys a') /\ sys_load (app_sys a') = LoadDone.
Proof.
  revert a. induction evs as [|[nowr ev] evs IH]; intros a Hn Hi Hs Hd; simpl; [by intros [= <-]|].
  simpl in Hn. apply andb_true_iff in Hn as [Hev Hn].
  destruct (app_step nowr ev a) as [a1|] eqn:E; [|done]. simpl.
  destruct (app_step_spec nowr ev a a1 Hev Hi Hs Hd E) as (?&?&?&_). by apply IH.
Qed.

(** C3: Composition, one event at a time: in any run of the rendered
    application without an import from a loaded state whose page mirrors
    the stores (the modal, the category manager, the keyed cards, the
    selects, the search bar and the toggles, with React's commits in
    between), the next event keeps the page equal to the stores and moves
    its collections by exactly one step of the specification's Collection
    State. *)
Theorem app_refines_spec evs nowr ev a0 a a' :
  app_inv a0 -> sys_inv (app_sys a0) -> sys_load (app_sys a0) = LoadDone ->
  forallb (fun e => no_import e.2) evs = true -> app_run evs a0 = Some a ->
  no_import ev = true -> app_step nowr ev a = Some a' ->
  sys_inv (app_sys a') /\ spec_step (view (app_sys a)) (view (app_sys a')).
Proof.
  intros Hi Hs Hd Hn Hrun Hev E.
  destruct (app_run_loaded evs a0 a Hn Hi Hs Hd Hrun) as (Hi1&Hs1&Hd1).
  destruct (app_step_spec nowr ev a a' Hev Hi1 Hs1 Hd1 E) as (_&?&_&?). done.
Qed.
Lemma app_run_inv evs a a' : app_inv a -> app_run evs a = Some a' -> app_inv a'.
Proof.
  revert a. induction evs as [|[nowr ev] evs IH]; intros a Hi; simpl; [by intros [= <-]|].
  destruct (app_step nowr ev a) as [a1|] eqn:E; [|done]. simpl. apply IH. by eapply app_step_inv.
Qed.

Lemma app_init_inv db0 utc0 ls : app_inv (app_init db0 utc0 ls).
Proof. apply commit_inv; [apply map_Forall_empty|done]. Qed.

(** The events that leave the modal's draft as it is: all but typing in
    the modal and submitting it. *)
Definition draft_untouched (ev : AppEvent) : bool :=
  match ev with
  | EModal _ _ _ MClose => true
  | EModal _ _ _ _ => false
  | _ => true
  end.

Lemma app_event_draft ev a a' :
  draft_untouched ev = true -> app_event ev a = Some a' -> app_draft a' = app_draft a.
Proof.
  destruct ev as [|ok now utc []| | | | | | | | | | |]; simpl; intros Hu; try discriminate; intros He;
    repeat case_match; simplify_eq; try done.
  unfold card_event in *. repeat case_match; simplify_eq; done.
Qed.

(** C12: The add modal's default due date is the day the page was
    mounted: the draft is initialised once, by [useState], when the page
    first renders, and whatever happens afterwards (loads, opening and
    closing the modal, any other event, at any later time) it keeps that
    date until the user types in the modal or submits it. *)
Theorem modal_draft_from_mount db0 utc0 ls evs a' :
  forallb (fun e => draft_untouched e.2) evs = true ->
  app_run evs (app_init db0 utc0 ls) = Some a' ->
  app_draft a' = emptyNewTask (toISODate utc0).
Proof.
  assert (app_draft (app_init db0 utc0 ls) = emptyNewTask (toISODate utc0)) as H0 by done.
  revert H0. generalize (app_init db0 utc0 ls). revert a'.
  induction evs as [|[nowr ev] evs IH]; intros a' a H0 Hu; simpl; [by intros [= <-]|].
  simpl in Hu. apply andb_true_iff in Hu as [Hev Hu].
  destruct (app_step nowr ev a) as [a1|] eqn:E; [|done]. simpl. apply IH; [|done].
  unfold app_step in E. apply fmap_Some in E as (a0&E&->). simpl.
  by rewrite (app_event_draft ev a a0 Hev E).
Qed.
End app_proofs.

(** * Runs on the list-backed stores *)

Notation AppL := (App (list Task.t) (list Category.t)).

(** 2026-11-09 at 23:30 UTC and 2026-11-10 at 10:00 UTC. *)
Definition nov9_late : Z := (days_from_civil 2026 11 9 * ms_per_day + 84600000)%Z.
Definition nov10_morning : Z := (days_from_civil 2026 11 10 * ms_per_day + 36000000)%Z.

Definition app0 : AppL := app_init initDB nov9_late None.
Definition load_evs : list (Z * AppEvent) := [(nov9_late, ELoadRead true true); (nov9_late, ELoadFinish)].
Definition loaded_app : AppL := default app0 (app_run load_evs app0).

(** Opening the modal, typing a title and submitting it. *)
Definition typing_evs : list (Z * AppEvent) :=
  [(nov9_late, EOpenModal); (nov9_late, EModal true 5 nov9_late (MSetTitle "X"))].
Definition typed_app : AppL := default loaded_app (app_run typing_evs loaded_app).
Definition submitted_app : AppL :=
  default typed_app (app_step nov9_late (EModal true 5 nov9_late MSubmit) typed_app).

Lemma loaded_app_run : app_run load_evs app0 = Some loaded_app.
Proof. vm_compute. reflexivity. Qed.

Lemma loaded_app_inv : app_inv loaded_app.
Proof. apply (app_run_inv load_evs app0); [apply app_init_inv|apply loaded_app_run]. Qed.

Lemma loaded_app_sys_inv : sys_inv (app_sys loaded_app).
Proof.
  replace (app_sys loaded_app) with loaded_empty by (vm_compute; reflexivity).
  apply (seq_reachable_inv initDB); [apply db_wf_initDB|apply loaded_empty_seq].
Qed.

Lemma app_refines_spec_witness :
  spec_step (view (app_sys typed_app)) (view (app_sys submitted_app)) /\
  length (tasks (sys_page (app_sys submitted_app))) = 1%nat.
Proof.
  split; [|vm_compute; reflexivity].
  apply (app_refines_spec typing_evs nov9_late (EModal true 5 nov9_late MSubmit) loaded_app).
  - exact loaded_app_inv.
  - exact loaded_app_sys_inv.
  - vm_compute. reflexivity.
  - reflexivity.
  - vm_compute. reflexivity.
  - reflexivity.
  - vm_compute. reflexivity.
Defined.

(** The page opened late on 2026-11-09 and the modal opened the next
    morning: the default due date is the day before. *)
Definition next_day_evs : list (Z * AppEvent) := load_evs ++ [(nov10_morning, EOpenModal)].

Lemma modal_draft_from_mount_witness :
  NewTask.dueDate (app_draft (default app0 (app_run next_day_evs app0))) = "2026-11-09" /\
  toISODate nov10_morning = "2026-11-10".
Proof.
  split; [|vm_compute; reflexivity].
  rewrite (modal_draft_from_mount initDB nov9_late None next_day_evs); [vm_compute; reflexivity|reflexivity|].
  vm_compute. reflexivity.
Defined.
